(** * Compute-shader test skeleton (vktSpvAsmComputeShaderCase.cpp)

    A shallow embedding of the SPIR-V assembly compute test instance and of
    the helpers of its anonymous namespace.  The Vulkan device, the memory
    allocator and the host memory primitives are collaborators of the file:
    they are modelled by a recording device ([DeviceState]) whose free
    choices (results of fallible entry points, memory requirements, placement
    of allocations, prior content of mappings, effect of the kernel) are
    supplied by a [Driver].

    - Handles are drawn from one counter, so two objects never share one.
    - The device keeps, for every allocation, the bytes the host sees through
      [getHostPtr]; the stores of the submitted work land in the same bytes.
    - Every call the driver accepts is appended to a trace, host memory
      primitives included; a call whose result is not [VK_SUCCESS] is carried
      by the exception thrown for it. The claims about order and about "no
      other call" are read off the trace.
    - A computation returns, throws (a result other than [VK_SUCCESS] under
      [VK_CHECK], a missing program), stops the process, or never leaves a
      loop; the computations are total functions to these four outcomes.
    - Sizes ([size_t], [VkDeviceSize]) are natural numbers: the file only
      adds two vector sizes. The fixed-width values the file computes with
      (the [deUint32] cast and loop counter, the [int] work-group counts, the
      [deUint64] timeout) are integers with their wrap-around written out.
    - The destructors of the scoped objects ([Unique], [Move], the shared
      pointers) are not part of the embedding. *)

From Stdlib Require Import ZArith List Lia String.
From Stdlib.Strings Require Import Byte.
From stdpp Require Import base option list gmap.

Local Open Scope Z_scope.
Local Open Scope nat_scope.

(** ** Vulkan data used by the file *)

(** Non-dispatchable handles; every object kind draws from one counter. *)
Abbreviation Handle := nat (only parsing).
Abbreviation VkBuffer := Handle (only parsing).
Abbreviation VkDeviceMemory := Handle (only parsing).
Abbreviation VkDescriptorSetLayout := Handle (only parsing).
Abbreviation VkPipelineLayout := Handle (only parsing).
Abbreviation VkDescriptorPool := Handle (only parsing).
Abbreviation VkDescriptorSet := Handle (only parsing).
Abbreviation VkShaderModule := Handle (only parsing).
Abbreviation VkShader := Handle (only parsing).
Abbreviation VkPipeline := Handle (only parsing).
Abbreviation VkCmdPool := Handle (only parsing).
Abbreviation VkCmdBuffer := Handle (only parsing).
Abbreviation VkFence := Handle (only parsing).
Abbreviation VkQueue := Handle (only parsing).
Abbreviation VkDevice := Handle (only parsing).

(** A host pointer returned by [getHostPtr]: the mapping it points into. *)
Abbreviation HostPtr := Handle (only parsing).

Inductive VkResult :=
| VK_SUCCESS
| VK_NOT_READY
| VK_TIMEOUT
| VK_ERROR_OUT_OF_HOST_MEMORY
| VK_ERROR_OUT_OF_DEVICE_MEMORY
| VK_ERROR_DEVICE_LOST.

Inductive VkBufferUsage := VK_BUFFER_USAGE_STORAGE_BUFFER_BIT.
Inductive VkSharingMode := VK_SHARING_MODE_EXCLUSIVE.
Inductive VkDescriptorType := VK_DESCRIPTOR_TYPE_STORAGE_BUFFER.
Inductive VkShaderStage := VK_SHADER_STAGE_COMPUTE.
Inductive VkPipelineBindPoint := VK_PIPELINE_BIND_POINT_COMPUTE.
Inductive VkDescriptorPoolUsage := VK_DESCRIPTOR_POOL_USAGE_ONE_SHOT.
Inductive VkDescriptorSetUsage := VK_DESCRIPTOR_SET_USAGE_ONE_SHOT.
Inductive VkCmdBufferLevel := VK_CMD_BUFFER_LEVEL_PRIMARY.
Inductive VkCmdBufferOptimizeFlag := VK_CMD_BUFFER_OPTIMIZE_ONE_TIME_SUBMIT_BIT.

(** vk::MemoryRequirement, the memory class asked of the allocator. *)
Inductive MemoryRequirement := MR_Any | MR_HostVisible | MR_Coherent.

Record VkBufferCreateInfo := {
  bci_size : nat;
  bci_usage : VkBufferUsage;
  bci_flags : Z;
  bci_sharingMode : VkSharingMode;
  bci_queueFamilyCount : Z
}.

Record VkMemoryRequirements := {
  req_size : nat;
  req_alignment : nat
}.

(** vk::Allocation: a device memory object, the offset of the allocation in
    it, and the host pointer of the mapped allocation. *)
Record Allocation := {
  getMemory : VkDeviceMemory;
  getOffset : nat;
  getHostPtr : HostPtr
}.

Record VkDescriptorBufferInfo := {
  dbi_buffer : VkBuffer;
  dbi_offset : nat;
  dbi_range : nat
}.

Record VkDescriptorInfo := {
  di_bufferView : Handle;
  di_sampler : Handle;
  di_imageView : Handle;
  di_imageLayout : Z;
  di_bufferInfo : VkDescriptorBufferInfo
}.

Record VkDescriptorSetLayoutBinding := {
  lb_descriptorType : VkDescriptorType;
  lb_arraySize : Z;
  lb_stageFlags : VkShaderStage
}.

Record VkWriteDescriptorSet := {
  wds_destSet : VkDescriptorSet;
  wds_destBinding : Z;
  wds_destArrayElement : Z;
  wds_count : Z;
  wds_descriptorType : VkDescriptorType;
  (** [pDescriptors]: the address of a descriptor info; [None] is an address
      past the end of the vector it was taken from, behind which the file has
      put nothing *)
  wds_pDescriptors : option VkDescriptorInfo
}.

Record VkPipelineLayoutCreateInfo := {
  plci_setLayouts : list VkDescriptorSetLayout;
  plci_pushConstantRangeCount : Z
}.

Record VkShaderCreateInfo := {
  sci_module : VkShaderModule;
  sci_name : string;
  sci_flags : Z;
  sci_stage : VkShaderStage
}.

Record VkPipelineShaderStageCreateInfo := {
  pss_stage : VkShaderStage;
  pss_shader : VkShader
}.

Record VkComputePipelineCreateInfo := {
  cpci_cs : VkPipelineShaderStageCreateInfo;
  cpci_flags : Z;
  cpci_layout : VkPipelineLayout;
  cpci_basePipelineHandle : VkPipeline;
  cpci_basePipelineIndex : Z
}.

Record VkCmdPoolCreateInfo := {
  cpi_queueFamilyIndex : Z;
  cpi_flags : Z
}.

Record VkCmdBufferCreateInfo := {
  cbci_cmdPool : VkCmdPool;
  cbci_level : VkCmdBufferLevel;
  cbci_flags : Z
}.

Record VkCmdBufferBeginInfo := {
  cbbi_flags : VkCmdBufferOptimizeFlag;
  cbbi_renderPass : Handle;
  cbbi_subpass : Z;
  cbbi_framebuffer : Handle
}.

Record VkFenceCreateInfo := {
  fci_flags : Z
}.

Definition ProgramBinary := list byte.

(** ** Integer conversions of the file *)

(** Conversion to [deUint32] (the dispatch counts are [int]s handed to
    parameters of type [deUint32]; [numBuffers] is cast by hand). *)
Definition toUint32 (x : Z) : Z := (x mod 2 ^ 32)%Z.

(** [~(deUint64)0u] *)
Definition infiniteTimeout : Z := (Z.lnot 0 mod 2 ^ 64)%Z.

(** ** The recording device *)

(** Every entry point the file reaches, with its arguments and, for the
    ones that create something, what they returned. The three host memory
    primitives are recorded as well, so that the order of host accesses and
    device calls can be stated. *)
Inductive Call :=
| CreateBuffer (info : VkBufferCreateInfo) (ret : VkBuffer)
| GetBufferMemoryRequirements (buffer : VkBuffer) (ret : VkMemoryRequirements)
| Allocate (memReqs : VkMemoryRequirements) (requirement : MemoryRequirement) (ret : Allocation)
| BindBufferMemory (buffer : VkBuffer) (memory : VkDeviceMemory) (offset : nat)
| DeMemcpy (dst : HostPtr) (src : list byte) (numBytes : nat)
| DeMemset (dst : HostPtr) (value : byte) (numBytes : nat)
| DeMemCmp (expected : list byte) (ptr : HostPtr) (numBytes : nat)
| FlushMappedMemoryRange (memory : VkDeviceMemory) (offset : nat) (size : nat)
| CreateDescriptorSetLayout (bindings : list VkDescriptorSetLayoutBinding)
    (ret : VkDescriptorSetLayout)
| CreatePipelineLayout (info : VkPipelineLayoutCreateInfo) (ret : VkPipelineLayout)
| CreateDescriptorPool (counts : list (VkDescriptorType * Z)) (poolUsage : VkDescriptorPoolUsage)
    (maxSets : Z) (ret : VkDescriptorPool)
| AllocDescriptorSet (pool : VkDescriptorPool) (setUsage : VkDescriptorSetUsage)
    (layout : VkDescriptorSetLayout) (ret : VkDescriptorSet)
| UpdateDescriptorSets (writes : list VkWriteDescriptorSet)
| CreateShaderModule (binary : ProgramBinary) (flags : Z) (ret : VkShaderModule)
| CreateShader (info : VkShaderCreateInfo) (ret : VkShader)
| CreateComputePipeline (cache : Handle) (info : VkComputePipelineCreateInfo) (ret : VkPipeline)
| CreateCommandPool (info : VkCmdPoolCreateInfo) (ret : VkCmdPool)
| CreateCommandBuffer (info : VkCmdBufferCreateInfo) (ret : VkCmdBuffer)
| BeginCommandBuffer (cmdBuffer : VkCmdBuffer) (info : VkCmdBufferBeginInfo)
| CmdBindPipeline (cmdBuffer : VkCmdBuffer) (bindPoint : VkPipelineBindPoint)
    (pipeline : VkPipeline)
| CmdBindDescriptorSets (cmdBuffer : VkCmdBuffer) (bindPoint : VkPipelineBindPoint)
    (layout : VkPipelineLayout) (firstSet : Z) (sets : list VkDescriptorSet)
    (dynamicOffsets : list Z)
| CmdDispatch (cmdBuffer : VkCmdBuffer) (x y z : Z)
| EndCommandBuffer (cmdBuffer : VkCmdBuffer)
| CreateFence (info : VkFenceCreateInfo) (ret : VkFence)
| QueueSubmit (queue : VkQueue) (cmdBuffers : list VkCmdBuffer) (fence : VkFence)
| WaitForFences (device : VkDevice) (fences : list VkFence) (waitAll : bool) (timeout : Z).

(** What the device and the allocator are free to choose. *)
Record Driver := {
  (** result of a fallible entry point, given the calls made so far *)
  drv_result : list Call -> Call -> VkResult;
  (** memory requirements of a buffer: its size plus some padding *)
  drv_padding : nat -> nat;
  drv_alignment : nat -> nat;
  (** where the allocator places an allocation inside its memory object *)
  drv_offset : VkDeviceMemory -> VkMemoryRequirements -> nat;
  (** what a fresh mapping holds before the host writes to it *)
  drv_prior : VkDeviceMemory -> nat -> byte;
  (** the stores the submitted work performs, given the calls made so far
      and the content of the mappings *)
  drv_execute : list Call -> gmap Handle (list byte) -> list (HostPtr * nat * byte)
}.

Record DeviceState := {
  nextHandle : Handle;
  hostMem : gmap Handle (list byte);
  trace : list Call
}.

Definition logCall (c : Call) (st : DeviceState) : DeviceState :=
  {| nextHandle := nextHandle st; hostMem := hostMem st; trace := trace st ++ [c] |}.

Definition takeHandle (st : DeviceState) : DeviceState :=
  {| nextHandle := S (nextHandle st); hostMem := hostMem st; trace := trace st |}.

Definition setView (p : HostPtr) (view : list byte) (st : DeviceState) : DeviceState :=
  {| nextHandle := nextHandle st; hostMem := <[p := view]> (hostMem st); trace := trace st |}.

(** The view of a mapping, empty where nothing is mapped. *)
Definition viewOf (st : DeviceState) (p : HostPtr) : list byte :=
  default [] (hostMem st !! p).

(** ** Outcomes and the monad of the embedding *)

Inductive Exception :=
| VkError (call : Call) (result : VkResult)
| NotFound (name : string).

Inductive CrashKind :=
| AssertionFailed
| OutOfBounds
| InvalidPointer.

(** A C++ computation returns, throws, stops the process (a failed
    [DE_ASSERT], an access the language leaves undefined), or never leaves a
    loop. *)
Inductive Outcome (A : Type) :=
| Return (a : A)
| Throw (e : Exception)
| Crash (k : CrashKind)
| Diverge.
Arguments Return {A} a.
Arguments Throw {A} e.
Arguments Crash {A} k.
Arguments Diverge {A}.

Definition M (A : Type) : Type := DeviceState -> Outcome A * DeviceState.

#[global] Instance M_ret : MRet M := fun A a st => (Return a, st).

#[global] Instance M_bind : MBind M := fun A B f m st =>
  match m st with
  | (Return a, st') => f a st'
  | (Throw e, st') => (Throw e, st')
  | (Crash k, st') => (Crash k, st')
  | (Diverge, st') => (Diverge, st')
  end.

Definition modify (f : DeviceState -> DeviceState) : M unit := fun st => (Return tt, f st).
Definition throw {A} (e : Exception) : M A := fun st => (Throw e, st).
Definition crash {A} (k : CrashKind) : M A := fun st => (Crash k, st).
Definition diverge {A} : M A := fun st => (Diverge, st).

(** [v[i]] on a vector: undefined out of range. *)
Definition index {A} (v : list A) (i : nat) : M A :=
  match v !! i with
  | Some x => mret x
  | None => crash OutOfBounds
  end.

(** [for (ndx = first; ndx < first + count; ++ndx) locals = body ndx locals] *)
Fixpoint forLoop {L} (count ndx : nat) (body : nat -> L -> M L) (locals : L) : M L :=
  match count with
  | 0 => mret locals
  | S count' => locals' ← body ndx locals; forLoop count' (S ndx) body locals'
  end.

(** ** Test-framework data used by the file *)

(** Modelled from the spec: the buffer interface of the header ([getNumBytes]
    and [data] of a [BufferSp]) is declared outside the file; a buffer is its
    bytes together with their count. *)
Record Buffer := {
  data : list byte
}.

Definition getNumBytes (b : Buffer) : nat := length (data b).

(** tcu::IVec3: three [int]s. *)
Record IVec3 := {
  vx : Z;
  vy : Z;
  vz : Z
}.

(** The fields of [ComputeShaderSpec] the file reads. *)
Record ComputeShaderSpec := {
  assembly : string;
  inputs : list Buffer;
  outputs : list Buffer;
  numWorkGroups : IVec3
}.

(** Modelled from the spec: the result codes of the test framework are
    declared outside the file; the verdicts the spec names are kept apart
    here, the timed-out one included. *)
Inductive qpTestResult :=
| QP_TEST_RESULT_PASS
| QP_TEST_RESULT_FAIL
| QP_TEST_RESULT_TIMEOUT.

Record TestStatus := {
  getCode : qpTestResult;
  getDescription : string
}.

Definition pass (description : string) : TestStatus :=
  {| getCode := QP_TEST_RESULT_PASS; getDescription := description |}.

Definition fail (description : string) : TestStatus :=
  {| getCode := QP_TEST_RESULT_FAIL; getDescription := description |}.

(** What the file reads from the test [Context]. *)
Record Context := {
  getDevice : VkDevice;
  getUniversalQueue : VkQueue;
  getUniversalQueueFamilyIndex : Z;
  getBinaryCollection : list (string * ProgramBinary)
}.

(** ** Host memory primitives *)

#[global] Instance byte_eq_decision : EqDecision byte := Byte.byte_eq_dec.

(** The bytes [memcmp] looks at decide its result; only its being zero or
    not is used. The sign follows the first differing byte. *)
Fixpoint memCmp (a b : list byte) : Z :=
  match a, b with
  | x :: a', y :: b' =>
      if decide (x = y) then memCmp a' b'
      else (Z.of_N (Byte.to_N x) - Z.of_N (Byte.to_N y))%Z
  | _, _ => 0%Z
  end.

Definition applyStore (mem : gmap Handle (list byte)) (s : HostPtr * nat * byte)
    : gmap Handle (list byte) :=
  let '(p, off, b) := s in alter (fun view => <[off := b]> view) p mem.

Definition applyStores (stores : list (HostPtr * nat * byte)) (mem : gmap Handle (list byte))
    : gmap Handle (list byte) :=
  foldl applyStore mem stores.

Section Device.

Variable drv : Driver.

(** [DE_ASSERT] checks only in builds that define [DE_DEBUG]. *)
Variable DE_DEBUG : bool.

Definition DE_ASSERT (cond : bool) : M unit :=
  if DE_DEBUG && negb cond then crash AssertionFailed else mret tt.

Definition fresh : M Handle := fun st => (Return (nextHandle st), takeHandle st).

(** An entry point whose result goes through [VK_CHECK]: anything but
    [VK_SUCCESS] is thrown. *)
Definition checked (c : Call) : M unit := fun st =>
  match drv_result drv (trace st) c with
  | VK_SUCCESS => (Return tt, logCall c st)
  | r => (Throw (VkError c r), st)
  end.

(** An entry point that returns nothing. *)
Definition unchecked (c : Call) : M unit := fun st => (Return tt, logCall c st).

(** The creating wrappers of vkRefUtil: a fresh handle, or an exception. *)
Definition create (mk : Handle -> Call) : M Handle :=
  h ← fresh; checked (mk h);; mret h.

(** The requirements of a buffer depend on what it was created with; the
    device knows it, the embedding hands it over. *)
Definition getBufferMemoryRequirements (buffer : VkBuffer) (info : VkBufferCreateInfo)
    : M VkMemoryRequirements :=
  let requirements :=
    {| req_size := bci_size info + drv_padding drv (bci_size info);
       req_alignment := drv_alignment drv (bci_size info) |} in
  checked (GetBufferMemoryRequirements buffer requirements);; mret requirements.

(** [Allocator::allocate]: a memory object of the required size, mapped;
    the mapping holds whatever the driver left there. *)
Definition allocate (memReqs : VkMemoryRequirements) (requirement : MemoryRequirement) : M Allocation :=
  mem ← fresh;
  let alloc := {| getMemory := mem; getOffset := drv_offset drv mem memReqs; getHostPtr := mem |} in
  checked (Allocate memReqs requirement alloc);;
  modify (setView mem (map (drv_prior drv mem) (seq 0 (req_size memReqs))));;
  mret alloc.

Definition deMemcpy (dst : HostPtr) (src : list byte) (numBytes : nat) : M unit := fun st =>
  match hostMem st !! dst with
  | Some view =>
      if decide (numBytes ≤ length view ∧ numBytes ≤ length src)
      then (Return tt, logCall (DeMemcpy dst src numBytes)
                         (setView dst (list_inserts 0 (take numBytes src) view) st))
      else (Crash OutOfBounds, st)
  | None => (Crash InvalidPointer, st)
  end.

Definition deMemset (dst : HostPtr) (value : byte) (numBytes : nat) : M unit := fun st =>
  match hostMem st !! dst with
  | Some view =>
      if decide (numBytes ≤ length view)
      then (Return tt, logCall (DeMemset dst value numBytes)
                         (setView dst (list_inserts 0 (replicate numBytes value) view) st))
      else (Crash OutOfBounds, st)
  | None => (Crash InvalidPointer, st)
  end.

Definition deMemCmp (expected : list byte) (ptr : HostPtr) (numBytes : nat) : M Z := fun st =>
  match hostMem st !! ptr with
  | Some view =>
      if decide (numBytes ≤ length view ∧ numBytes ≤ length expected)
      then (Return (memCmp (take numBytes expected) (take numBytes view)),
            logCall (DeMemCmp expected ptr numBytes) st)
      else (Crash OutOfBounds, st)
  | None => (Crash InvalidPointer, st)
  end.

Definition flushMappedMemoryRange (memory : VkDeviceMemory) (offset size : nat) : M unit :=
  checked (FlushMappedMemoryRange memory offset size).

(** [vkQueueSubmit]: once accepted, the device performs the stores of the
    submitted work. *)
Definition queueSubmit (queue : VkQueue) (cmdBuffers : list VkCmdBuffer) (fence : VkFence) : M unit :=
  checked (QueueSubmit queue cmdBuffers fence);;
  modify (fun st =>
    {| nextHandle := nextHandle st;
       hostMem := applyStores (drv_execute drv (trace st) (hostMem st)) (hostMem st);
       trace := trace st |}).

(** ** The helpers of the anonymous namespace *)

Definition createBufferAndBindMemory (numBytes : nat) : M (VkBuffer * Allocation) :=
  let bufferCreateInfo :=
    {| bci_size := numBytes;
       bci_usage := VK_BUFFER_USAGE_STORAGE_BUFFER_BIT;
       bci_flags := 0;
       bci_sharingMode := VK_SHARING_MODE_EXCLUSIVE;
       bci_queueFamilyCount := 0 |} in
  buffer ← create (CreateBuffer bufferCreateInfo);
  requirements ← getBufferMemoryRequirements buffer bufferCreateInfo;
  bufferMemory ← allocate requirements MR_HostVisible;
  checked (BindBufferMemory buffer (getMemory bufferMemory) (getOffset bufferMemory));;
  mret (buffer, bufferMemory).

Definition setMemory (destAlloc : Allocation) (numBytes : nat) (src : list byte) : M unit :=
  let hostPtr := getHostPtr destAlloc in
  deMemcpy hostPtr src numBytes;;
  flushMappedMemoryRange (getMemory destAlloc) (getOffset destAlloc) numBytes.

Definition clearMemory (destAlloc : Allocation) (numBytes : nat) : M unit :=
  let hostPtr := getHostPtr destAlloc in
  deMemset hostPtr x00 numBytes;;
  flushMappedMemoryRange (getMemory destAlloc) (getOffset destAlloc) numBytes.

Definition createDescriptorInfo (buffer : VkBuffer) (offset range : nat) : VkDescriptorInfo :=
  {| di_bufferView := 0;
     di_sampler := 0;
     di_imageView := 0;
     di_imageLayout := 0;
     di_bufferInfo := {| dbi_buffer := buffer; dbi_offset := offset; dbi_range := range |} |}.

(** [DescriptorSetLayoutBuilder::addSingleBinding] *)
Definition addSingleBinding (descriptorType : VkDescriptorType) (stageFlags : VkShaderStage)
    (builder : list VkDescriptorSetLayoutBinding) : list VkDescriptorSetLayoutBinding :=
  builder ++ [{| lb_descriptorType := descriptorType; lb_arraySize := 1; lb_stageFlags := stageFlags |}].

Definition createDescriptorSetLayout (numBindings : nat) : M VkDescriptorSetLayout :=
  builder ← forLoop numBindings 0
    (fun bindingNdx builder =>
       mret (addSingleBinding VK_DESCRIPTOR_TYPE_STORAGE_BUFFER VK_SHADER_STAGE_COMPUTE builder)) [];
  create (CreateDescriptorSetLayout builder).

Definition createPipelineLayout (descriptorSetLayout : VkDescriptorSetLayout) : M VkPipelineLayout :=
  let pipelineLayoutCreateInfo :=
    {| plci_setLayouts := [descriptorSetLayout]; plci_pushConstantRangeCount := 0 |} in
  create (CreatePipelineLayout pipelineLayoutCreateInfo).

Definition createDescriptorPool (numDescriptors : Z) : M VkDescriptorPool :=
  create (CreateDescriptorPool [(VK_DESCRIPTOR_TYPE_STORAGE_BUFFER, numDescriptors)]
            VK_DESCRIPTOR_POOL_USAGE_ONE_SHOT 1).

(** [DescriptorSetUpdateBuilder::writeSingle] at [Location::binding]; the
    builder is handed the address of the descriptor info. *)
Definition writeSingle (destSet : VkDescriptorSet) (binding : Z) (descriptorType : VkDescriptorType)
    (pDescriptor : option VkDescriptorInfo) (builder : list VkWriteDescriptorSet)
    : list VkWriteDescriptorSet :=
  builder ++ [{| wds_destSet := destSet;
                 wds_destBinding := binding;
                 wds_destArrayElement := 0;
                 wds_count := 1;
                 wds_descriptorType := descriptorType;
                 wds_pDescriptors := pDescriptor |}].

(** A [for] loop whose counter is a [deUint32] and whose bound is a
    [size_t]: the comparison is made in [size_t], the increment wraps at 2^32.
    [fuel] is the number of rounds the embedding runs at most; a loop that has
    used it up with its condition still true is reported as not left. *)
Fixpoint forLoopUint32 {L} (bound fuel : nat) (ndx : Z) (body : Z -> L -> M L) (locals : L) : M L :=
  if decide (ndx < Z.of_nat bound)%Z then
    match fuel with
    | 0 => diverge
    | S fuel' =>
        locals' ← body ndx locals;
        forLoopUint32 bound fuel' (toUint32 (ndx + 1)) body locals'
    end
  else mret locals.

(** The body of the loop of [createDescriptorSet]: it takes the address
    [&descriptorInfos[descriptorNdx]] and does not read behind it. *)
Definition descriptorBody (descriptorSet : VkDescriptorSet) (descriptorInfos : list VkDescriptorInfo)
    (descriptorNdx : Z) (builder : list VkWriteDescriptorSet) : M (list VkWriteDescriptorSet) :=
  mret (writeSingle descriptorSet descriptorNdx VK_DESCRIPTOR_TYPE_STORAGE_BUFFER
          (descriptorInfos !! Z.to_nat descriptorNdx) builder).

(** The loop is given [numViews] rounds: they are enough whenever it is
    left at all, and with 2^32 views or more no number of rounds is (the
    lemmas [forLoopUint32_left] and [forLoopUint32_never_left] below). *)
Definition createDescriptorSet (pool : VkDescriptorPool) (layout : VkDescriptorSetLayout)
    (numViews : nat) (descriptorInfos : list VkDescriptorInfo) : M VkDescriptorSet :=
  descriptorSet ← create (AllocDescriptorSet pool VK_DESCRIPTOR_SET_USAGE_ONE_SHOT layout);
  builder ← forLoopUint32 numViews numViews 0 (descriptorBody descriptorSet descriptorInfos) [];
  checked (UpdateDescriptorSets builder);;
  mret descriptorSet.

Definition createShader (module : VkShaderModule) : M VkShader :=
  let shaderCreateInfo :=
    {| sci_module := module; sci_name := "main"; sci_flags := 0; sci_stage := VK_SHADER_STAGE_COMPUTE |} in
  create (CreateShader shaderCreateInfo).

Definition createComputePipeline (pipelineLayout : VkPipelineLayout) (shader : VkShader) : M VkPipeline :=
  let pipelineShaderStageCreateInfo :=
    {| pss_stage := VK_SHADER_STAGE_COMPUTE; pss_shader := shader |} in
  let pipelineCreateInfo :=
    {| cpci_cs := pipelineShaderStageCreateInfo;
       cpci_flags := 0;
       cpci_layout := pipelineLayout;
       cpci_basePipelineHandle := 0;
       cpci_basePipelineIndex := 0 |} in
  create (CreateComputePipeline 0 pipelineCreateInfo).

Definition createCommandPool (queueFamilyIndex : Z) : M VkCmdPool :=
  let cmdPoolCreateInfo := {| cpi_queueFamilyIndex := queueFamilyIndex; cpi_flags := 0 |} in
  create (CreateCommandPool cmdPoolCreateInfo).

(** ** The test case and the test instance *)

Record SpvAsmComputeShaderCase := {
  case_name : string;
  case_description : string;
  case_shaderSpec : ComputeShaderSpec
}.

Record SpvAsmComputeShaderInstance := {
  m_context : Context;
  m_shaderSpec : ComputeShaderSpec
}.

(** The constructors only store their arguments; they have no path that
    throws. *)
Definition newSpvAsmComputeShaderCase (name description : string) (spec : ComputeShaderSpec)
    : Outcome SpvAsmComputeShaderCase :=
  Return {| case_name := name; case_description := description; case_shaderSpec := spec |}.

Definition newSpvAsmComputeShaderInstance (ctx : Context) (spec : ComputeShaderSpec)
    : Outcome SpvAsmComputeShaderInstance :=
  Return {| m_context := ctx; m_shaderSpec := spec |}.

Definition createInstance (c : SpvAsmComputeShaderCase) (ctx : Context)
    : Outcome SpvAsmComputeShaderInstance :=
  newSpvAsmComputeShaderInstance ctx (case_shaderSpec c).

(** [initPrograms]: the assembly is registered under the name "compute". *)
Definition initPrograms (c : SpvAsmComputeShaderCase) (spirvAsmSources : list (string * string))
    : list (string * string) :=
  spirvAsmSources ++ [("compute"%string, assembly (case_shaderSpec c))].

(** Modelled from the spec: the binary collection is declared outside the
    file; it holds the pre-built programs, retrievable by name. *)
Definition lookupBinary (ctx : Context) (name : string) : option ProgramBinary :=
  snd <$> List.find (fun e => String.eqb (fst e) name) (getBinaryCollection ctx).

(** Modelled from the spec: [getBinaryCollection().get(name)] is declared
    outside the file, which only shows that it hands back a reference to the
    program. For a name the collection does not hold the spec says that the
    loading "fails if the supplied binary is absent", signalled by the
    collaborator: the embedding reports it as an exception of the
    collaborator. No property below rests on that branch. *)
Definition getBinary (ctx : Context) (name : string) : M ProgramBinary :=
  match lookupBinary ctx name with
  | Some binary => mret binary
  | None => throw (NotFound name)
  end.

(** The five vectors [iterate] fills. *)
Record Vectors := {
  inputAllocs : list Allocation;
  outputAllocs : list Allocation;
  inputBuffers : list VkBuffer;
  outputBuffers : list VkBuffer;
  descriptorInfos : list VkDescriptorInfo
}.

(** The objects [iterate] holds once the commands are recorded. *)
Record Locals := {
  vectors : Vectors;
  descriptorSetLayout : VkDescriptorSetLayout;
  pipelineLayout : VkPipelineLayout;
  descriptorPool : VkDescriptorPool;
  descriptorSet : VkDescriptorSet;
  module : VkShaderModule;
  shader : VkShader;
  computePipeline : VkPipeline;
  cmdPool : VkCmdPool;
  cmdBuffer : VkCmdBuffer
}.

Definition inputBody (spec : ComputeShaderSpec) (inputNdx : nat) (v : Vectors) : M Vectors :=
  input ← index (inputs spec) inputNdx;
  let numBytes := getNumBytes input in
  '(buffer, alloc) ← createBufferAndBindMemory numBytes;
  setMemory alloc numBytes (data input);;
  mret {| inputAllocs := inputAllocs v ++ [alloc];
          outputAllocs := outputAllocs v;
          inputBuffers := inputBuffers v ++ [buffer];
          outputBuffers := outputBuffers v;
          descriptorInfos := descriptorInfos v ++ [createDescriptorInfo buffer 0 numBytes] |}.

Definition outputBody (spec : ComputeShaderSpec) (outputNdx : nat) (v : Vectors) : M Vectors :=
  output ← index (outputs spec) outputNdx;
  let numBytes := getNumBytes output in
  '(buffer, alloc) ← createBufferAndBindMemory numBytes;
  clearMemory alloc numBytes;;
  mret {| inputAllocs := inputAllocs v;
          outputAllocs := outputAllocs v ++ [alloc];
          inputBuffers := inputBuffers v;
          outputBuffers := outputBuffers v ++ [buffer];
          descriptorInfos := descriptorInfos v ++ [createDescriptorInfo buffer 0 numBytes] |}.

(** The loop that checks the outputs, from [outputNdx] on, [count] of them
    left; it returns from [iterate] at the first difference. *)
Fixpoint checkOutputs (spec : ComputeShaderSpec) (allocs : list Allocation) (count outputNdx : nat)
    : M TestStatus :=
  match count with
  | 0 => mret (pass "Ouput match with expected")
  | S count' =>
      expectedOutput ← index (outputs spec) outputNdx;
      alloc ← index allocs outputNdx;
      r ← deMemCmp (data expectedOutput) (getHostPtr alloc) (getNumBytes expectedOutput);
      if decide (r ≠ 0%Z) then mret (fail "Output doesn't match with expected")
      else checkOutputs spec allocs count' (S outputNdx)
  end.

Definition vectors0 : Vectors :=
  {| inputAllocs := []; outputAllocs := []; inputBuffers := []; outputBuffers := [];
     descriptorInfos := [] |}.

(** "Create buffer object, allocate storage, and create view for all
    input/output buffers." *)
Definition createBuffers (spec : ComputeShaderSpec) : M Vectors :=
  v ← forLoop (length (inputs spec)) 0 (inputBody spec) vectors0;
  forLoop (length (outputs spec)) 0 (outputBody spec) v.

(** "Create command buffer and record commands" *)
Definition recordCommands (ctx : Context) (spec : ComputeShaderSpec)
    (pipelineLayout : VkPipelineLayout) (descriptorSet : VkDescriptorSet)
    (computePipeline : VkPipeline) : M (VkCmdPool * VkCmdBuffer) :=
  cmdPool ← createCommandPool (getUniversalQueueFamilyIndex ctx);
  let cmdBufferCreateInfo :=
    {| cbci_cmdPool := cmdPool; cbci_level := VK_CMD_BUFFER_LEVEL_PRIMARY; cbci_flags := 0 |} in
  cmdBuffer ← create (CreateCommandBuffer cmdBufferCreateInfo);
  let cmdBufferBeginInfo :=
    {| cbbi_flags := VK_CMD_BUFFER_OPTIMIZE_ONE_TIME_SUBMIT_BIT;
       cbbi_renderPass := 0;
       cbbi_subpass := 0;
       cbbi_framebuffer := 0 |} in
  let numWorkGroups := numWorkGroups spec in
  checked (BeginCommandBuffer cmdBuffer cmdBufferBeginInfo);;
  unchecked (CmdBindPipeline cmdBuffer VK_PIPELINE_BIND_POINT_COMPUTE computePipeline);;
  unchecked (CmdBindDescriptorSets cmdBuffer VK_PIPELINE_BIND_POINT_COMPUTE pipelineLayout 0
               [descriptorSet] []);;
  unchecked (CmdDispatch cmdBuffer (toUint32 (vx numWorkGroups)) (toUint32 (vy numWorkGroups))
               (toUint32 (vz numWorkGroups)));;
  checked (EndCommandBuffer cmdBuffer);;
  mret (cmdPool, cmdBuffer).

(** [iterate] up to the recorded command buffer. *)
Definition prepare (self : SpvAsmComputeShaderInstance) : M Locals :=
  let ctx := m_context self in
  let spec := m_shaderSpec self in
  DE_ASSERT (negb (bool_decide (outputs spec = [])));;
  let numBuffers := length (inputs spec) + length (outputs spec) in
  v ← createBuffers spec;
  descriptorSetLayout ← createDescriptorSetLayout numBuffers;
  pipelineLayout ← createPipelineLayout descriptorSetLayout;
  descriptorPool ← createDescriptorPool (toUint32 (Z.of_nat numBuffers));
  descriptorSet ← createDescriptorSet descriptorPool descriptorSetLayout numBuffers (descriptorInfos v);
  binary ← getBinary ctx "compute";
  module ← create (CreateShaderModule binary 0);
  shader ← createShader module;
  computePipeline ← createComputePipeline pipelineLayout shader;
  '(cmdPool, cmdBuffer) ← recordCommands ctx spec pipelineLayout descriptorSet computePipeline;
  mret {| vectors := v;
          descriptorSetLayout := descriptorSetLayout;
          pipelineLayout := pipelineLayout;
          descriptorPool := descriptorPool;
          descriptorSet := descriptorSet;
          module := module;
          shader := shader;
          computePipeline := computePipeline;
          cmdPool := cmdPool;
          cmdBuffer := cmdBuffer |}.

(** "Create fence and run." *)
Definition createFenceAndRun (ctx : Context) (cmdBuffer : VkCmdBuffer) : M VkFence :=
  let fenceCreateInfo := {| fci_flags := 0 |} in
  cmdCompleteFence ← create (CreateFence fenceCreateInfo);
  queueSubmit (getUniversalQueue ctx) [cmdBuffer] cmdCompleteFence;;
  checked (WaitForFences (getDevice ctx) [cmdCompleteFence] false infiniteTimeout);;
  mret cmdCompleteFence.

(** [iterate] from the fence on: run, then "Check output." *)
Definition runAndCheck (self : SpvAsmComputeShaderInstance) (l : Locals) : M TestStatus :=
  let spec := m_shaderSpec self in
  createFenceAndRun (m_context self) (cmdBuffer l);;
  checkOutputs spec (outputAllocs (vectors l)) (length (outputs spec)) 0.

(** [SpvAsmComputeShaderInstance::iterate], returning its locals next to
    the status. *)
Definition iterateLocals (self : SpvAsmComputeShaderInstance) : M (TestStatus * Locals) :=
  l ← prepare self;
  status ← runAndCheck self l;
  mret (status, l).

Definition iterate (self : SpvAsmComputeShaderInstance) : M TestStatus :=
  r ← iterateLocals self; mret (fst r).

End Device.

(** ** A device to run the tests on *)

Definition freshDevice : DeviceState :=
  {| nextHandle := 1; hostMem := ∅; trace := [] |}.

(** The memory a binding slot refers to, read off the calls made: the
    buffer of the last descriptor update at that slot, and the memory that
    buffer was bound to. *)
Definition updatesOf (c : Call) : option (list VkWriteDescriptorSet) :=
  match c with UpdateDescriptorSets writes => Some writes | _ => None end.

Definition memoryBoundTo (buffer : VkBuffer) (c : Call) : option VkDeviceMemory :=
  match c with
  | BindBufferMemory b m _ => if decide (b = buffer) then Some m else None
  | _ => None
  end.

Definition memoryAtBinding (tr : list Call) (binding : nat) : option VkDeviceMemory :=
  writes ← last (omap updatesOf tr);
  w ← writes !! binding;
  info ← wds_pDescriptors w;
  head (omap (memoryBoundTo (dbi_buffer (di_bufferInfo info))) tr).

(** A kernel that copies the buffer at binding 0 to the buffer at binding 1. *)
Definition copyKernel (tr : list Call) (mem : gmap Handle (list byte))
    : list (HostPtr * nat * byte) :=
  match memoryAtBinding tr 0, memoryAtBinding tr 1 with
  | Some src, Some dst => imap (fun i b => (dst, i, b)) (default [] (mem !! src))
  | _, _ => []
  end.

(** A device on which every call succeeds, memory requirements are the
    buffer sizes and fresh mappings hold [0xaa] bytes. *)
Definition plainDriver
    (kernel : list Call -> gmap Handle (list byte) -> list (HostPtr * nat * byte)) : Driver :=
  {| drv_result := fun _ _ => VK_SUCCESS;
     drv_padding := fun _ => 0;
     drv_alignment := fun _ => 1;
     drv_offset := fun _ _ => 0;
     drv_prior := fun _ _ => xaa;
     drv_execute := kernel |}.

Definition testContext : Context :=
  {| getDevice := 0;
     getUniversalQueue := 0;
     getUniversalQueueFamilyIndex := 0;
     getBinaryCollection := [("compute"%string, [x07; x23; x02; x03])] |}.

Definition copySpec (expected : list byte) : ComputeShaderSpec :=
  {| assembly := "OpCopy";
     inputs := [{| data := [x01; x02; x03; x04] |}];
     outputs := [{| data := expected |}];
     numWorkGroups := {| vx := 1; vy := 1; vz := 1 |} |}.

Definition copyInstance (expected : list byte) : SpvAsmComputeShaderInstance :=
  {| m_context := testContext; m_shaderSpec := copySpec expected |}.

(** ** What a run that meets no failure does, call by call

    The calls, handles and mappings a successful run produces are a function
    of the specification, of the driver and of the first free handle. They
    are written down here; the lemmas below show that the embedding of the
    file computes exactly them. *)

Inductive Role := Input | Output.

Definition storageBufferInfo (numBytes : nat) : VkBufferCreateInfo :=
  {| bci_size := numBytes;
     bci_usage := VK_BUFFER_USAGE_STORAGE_BUFFER_BIT;
     bci_flags := 0;
     bci_sharingMode := VK_SHARING_MODE_EXCLUSIVE;
     bci_queueFamilyCount := 0 |}.

Definition requirementsFor (drv : Driver) (numBytes : nat) : VkMemoryRequirements :=
  {| req_size := numBytes + drv_padding drv numBytes;
     req_alignment := drv_alignment drv numBytes |}.

(** The allocation made for the buffer whose handle is [h]: its memory
    object takes the next handle. *)
Definition allocationAt (drv : Driver) (h : Handle) (numBytes : nat) : Allocation :=
  {| getMemory := S h;
     getOffset := drv_offset drv (S h) (requirementsFor drv numBytes);
     getHostPtr := S h |}.

Definition priorView (drv : Driver) (mem : VkDeviceMemory) (numBytes : nat) : list byte :=
  map (drv_prior drv mem) (seq 0 (req_size (requirementsFor drv numBytes))).

Definition bindCalls (drv : Driver) (h : Handle) (numBytes : nat) : list Call :=
  [CreateBuffer (storageBufferInfo numBytes) h;
   GetBufferMemoryRequirements h (requirementsFor drv numBytes);
   Allocate (requirementsFor drv numBytes) MR_HostVisible (allocationAt drv h numBytes);
   BindBufferMemory h (S h) (getOffset (allocationAt drv h numBytes))].

Definition fillCall (role : Role) (h : Handle) (b : Buffer) : Call :=
  match role with
  | Input => DeMemcpy (S h) (data b) (getNumBytes b)
  | Output => DeMemset (S h) x00 (getNumBytes b)
  end.

Definition setupCalls (drv : Driver) (role : Role) (h : Handle) (b : Buffer) : list Call :=
  bindCalls drv h (getNumBytes b) ++
  [fillCall role h b;
   FlushMappedMemoryRange (S h) (getOffset (allocationAt drv h (getNumBytes b))) (getNumBytes b)].

Definition setupView (drv : Driver) (role : Role) (h : Handle) (b : Buffer) : list byte :=
  list_inserts 0
    (match role with
     | Input => take (getNumBytes b) (data b)
     | Output => replicate (getNumBytes b) x00
     end)
    (priorView drv (S h) (getNumBytes b)).

Fixpoint buffersCalls (drv : Driver) (role : Role) (h : Handle) (bs : list Buffer) : list Call :=
  match bs with
  | [] => []
  | b :: bs' => setupCalls drv role h b ++ buffersCalls drv role (S (S h)) bs'
  end.

Fixpoint buffersMem (drv : Driver) (role : Role) (h : Handle) (bs : list Buffer)
    (mem : gmap Handle (list byte)) : gmap Handle (list byte) :=
  match bs with
  | [] => mem
  | b :: bs' => buffersMem drv role (S (S h)) bs' (<[S h := setupView drv role h b]> mem)
  end.

Fixpoint buffersHandles (h : Handle) (bs : list Buffer) : list VkBuffer :=
  match bs with
  | [] => []
  | _ :: bs' => h :: buffersHandles (S (S h)) bs'
  end.

Fixpoint buffersAllocs (drv : Driver) (h : Handle) (bs : list Buffer) : list Allocation :=
  match bs with
  | [] => []
  | b :: bs' => allocationAt drv h (getNumBytes b) :: buffersAllocs drv (S (S h)) bs'
  end.

Fixpoint buffersInfos (h : Handle) (bs : list Buffer) : list VkDescriptorInfo :=
  match bs with
  | [] => []
  | b :: bs' => createDescriptorInfo h 0 (getNumBytes b) :: buffersInfos (S (S h)) bs'
  end.

Definition storageBinding : VkDescriptorSetLayoutBinding :=
  {| lb_descriptorType := VK_DESCRIPTOR_TYPE_STORAGE_BUFFER;
     lb_arraySize := 1;
     lb_stageFlags := VK_SHADER_STAGE_COMPUTE |}.

Definition storageWrite (destSet : VkDescriptorSet) (binding : nat) (info : VkDescriptorInfo)
    : VkWriteDescriptorSet :=
  {| wds_destSet := destSet;
     wds_destBinding := Z.of_nat binding;
     wds_destArrayElement := 0;
     wds_count := 1;
     wds_descriptorType := VK_DESCRIPTOR_TYPE_STORAGE_BUFFER;
     wds_pDescriptors := Some info |}.

(** The write at a binding slot, given the address of its info. *)
Definition pointerWrite (destSet : VkDescriptorSet) (binding : nat)
    (pDescriptor : option VkDescriptorInfo) : VkWriteDescriptorSet :=
  {| wds_destSet := destSet;
     wds_destBinding := Z.of_nat binding;
     wds_destArrayElement := 0;
     wds_count := 1;
     wds_descriptorType := VK_DESCRIPTOR_TYPE_STORAGE_BUFFER;
     wds_pDescriptors := pDescriptor |}.

(** The writes of [n] slots from slot [k] on, each with the address of the
    element of [infos] at its position. *)
Definition writesOf (destSet : VkDescriptorSet) (infos : list VkDescriptorInfo) (k n : nat)
    : list VkWriteDescriptorSet :=
  map (fun i => pointerWrite destSet i (infos !! i)) (seq k n).

Fixpoint writesFrom (destSet : VkDescriptorSet) (binding : nat) (infos : list VkDescriptorInfo)
    : list VkWriteDescriptorSet :=
  match infos with
  | [] => []
  | info :: infos' => storageWrite destSet binding info :: writesFrom destSet (S binding) infos'
  end.

(** The calls of "Create layouts and descriptor set", [h] the first free
    handle. *)
Definition layoutCalls (h : Handle) (numBuffers : nat) (infos : list VkDescriptorInfo) : list Call :=
  [CreateDescriptorSetLayout (replicate numBuffers storageBinding) h;
   CreatePipelineLayout {| plci_setLayouts := [h]; plci_pushConstantRangeCount := 0 |} (1 + h);
   CreateDescriptorPool [(VK_DESCRIPTOR_TYPE_STORAGE_BUFFER, toUint32 (Z.of_nat numBuffers))]
     VK_DESCRIPTOR_POOL_USAGE_ONE_SHOT 1 (2 + h);
   AllocDescriptorSet (2 + h) VK_DESCRIPTOR_SET_USAGE_ONE_SHOT h (3 + h);
   UpdateDescriptorSets (writesFrom (3 + h) 0 infos)].

(** The calls of "Create compute shader and pipeline"; the pipeline layout
    is [1 + h], the shader module takes [4 + h]. *)
Definition pipelineCalls (h : Handle) (binary : ProgramBinary) : list Call :=
  [CreateShaderModule binary 0 (4 + h);
   CreateShader {| sci_module := 4 + h; sci_name := "main"; sci_flags := 0;
                   sci_stage := VK_SHADER_STAGE_COMPUTE |} (5 + h);
   CreateComputePipeline 0
     {| cpci_cs := {| pss_stage := VK_SHADER_STAGE_COMPUTE; pss_shader := 5 + h |};
        cpci_flags := 0;
        cpci_layout := 1 + h;
        cpci_basePipelineHandle := 0;
        cpci_basePipelineIndex := 0 |} (6 + h)].

(** The calls of "Create command buffer and record commands". *)
Definition commandCalls (ctx : Context) (spec : ComputeShaderSpec) (h : Handle) : list Call :=
  [CreateCommandPool {| cpi_queueFamilyIndex := getUniversalQueueFamilyIndex ctx; cpi_flags := 0 |} (7 + h);
   CreateCommandBuffer {| cbci_cmdPool := 7 + h; cbci_level := VK_CMD_BUFFER_LEVEL_PRIMARY;
                          cbci_flags := 0 |} (8 + h);
   BeginCommandBuffer (8 + h)
     {| cbbi_flags := VK_CMD_BUFFER_OPTIMIZE_ONE_TIME_SUBMIT_BIT; cbbi_renderPass := 0;
        cbbi_subpass := 0; cbbi_framebuffer := 0 |};
   CmdBindPipeline (8 + h) VK_PIPELINE_BIND_POINT_COMPUTE (6 + h);
   CmdBindDescriptorSets (8 + h) VK_PIPELINE_BIND_POINT_COMPUTE (1 + h) 0 [3 + h] [];
   CmdDispatch (8 + h) (toUint32 (vx (numWorkGroups spec))) (toUint32 (vy (numWorkGroups spec)))
     (toUint32 (vz (numWorkGroups spec)));
   EndCommandBuffer (8 + h)].

(** The vectors after both loops, [h] the first free handle before them. *)
Definition filledVectors (drv : Driver) (spec : ComputeShaderSpec) (h : Handle) : Vectors :=
  let h' := h + 2 * length (inputs spec) in
  {| inputAllocs := buffersAllocs drv h (inputs spec);
     outputAllocs := buffersAllocs drv h' (outputs spec);
     inputBuffers := buffersHandles h (inputs spec);
     outputBuffers := buffersHandles h' (outputs spec);
     descriptorInfos := buffersInfos h (inputs spec) ++ buffersInfos h' (outputs spec) |}.

(** The first free handle after both loops. *)
Definition afterBuffers (spec : ComputeShaderSpec) (h : Handle) : Handle :=
  h + 2 * length (inputs spec) + 2 * length (outputs spec).

Definition createBuffersCalls (drv : Driver) (spec : ComputeShaderSpec) (h : Handle) : list Call :=
  buffersCalls drv Input h (inputs spec) ++
  buffersCalls drv Output (h + 2 * length (inputs spec)) (outputs spec).

Definition createBuffersMem (drv : Driver) (spec : ComputeShaderSpec) (h : Handle)
    (mem : gmap Handle (list byte)) : gmap Handle (list byte) :=
  buffersMem drv Output (h + 2 * length (inputs spec)) (outputs spec)
    (buffersMem drv Input h (inputs spec) mem).

(** Everything [iterate] calls before it creates the fence. *)
Definition prepareCalls (drv : Driver) (ctx : Context) (spec : ComputeShaderSpec) (h : Handle)
    (binary : ProgramBinary) : list Call :=
  let k := afterBuffers spec h in
  createBuffersCalls drv spec h ++
  layoutCalls k (length (inputs spec) + length (outputs spec)) (descriptorInfos (filledVectors drv spec h)) ++
  pipelineCalls k binary ++
  commandCalls ctx spec k.

Definition preparedLocals (drv : Driver) (spec : ComputeShaderSpec) (h : Handle) : Locals :=
  let k := afterBuffers spec h in
  {| vectors := filledVectors drv spec h;
     descriptorSetLayout := k;
     pipelineLayout := 1 + k;
     descriptorPool := 2 + k;
     descriptorSet := 3 + k;
     module := 4 + k;
     shader := 5 + k;
     computePipeline := 6 + k;
     cmdPool := 7 + k;
     cmdBuffer := 8 + k |}.

(** The calls of "Create fence and run". *)
Definition runCalls (ctx : Context) (cmdBuffer : VkCmdBuffer) (h : Handle) : list Call :=
  [CreateFence {| fci_flags := 0 |} h;
   QueueSubmit (getUniversalQueue ctx) [cmdBuffer] h;
   WaitForFences (getDevice ctx) [h] false infiniteTimeout].

(** ** Observations on the calls made *)

(** The calls a run added to the ones made before it. *)
Definition newCalls (st st' : DeviceState) : list Call :=
  drop (length (trace st)) (trace st').

(** The commands recorded into command buffers. *)
Definition commandOf (c : Call) : option Call :=
  match c with
  | CmdBindPipeline _ _ _ | CmdBindDescriptorSets _ _ _ _ _ _ | CmdDispatch _ _ _ _ => Some c
  | _ => None
  end.

Definition recordedCommands (calls : list Call) : list Call := omap commandOf calls.

Definition createdBuffer (c : Call) : option (VkBufferCreateInfo * VkBuffer) :=
  match c with CreateBuffer info ret => Some (info, ret) | _ => None end.

Definition createdLayout (c : Call) : option (list VkDescriptorSetLayoutBinding * VkDescriptorSetLayout) :=
  match c with CreateDescriptorSetLayout bindings ret => Some (bindings, ret) | _ => None end.

Definition boundMemory (c : Call) : option (VkBuffer * VkDeviceMemory * nat) :=
  match c with BindBufferMemory b m off => Some (b, m, off) | _ => None end.

Definition waitOf (c : Call) : option (list VkFence * Z) :=
  match c with WaitForFences _ fences _ timeout => Some (fences, timeout) | _ => None end.

Definition comparisonOf (c : Call) : option Call :=
  match c with DeMemCmp _ _ _ => Some c | _ => None end.

Definition submitOf (c : Call) : option (list VkCmdBuffer * VkFence) :=
  match c with QueueSubmit _ cmdBuffers fence => Some (cmdBuffers, fence) | _ => None end.

(** A driver that never reports a failure. *)
Definition reliable (drv : Driver) : Prop :=
  ∀ tr c, drv_result drv tr c = VK_SUCCESS.

(** An output matches when the first bytes of its mapping are the expected
    ones. *)
Definition outputMatches (st : DeviceState) (expected : Buffer) (alloc : Allocation) : Prop :=
  take (getNumBytes expected) (viewOf st (getHostPtr alloc)) = data expected.

#[global] Instance outputMatches_dec st expected alloc : Decision (outputMatches st expected alloc).
Proof. unfold outputMatches. apply _. Defined.

(** The position, among the outputs given, of the first one that differs
    from its mapping. *)
Fixpoint firstMismatch (st : DeviceState) (expected : list Buffer) (allocs : list Allocation)
    : option nat :=
  match expected, allocs with
  | e :: expected', a :: allocs' =>
      if decide (outputMatches st e a) then S <$> firstMismatch st expected' allocs'
      else Some 0
  | _, _ => None
  end.

Definition compareCall (ea : Buffer * Allocation) : Call :=
  DeMemCmp (data (fst ea)) (getHostPtr (snd ea)) (getNumBytes (fst ea)).

(** The comparisons the checking loop makes: every output when all match,
    the outputs up to the first mismatch otherwise. *)
Definition compareCalls (st : DeviceState) (expected : list Buffer) (allocs : list Allocation)
    : list Call :=
  match firstMismatch st expected allocs with
  | None => map compareCall (zip expected allocs)
  | Some k => map compareCall (take (S k) (zip expected allocs))
  end.

Definition verdictOf (mismatch : option nat) : TestStatus :=
  match mismatch with
  | None => pass "Ouput match with expected"
  | Some _ => fail "Output doesn't match with expected"
  end.

(** Nothing but the first [n] bytes of the mapping at [p] differs between
    two states. *)
Definition unchangedBeyond (p : HostPtr) (n : nat) (st st' : DeviceState) : Prop :=
  ∀ q i, q ≠ p ∨ n ≤ i → viewOf st' q !! i = viewOf st q !! i.

(** A value of an [int] that is not negative. *)
Definition nonNegativeInt (x : Z) : Prop := (0 ≤ x < 2 ^ 31)%Z.

(** An allocator that places every allocation 256 bytes into its memory
    object, on a device on which every call succeeds. *)
Definition offsetDriver : Driver :=
  {| drv_result := fun _ _ => VK_SUCCESS;
     drv_padding := fun _ => 0;
     drv_alignment := fun _ => 256;
     drv_offset := fun _ _ => 256;
     drv_prior := fun _ _ => xaa;
     drv_execute := fun _ _ => [] |}.

(** A device on which the wait for the fence is reported as timed out. *)
Definition timeoutDriver : Driver :=
  {| drv_result := fun _ c => match c with WaitForFences _ _ _ _ => VK_TIMEOUT | _ => VK_SUCCESS end;
     drv_padding := fun _ => 0;
     drv_alignment := fun _ => 1;
     drv_offset := fun _ _ => 0;
     drv_prior := fun _ _ => xaa;
     drv_execute := copyKernel |}.

(** A specification without outputs. *)
Definition noOutputSpec : ComputeShaderSpec :=
  {| assembly := "OpNop";
     inputs := [{| data := [x01; x02; x03; x04] |}];
     outputs := [];
     numWorkGroups := {| vx := 1; vy := 1; vz := 1 |} |}.

Definition noOutputInstance : SpvAsmComputeShaderInstance :=
  {| m_context := testContext; m_shaderSpec := noOutputSpec |}.

(** Three outputs: the copying kernel produces the first one and neither
    of the other two. *)
Definition threeOutputSpec : ComputeShaderSpec :=
  {| assembly := "OpCopy";
     inputs := [{| data := [x01; x02; x03; x04] |}];
     outputs := [{| data := [x01; x02; x03; x04] |}; {| data := [x08; x08] |}; {| data := [x07] |}];
     numWorkGroups := {| vx := 1; vy := 1; vz := 1 |} |}.

Definition threeOutputInstance : SpvAsmComputeShaderInstance :=
  {| m_context := testContext; m_shaderSpec := threeOutputSpec |}.

(** The device of the examples, and the instance whose expected output is
    what the copying kernel produces. *)
Definition copyDevice : Driver := plainDriver copyKernel.

Definition passingInstance : SpvAsmComputeShaderInstance :=
  copyInstance [x01; x02; x03; x04].

(** A device with one mapping of six bytes, and an allocation over it. *)
Definition mappedDevice : DeviceState := setView 7 (replicate 6 xaa) freshDevice.

Definition mappedAllocation : Allocation :=
  {| getMemory := 7; getOffset := 0; getHostPtr := 7 |}.

(** ** The sections of [iterate] and how a run may end *)

(** The section of [iterate] a call belongs to, after the comments that
    head the sections in the source. *)
Inductive Phase :=
| Setup
| Layout
| Program
| Record
| Run
| Compare.

Definition phaseOf (c : Call) : Phase :=
  match c with
  | CreateBuffer _ _ | GetBufferMemoryRequirements _ _ | Allocate _ _ _ | BindBufferMemory _ _ _
  | DeMemcpy _ _ _ | DeMemset _ _ _ | FlushMappedMemoryRange _ _ _ => Setup
  | CreateDescriptorSetLayout _ _ | CreatePipelineLayout _ _ | CreateDescriptorPool _ _ _ _
  | AllocDescriptorSet _ _ _ _ | UpdateDescriptorSets _ => Layout
  | CreateShaderModule _ _ _ | CreateShader _ _ | CreateComputePipeline _ _ _ => Program
  | CreateCommandPool _ _ | CreateCommandBuffer _ _ | BeginCommandBuffer _ _
  | CmdBindPipeline _ _ _ | CmdBindDescriptorSets _ _ _ _ _ _ | CmdDispatch _ _ _ _
  | EndCommandBuffer _ => Record
  | CreateFence _ _ | QueueSubmit _ _ _ | WaitForFences _ _ _ _ => Run
  | DeMemCmp _ _ _ => Compare
  end.

(** The calls a computation run from [st] adds, however it ends, all
    satisfy [P]. *)
Definition logs (P : Call -> Prop) {A} (m : M A) (st : DeviceState) : Prop :=
  ∃ calls, trace (m st).2 = trace st ++ calls ∧ Forall P calls.

(** A device whose submitted work stores nothing. *)
Definition idle (drv : Driver) : Prop :=
  ∀ tr mem, drv_execute drv tr mem = [].

Definition idleDevice : Driver := plainDriver (fun _ _ => []).

(** An instance that expects the zero bytes an idle device leaves. *)
Definition zeroInstance : SpvAsmComputeShaderInstance := copyInstance [x00; x00; x00; x00].

(** ** Further observations on the calls made *)

Definition createdPipelineLayout (c : Call) : option (VkPipelineLayoutCreateInfo * VkPipelineLayout) :=
  match c with CreatePipelineLayout info ret => Some (info, ret) | _ => None end.

Definition createdPool (c : Call)
    : option (list (VkDescriptorType * Z) * VkDescriptorPoolUsage * Z * VkDescriptorPool) :=
  match c with
  | CreateDescriptorPool counts poolUsage maxSets ret => Some (counts, poolUsage, maxSets, ret)
  | _ => None
  end.

Definition allocatedSet (c : Call)
    : option (VkDescriptorPool * VkDescriptorSetUsage * VkDescriptorSetLayout * VkDescriptorSet) :=
  match c with
  | AllocDescriptorSet pool setUsage layout ret => Some (pool, setUsage, layout, ret)
  | _ => None
  end.

Definition createdModule (c : Call) : option (ProgramBinary * Z * VkShaderModule) :=
  match c with CreateShaderModule binary flags ret => Some (binary, flags, ret) | _ => None end.

Definition createdShader (c : Call) : option (VkShaderCreateInfo * VkShader) :=
  match c with CreateShader info ret => Some (info, ret) | _ => None end.

Definition createdPipeline (c : Call) : option (Handle * VkComputePipelineCreateInfo * VkPipeline) :=
  match c with CreateComputePipeline cache info ret => Some (cache, info, ret) | _ => None end.

Definition createdCmdPool (c : Call) : option (VkCmdPoolCreateInfo * VkCmdPool) :=
  match c with CreateCommandPool info ret => Some (info, ret) | _ => None end.

Definition createdCmdBuffer (c : Call) : option (VkCmdBufferCreateInfo * VkCmdBuffer) :=
  match c with CreateCommandBuffer info ret => Some (info, ret) | _ => None end.

Definition begun (c : Call) : option (VkCmdBuffer * VkCmdBufferBeginInfo) :=
  match c with BeginCommandBuffer cb info => Some (cb, info) | _ => None end.

(** ** Further instances to run *)

(** A specification with 2^32 inputs. *)
Definition hugeSpec : ComputeShaderSpec :=
  {| assembly := "OpNop";
     inputs := replicate (Z.to_nat (2 ^ 32)) {| data := [] |};
     outputs := [{| data := [x00] |}];
     numWorkGroups := {| vx := 1; vy := 1; vz := 1 |} |}.

Definition hugeInstance : SpvAsmComputeShaderInstance :=
  {| m_context := testContext; m_shaderSpec := hugeSpec |}.

(** Two descriptor infos, of which a descriptor set may take the first. *)
Definition twoInfos : list VkDescriptorInfo :=
  [createDescriptorInfo 1 0 4; createDescriptorInfo 3 0 4].

(** * Properties *)

(** ** Running the monad *)

Lemma bind_Return_inv {A B} (f : A → M B) (m : M A) st b st' :
  (m ≫= f) st = (Return b, st') →
  ∃ a st1, m st = (Return a, st1) ∧ f a st1 = (Return b, st').
Proof.
  unfold mbind, M_bind. destruct (m st) as [[a|e|k|] st1]; intros H; try discriminate.
  eauto.
Qed.

Lemma bind_Return_run {A B} (f : A → M B) (m : M A) st a st1 :
  m st = (Return a, st1) → (m ≫= f) st = f a st1.
Proof. unfold mbind, M_bind. intros ->. reflexivity. Qed.

Lemma mret_inv {A} (a b : A) st st' :
  mret (M := M) a st = (Return b, st') → b = a ∧ st' = st.
Proof. unfold mret, M_ret. intros H. inversion H. auto. Qed.

Lemma index_inv {A} (v : list A) i x st st' :
  index v i st = (Return x, st') → v !! i = Some x ∧ st' = st.
Proof.
  unfold index. destruct (v !! i); [|discriminate].
  intros H. apply mret_inv in H. destruct H; subst; auto.
Qed.

Lemma index_run {A} (v : list A) i x st :
  v !! i = Some x → index v i st = (Return x, st).
Proof. unfold index. intros ->. reflexivity. Qed.

Section DeviceFacts.

Variable drv : Driver.
Variable DE_DEBUG : bool.

Lemma checked_inv c st u st' :
  checked drv c st = (Return u, st') →
  drv_result drv (trace st) c = VK_SUCCESS ∧ st' = logCall c st.
Proof.
  unfold checked. destruct (drv_result drv (trace st) c); intros H; inversion H; auto.
Qed.

Lemma checked_run c st :
  drv_result drv (trace st) c = VK_SUCCESS → checked drv c st = (Return tt, logCall c st).
Proof. unfold checked. intros ->. reflexivity. Qed.

Lemma create_inv mk st h st' :
  create drv mk st = (Return h, st') →
  h = nextHandle st ∧ st' = logCall (mk h) (takeHandle st).
Proof.
  unfold create. intros H.
  apply bind_Return_inv in H as (h0 & st1 & Hf & H).
  unfold fresh in Hf. inversion Hf; subst; clear Hf.
  apply bind_Return_inv in H as (u & st2 & Hc & H).
  apply checked_inv in Hc as [_ ->].
  apply mret_inv in H as [-> ->]. auto.
Qed.

Lemma create_run mk st :
  reliable drv →
  create drv mk st = (Return (nextHandle st), logCall (mk (nextHandle st)) (takeHandle st)).
Proof.
  intros Hok. unfold create, fresh.
  unfold mbind at 1, M_bind at 1.
  rewrite (bind_Return_run _ _ _ tt (logCall (mk (nextHandle st)) (takeHandle st))).
  - reflexivity.
  - apply checked_run. apply Hok.
Qed.

Lemma getBufferMemoryRequirements_inv buffer info st r st' :
  getBufferMemoryRequirements drv buffer info st = (Return r, st') →
  r = requirementsFor drv (bci_size info) ∧
  st' = logCall (GetBufferMemoryRequirements buffer r) st.
Proof.
  unfold getBufferMemoryRequirements. intros H.
  apply bind_Return_inv in H as (u & st1 & Hc & H).
  apply checked_inv in Hc as [_ ->].
  apply mret_inv in H as [-> ->]. auto.
Qed.

Lemma allocate_inv memReqs requirement st alloc st' :
  allocate drv memReqs requirement st = (Return alloc, st') →
  alloc = {| getMemory := nextHandle st;
             getOffset := drv_offset drv (nextHandle st) memReqs;
             getHostPtr := nextHandle st |} ∧
  st' = setView (nextHandle st) (map (drv_prior drv (nextHandle st)) (seq 0 (req_size memReqs)))
          (logCall (Allocate memReqs requirement alloc) (takeHandle st)).
Proof.
  unfold allocate. intros H.
  apply bind_Return_inv in H as (mem & st1 & Hf & H).
  unfold fresh in Hf. inversion Hf; subst; clear Hf.
  apply bind_Return_inv in H as (u & st2 & Hc & H).
  apply checked_inv in Hc as [_ ->].
  apply bind_Return_inv in H as (u' & st3 & Hm & H).
  unfold modify in Hm. inversion Hm; subst; clear Hm.
  apply mret_inv in H as [-> ->]. auto.
Qed.

Lemma createBufferAndBindMemory_inv numBytes st buffer alloc st' :
  createBufferAndBindMemory drv numBytes st = (Return (buffer, alloc), st') →
  buffer = nextHandle st ∧
  alloc = allocationAt drv (nextHandle st) numBytes ∧
  nextHandle st' = S (S (nextHandle st)) ∧
  hostMem st' = <[S (nextHandle st) := priorView drv (S (nextHandle st)) numBytes]> (hostMem st) ∧
  trace st' = trace st ++ bindCalls drv (nextHandle st) numBytes.
Proof.
  unfold createBufferAndBindMemory. intros H.
  apply bind_Return_inv in H as (b & st1 & Hb & H).
  apply create_inv in Hb as [-> ->].
  apply bind_Return_inv in H as (r & st2 & Hr & H).
  apply getBufferMemoryRequirements_inv in Hr as [-> ->].
  apply bind_Return_inv in H as (a & st3 & Ha & H).
  apply allocate_inv in Ha as [-> ->].
  apply bind_Return_inv in H as (u & st4 & Hc & H).
  apply checked_inv in Hc as [_ ->].
  apply mret_inv in H as [H ->]. inversion H; subst; clear H.
  simpl. unfold bindCalls, allocationAt, priorView, requirementsFor, storageBufferInfo. simpl.
  repeat split; try reflexivity.
  rewrite <- !app_assoc. reflexivity.
Qed.

Lemma createBufferAndBindMemory_run numBytes st :
  reliable drv →
  ∃ st', createBufferAndBindMemory drv numBytes st =
           (Return (nextHandle st, allocationAt drv (nextHandle st) numBytes), st').
Proof.
  intros Hok. unfold createBufferAndBindMemory.
  erewrite bind_Return_run by (apply create_run; exact Hok).
  unfold getBufferMemoryRequirements.
  erewrite bind_Return_run
    by (erewrite bind_Return_run by (apply checked_run; apply Hok); reflexivity).
  unfold allocate.
  erewrite bind_Return_run.
  2:{ erewrite bind_Return_run by (unfold fresh; reflexivity).
      erewrite bind_Return_run by (apply checked_run; apply Hok).
      erewrite bind_Return_run by (unfold modify; reflexivity).
      reflexivity. }
  erewrite bind_Return_run by (apply checked_run; apply Hok).
  eexists. reflexivity.
Qed.

(** *** The host memory primitives *)

Lemma deMemcpy_inv dst src n st u st' :
  deMemcpy dst src n st = (Return u, st') →
  ∃ view, hostMem st !! dst = Some view ∧ n ≤ length view ∧ n ≤ length src ∧
          st' = logCall (DeMemcpy dst src n) (setView dst (list_inserts 0 (take n src) view) st).
Proof.
  unfold deMemcpy. destruct (hostMem st !! dst) as [view|]; [|discriminate].
  case_decide as Hd; [|discriminate]. intros H; inversion H; subst. exists view. tauto.
Qed.

Lemma deMemset_inv dst value n st u st' :
  deMemset dst value n st = (Return u, st') →
  ∃ view, hostMem st !! dst = Some view ∧ n ≤ length view ∧
          st' = logCall (DeMemset dst value n) (setView dst (list_inserts 0 (replicate n value) view) st).
Proof.
  unfold deMemset. destruct (hostMem st !! dst) as [view|]; [|discriminate].
  case_decide as Hd; [|discriminate]. intros H; inversion H; subst. exists view. tauto.
Qed.

Lemma deMemCmp_inv expected ptr n st r st' :
  deMemCmp expected ptr n st = (Return r, st') →
  ∃ view, hostMem st !! ptr = Some view ∧ n ≤ length view ∧ n ≤ length expected ∧
          r = memCmp (take n expected) (take n view) ∧
          st' = logCall (DeMemCmp expected ptr n) st.
Proof.
  unfold deMemCmp. destruct (hostMem st !! ptr) as [view|]; [|discriminate].
  case_decide as Hd; [|discriminate]. intros H; inversion H; subst. exists view. tauto.
Qed.

Lemma memCmp_zero_iff (a b : list byte) :
  length a = length b → (memCmp a b = 0%Z ↔ a = b).
Proof.
  revert b. induction a as [|x a IH]; intros [|y b] Hlen; simpl in *; try discriminate.
  - tauto.
  - case_decide as Hxy.
    + subst y. rewrite IH by lia. split; [intros ->; reflexivity | intros H; inversion H; reflexivity].
    + split.
      * intros H. exfalso. apply Hxy.
        assert (Byte.to_N x = Byte.to_N y) as E by lia.
        apply (f_equal Byte.of_N) in E.
        rewrite !Byte.of_to_N in E. congruence.
      * intros H. inversion H. contradiction.
Qed.

Lemma setMemory_inv alloc n src st u st' :
  setMemory drv alloc n src st = (Return u, st') →
  ∃ view, hostMem st !! getHostPtr alloc = Some view ∧ n ≤ length view ∧ n ≤ length src ∧
          nextHandle st' = nextHandle st ∧
          hostMem st' = <[getHostPtr alloc := list_inserts 0 (take n src) view]> (hostMem st) ∧
          trace st' = trace st ++ [DeMemcpy (getHostPtr alloc) src n;
                                   FlushMappedMemoryRange (getMemory alloc) (getOffset alloc) n].
Proof.
  unfold setMemory, flushMappedMemoryRange. intros H.
  apply bind_Return_inv in H as (u1 & st1 & Hc & H).
  apply deMemcpy_inv in Hc as (view & Hv & Hn & Hs & ->).
  apply checked_inv in H as [_ ->].
  exists view. simpl. rewrite <- app_assoc. auto 10.
Qed.

Lemma clearMemory_inv alloc n st u st' :
  clearMemory drv alloc n st = (Return u, st') →
  ∃ view, hostMem st !! getHostPtr alloc = Some view ∧ n ≤ length view ∧
          nextHandle st' = nextHandle st ∧
          hostMem st' = <[getHostPtr alloc := list_inserts 0 (replicate n x00) view]> (hostMem st) ∧
          trace st' = trace st ++ [DeMemset (getHostPtr alloc) x00 n;
                                   FlushMappedMemoryRange (getMemory alloc) (getOffset alloc) n].
Proof.
  unfold clearMemory, flushMappedMemoryRange. intros H.
  apply bind_Return_inv in H as (u1 & st1 & Hc & H).
  apply deMemset_inv in Hc as (view & Hv & Hn & ->).
  apply checked_inv in H as [_ ->].
  exists view. simpl. rewrite <- app_assoc. auto 10.
Qed.

Lemma setMemory_run alloc n src st view :
  reliable drv → hostMem st !! getHostPtr alloc = Some view →
  n ≤ length view → n ≤ length src →
  ∃ st', setMemory drv alloc n src st = (Return tt, st').
Proof.
  intros Hok Hv Hn Hs. unfold setMemory, flushMappedMemoryRange.
  erewrite bind_Return_run.
  2:{ unfold deMemcpy. rewrite Hv. rewrite decide_True by auto. reflexivity. }
  rewrite checked_run by apply Hok. eauto.
Qed.

Lemma clearMemory_run alloc n st view :
  reliable drv → hostMem st !! getHostPtr alloc = Some view → n ≤ length view →
  ∃ st', clearMemory drv alloc n st = (Return tt, st').
Proof.
  intros Hok Hv Hn. unfold clearMemory, flushMappedMemoryRange.
  erewrite bind_Return_run.
  2:{ unfold deMemset. rewrite Hv. rewrite decide_True by auto. reflexivity. }
  rewrite checked_run by apply Hok. eauto.
Qed.

Lemma length_priorView mem n : length (priorView drv mem n) = n + drv_padding drv n.
Proof. unfold priorView. rewrite length_map, length_seq. reflexivity. Qed.

(** *** The two loops over the buffers *)

Lemma inputBody_inv spec ndx v st v' st' :
  inputBody drv spec ndx v st = (Return v', st') →
  ∃ input, inputs spec !! ndx = Some input ∧
    v' = {| inputAllocs := inputAllocs v ++ [allocationAt drv (nextHandle st) (getNumBytes input)];
            outputAllocs := outputAllocs v;
            inputBuffers := inputBuffers v ++ [nextHandle st];
            outputBuffers := outputBuffers v;
            descriptorInfos := descriptorInfos v ++
              [createDescriptorInfo (nextHandle st) 0 (getNumBytes input)] |} ∧
    nextHandle st' = S (S (nextHandle st)) ∧
    hostMem st' = <[S (nextHandle st) := setupView drv Input (nextHandle st) input]> (hostMem st) ∧
    trace st' = trace st ++ setupCalls drv Input (nextHandle st) input.
Proof.
  unfold inputBody. intros H.
  apply bind_Return_inv in H as (input & st1 & Hi & H).
  apply index_inv in Hi as [Hi ->].
  apply bind_Return_inv in H as ([buffer alloc] & st2 & Hc & H).
  apply createBufferAndBindMemory_inv in Hc as (-> & -> & Hh & Hm & Ht).
  apply bind_Return_inv in H as (u & st3 & Hs & H).
  apply setMemory_inv in Hs as (view & Hv & Hn & Hs & Hh' & Hm' & Ht').
  apply mret_inv in H as [-> ->].
  exists input. split; [exact Hi|]. split; [reflexivity|].
  simpl in *. rewrite Hm, lookup_insert_eq in Hv. inversion Hv; subst view; clear Hv.
  split; [congruence|]. split.
  - rewrite Hm', Hm, insert_insert_eq. reflexivity.
  - rewrite Ht', Ht. unfold setupCalls. rewrite <- app_assoc. reflexivity.
Qed.

Lemma outputBody_inv spec ndx v st v' st' :
  outputBody drv spec ndx v st = (Return v', st') →
  ∃ output, outputs spec !! ndx = Some output ∧
    v' = {| inputAllocs := inputAllocs v;
            outputAllocs := outputAllocs v ++ [allocationAt drv (nextHandle st) (getNumBytes output)];
            inputBuffers := inputBuffers v;
            outputBuffers := outputBuffers v ++ [nextHandle st];
            descriptorInfos := descriptorInfos v ++
              [createDescriptorInfo (nextHandle st) 0 (getNumBytes output)] |} ∧
    nextHandle st' = S (S (nextHandle st)) ∧
    hostMem st' = <[S (nextHandle st) := setupView drv Output (nextHandle st) output]> (hostMem st) ∧
    trace st' = trace st ++ setupCalls drv Output (nextHandle st) output.
Proof.
  unfold outputBody. intros H.
  apply bind_Return_inv in H as (output & st1 & Hi & H).
  apply index_inv in Hi as [Hi ->].
  apply bind_Return_inv in H as ([buffer alloc] & st2 & Hc & H).
  apply createBufferAndBindMemory_inv in Hc as (-> & -> & Hh & Hm & Ht).
  apply bind_Return_inv in H as (u & st3 & Hs & H).
  apply clearMemory_inv in Hs as (view & Hv & Hn & Hh' & Hm' & Ht').
  apply mret_inv in H as [-> ->].
  exists output. split; [exact Hi|]. split; [reflexivity|].
  simpl in *. rewrite Hm, lookup_insert_eq in Hv. inversion Hv; subst view; clear Hv.
  split; [congruence|]. split.
  - rewrite Hm', Hm, insert_insert_eq. reflexivity.
  - rewrite Ht', Ht. unfold setupCalls. rewrite <- app_assoc. reflexivity.
Qed.

Lemma inputLoop_inv spec rest : ∀ done v st v' st',
  inputs spec = done ++ rest →
  forLoop (length rest) (length done) (inputBody drv spec) v st = (Return v', st') →
  v' = {| inputAllocs := inputAllocs v ++ buffersAllocs drv (nextHandle st) rest;
          outputAllocs := outputAllocs v;
          inputBuffers := inputBuffers v ++ buffersHandles (nextHandle st) rest;
          outputBuffers := outputBuffers v;
          descriptorInfos := descriptorInfos v ++ buffersInfos (nextHandle st) rest |} ∧
  nextHandle st' = nextHandle st + 2 * length rest ∧
  hostMem st' = buffersMem drv Input (nextHandle st) rest (hostMem st) ∧
  trace st' = trace st ++ buffersCalls drv Input (nextHandle st) rest.
Proof.
  induction rest as [|b rest IH]; intros done v st v' st' Hsplit H; simpl in H.
  - apply mret_inv in H as [-> ->]. simpl. rewrite !app_nil_r.
    destruct v; simpl. repeat split; try reflexivity; lia.
  - apply bind_Return_inv in H as (v1 & st1 & Hb & H).
    apply inputBody_inv in Hb as (input & Hi & -> & Hh & Hm & Ht).
    rewrite Hsplit, list_lookup_middle in Hi by reflexivity.
    inversion Hi; subst input; clear Hi.
    replace (S (length done)) with (length (done ++ [b])) in H
      by (rewrite length_app; simpl; lia).
    apply IH in H as (-> & Hh' & Hm' & Ht'); [|rewrite <- app_assoc; exact Hsplit].
    simpl. rewrite Hh in *. rewrite <- !app_assoc. simpl.
    split; [reflexivity|]. split; [lia|]. split.
    + rewrite Hm', Hm. reflexivity.
    + rewrite Ht', Ht, <- app_assoc. reflexivity.
Qed.

Lemma outputLoop_inv spec rest : ∀ done v st v' st',
  outputs spec = done ++ rest →
  forLoop (length rest) (length done) (outputBody drv spec) v st = (Return v', st') →
  v' = {| inputAllocs := inputAllocs v;
          outputAllocs := outputAllocs v ++ buffersAllocs drv (nextHandle st) rest;
          inputBuffers := inputBuffers v;
          outputBuffers := outputBuffers v ++ buffersHandles (nextHandle st) rest;
          descriptorInfos := descriptorInfos v ++ buffersInfos (nextHandle st) rest |} ∧
  nextHandle st' = nextHandle st + 2 * length rest ∧
  hostMem st' = buffersMem drv Output (nextHandle st) rest (hostMem st) ∧
  trace st' = trace st ++ buffersCalls drv Output (nextHandle st) rest.
Proof.
  induction rest as [|b rest IH]; intros done v st v' st' Hsplit H; simpl in H.
  - apply mret_inv in H as [-> ->]. simpl. rewrite !app_nil_r.
    destruct v; simpl. repeat split; try reflexivity; lia.
  - apply bind_Return_inv in H as (v1 & st1 & Hb & H).
    apply outputBody_inv in Hb as (output & Hi & -> & Hh & Hm & Ht).
    rewrite Hsplit, list_lookup_middle in Hi by reflexivity.
    inversion Hi; subst output; clear Hi.
    replace (S (length done)) with (length (done ++ [b])) in H
      by (rewrite length_app; simpl; lia).
    apply IH in H as (-> & Hh' & Hm' & Ht'); [|rewrite <- app_assoc; exact Hsplit].
    simpl. rewrite Hh in *. rewrite <- !app_assoc. simpl.
    split; [reflexivity|]. split; [lia|]. split.
    + rewrite Hm', Hm. reflexivity.
    + rewrite Ht', Ht, <- app_assoc. reflexivity.
Qed.

Lemma inputBody_run spec ndx input v st :
  reliable drv → inputs spec !! ndx = Some input →
  ∃ v' st', inputBody drv spec ndx v st = (Return v', st').
Proof.
  intros Hok Hi. unfold inputBody.
  erewrite bind_Return_run by (apply index_run; exact Hi).
  destruct (createBufferAndBindMemory_run (getNumBytes input) st Hok) as [st1 Hc].
  erewrite bind_Return_run by exact Hc.
  apply createBufferAndBindMemory_inv in Hc as (_ & _ & _ & Hm & _).
  destruct (setMemory_run (allocationAt drv (nextHandle st) (getNumBytes input))
              (getNumBytes input) (data input) st1 (priorView drv (S (nextHandle st)) (getNumBytes input)))
    as [st2 Hs]; auto.
  - simpl. rewrite Hm, lookup_insert_eq. reflexivity.
  - rewrite length_priorView. lia.
  - erewrite bind_Return_run by exact Hs. eauto.
Qed.

Lemma outputBody_run spec ndx output v st :
  reliable drv → outputs spec !! ndx = Some output →
  ∃ v' st', outputBody drv spec ndx v st = (Return v', st').
Proof.
  intros Hok Hi. unfold outputBody.
  erewrite bind_Return_run by (apply index_run; exact Hi).
  destruct (createBufferAndBindMemory_run (getNumBytes output) st Hok) as [st1 Hc].
  erewrite bind_Return_run by exact Hc.
  apply createBufferAndBindMemory_inv in Hc as (_ & _ & _ & Hm & _).
  destruct (clearMemory_run (allocationAt drv (nextHandle st) (getNumBytes output))
              (getNumBytes output) st1 (priorView drv (S (nextHandle st)) (getNumBytes output)))
    as [st2 Hs]; auto.
  - simpl. rewrite Hm, lookup_insert_eq. reflexivity.
  - rewrite length_priorView. lia.
  - erewrite bind_Return_run by exact Hs. eauto.
Qed.

Lemma forLoop_run {L A} (xs : list A) (body : nat → L → M L) (rest : list A) :
  (∀ ndx x l st, xs !! ndx = Some x → ∃ l' st', body ndx l st = (Return l', st')) →
  ∀ done l st, xs = done ++ rest →
  ∃ l' st', forLoop (length rest) (length done) body l st = (Return l', st').
Proof.
  intros Hbody. induction rest as [|b rest IH]; intros done l st Hsplit; simpl.
  - eauto.
  - destruct (Hbody (length done) b l st) as (l1 & st1 & Hb).
    { rewrite Hsplit. apply list_lookup_middle. reflexivity. }
    erewrite bind_Return_run by exact Hb.
    replace (S (length done)) with (length (done ++ [b]))
      by (rewrite length_app; simpl; lia).
    apply IH. rewrite <- app_assoc. exact Hsplit.
Qed.

Lemma createBuffers_inv spec st v st' :
  createBuffers drv spec st = (Return v, st') →
  v = filledVectors drv spec (nextHandle st) ∧
  nextHandle st' = afterBuffers spec (nextHandle st) ∧
  hostMem st' = createBuffersMem drv spec (nextHandle st) (hostMem st) ∧
  trace st' = trace st ++ createBuffersCalls drv spec (nextHandle st).
Proof.
  unfold createBuffers. intros H.
  apply bind_Return_inv in H as (v1 & st1 & Hin & H).
  apply (inputLoop_inv spec (inputs spec) []) in Hin as (-> & Hh & Hm & Ht); [|reflexivity].
  apply (outputLoop_inv spec (outputs spec) []) in H as (-> & Hh' & Hm' & Ht'); [|reflexivity].
  simpl. unfold filledVectors, afterBuffers, createBuffersMem, createBuffersCalls.
  rewrite Hh in *. repeat split; try assumption.
  - rewrite Hm', Hm. reflexivity.
  - rewrite Ht', Ht, <- app_assoc. reflexivity.
Qed.

Lemma createBuffers_run spec st :
  reliable drv → ∃ v st', createBuffers drv spec st = (Return v, st').
Proof.
  intros Hok. unfold createBuffers.
  destruct (forLoop_run (inputs spec) (inputBody drv spec) (inputs spec)
              (fun ndx x l st0 Hx => inputBody_run spec ndx x l st0 Hok Hx) [] vectors0 st eq_refl)
    as (v1 & st1 & H1).
  simpl in H1. erewrite bind_Return_run by exact H1.
  apply (forLoop_run (outputs spec) (outputBody drv spec) (outputs spec)
           (fun ndx x l st0 Hx => outputBody_run spec ndx x l st0 Hok Hx) [] v1 st1 eq_refl).
Qed.

(** *** Layouts, descriptor set, pipeline and commands *)

Lemma DE_ASSERT_inv cond st u st' :
  DE_ASSERT DE_DEBUG cond st = (Return u, st') → (DE_DEBUG = true → cond = true) ∧ st' = st.
Proof.
  unfold DE_ASSERT. destruct DE_DEBUG, cond; simpl; intros H; inversion H; auto.
Qed.

Lemma bindingLoop_run n : ∀ ndx acc st,
  forLoop n ndx
    (fun _ builder =>
       mret (addSingleBinding VK_DESCRIPTOR_TYPE_STORAGE_BUFFER VK_SHADER_STAGE_COMPUTE builder))
    acc st = (Return (acc ++ replicate n storageBinding), st).
Proof.
  induction n as [|n IH]; intros ndx acc st; simpl.
  - rewrite app_nil_r. reflexivity.
  - erewrite bind_Return_run by reflexivity.
    rewrite IH. unfold addSingleBinding. rewrite <- app_assoc. reflexivity.
Qed.

Lemma createDescriptorSetLayout_inv n st h st' :
  createDescriptorSetLayout drv n st = (Return h, st') →
  h = nextHandle st ∧
  st' = logCall (CreateDescriptorSetLayout (replicate n storageBinding) h) (takeHandle st).
Proof.
  unfold createDescriptorSetLayout. intros H.
  erewrite bind_Return_run in H by apply bindingLoop_run.
  apply create_inv in H. exact H.
Qed.

Lemma forLoopUint32_unfold {L} bound fuel ndx (body : Z → L → M L) locals :
  forLoopUint32 bound fuel ndx body locals =
  if decide (ndx < Z.of_nat bound)%Z then
    match fuel with
    | 0 => diverge
    | S fuel' => locals' ← body ndx locals; forLoopUint32 bound fuel' (toUint32 (ndx + 1)) body locals'
    end
  else mret locals.
Proof. destruct fuel; reflexivity. Qed.

(** Below 2^32 views the counter does not wrap: the loop is left after one
    round for each view, whatever fuel there is beyond that. *)
Lemma forLoopUint32_left ds infos bound :
  (Z.of_nat bound < 2 ^ 32)%Z →
  ∀ n k fuel builder st,
    k + n = bound → n ≤ fuel →
    forLoopUint32 bound fuel (Z.of_nat k) (descriptorBody ds infos) builder st =
    (Return (builder ++ writesOf ds infos k n), st).
Proof.
  intros Hsmall. induction n as [|n IH]; intros k fuel builder st Hk Hfuel;
    rewrite forLoopUint32_unfold.
  - rewrite decide_False by lia. unfold writesOf. cbn. rewrite app_nil_r. reflexivity.
  - rewrite decide_True by lia.
    destruct fuel as [|fuel]; [lia|].
    unfold descriptorBody at 1.
    erewrite bind_Return_run by reflexivity.
    replace (toUint32 (Z.of_nat k + 1)) with (Z.of_nat (S k))
      by (unfold toUint32; rewrite Z.mod_small by lia; lia).
    rewrite IH by lia.
    unfold writeSingle, writesOf, pointerWrite. cbn [seq map].
    rewrite Nat2Z.id, <- app_assoc. reflexivity.
Qed.

(** From 2^32 views on the counter is below the bound whatever it wraps
    to: no fuel is enough. *)
Lemma forLoopUint32_never_left ds infos bound :
  (2 ^ 32 ≤ Z.of_nat bound)%Z →
  ∀ fuel ndx builder st,
    (0 ≤ ndx < 2 ^ 32)%Z →
    forLoopUint32 bound fuel ndx (descriptorBody ds infos) builder st = (Diverge, st).
Proof.
  intros Hbig. induction fuel as [|fuel IH]; intros ndx builder st Hndx;
    rewrite forLoopUint32_unfold; rewrite decide_True by lia; [reflexivity|].
  unfold descriptorBody at 1.
  erewrite bind_Return_run by reflexivity.
  apply IH. unfold toUint32. apply Z.mod_pos_bound. lia.
Qed.

Lemma writesOf_all ds rest : ∀ done,
  writesOf ds (done ++ rest) (length done) (length rest) = writesFrom ds (length done) rest.
Proof.
  unfold writesOf.
  induction rest as [|info rest IH]; intros done; [reflexivity|].
  cbn [length seq map writesFrom].
  rewrite list_lookup_middle by reflexivity. f_equal.
  specialize (IH (done ++ [info])).
  rewrite <- app_assoc, length_app in IH. cbn [app length] in IH.
  replace (length done + 1) with (S (length done)) in IH by lia.
  exact IH.
Qed.

Lemma writeLoop_run ds infos st :
  (Z.of_nat (length infos) < 2 ^ 32)%Z →
  forLoopUint32 (length infos) (length infos) 0 (descriptorBody ds infos) [] st =
  (Return (writesFrom ds 0 infos), st).
Proof.
  intros Hsmall.
  change 0%Z with (Z.of_nat 0).
  rewrite (forLoopUint32_left ds infos (length infos) Hsmall (length infos) 0 (length infos) [] st)
    by lia.
  cbn [app]. exact (f_equal (fun w => (Return w, st)) (writesOf_all ds infos [])).
Qed.

Lemma createDescriptorSet_inv pool layout infos st ds st' :
  createDescriptorSet drv pool layout (length infos) infos st = (Return ds, st') →
  (Z.of_nat (length infos) < 2 ^ 32)%Z ∧
  ds = nextHandle st ∧
  st' = logCall (UpdateDescriptorSets (writesFrom ds 0 infos))
          (logCall (AllocDescriptorSet pool VK_DESCRIPTOR_SET_USAGE_ONE_SHOT layout ds)
             (takeHandle st)).
Proof.
  unfold createDescriptorSet. intros H.
  apply bind_Return_inv in H as (d & st1 & Hd & H).
  apply create_inv in Hd as [-> ->].
  apply bind_Return_inv in H as (builder & st2 & Hl & H).
  destruct (decide (Z.of_nat (length infos) < 2 ^ 32)%Z) as [Hsmall|Hbig].
  2:{ rewrite (forLoopUint32_never_left _ infos (length infos)) in Hl by lia. discriminate. }
  rewrite (writeLoop_run _ infos _ Hsmall) in Hl.
  inversion Hl; subst; clear Hl.
  apply bind_Return_inv in H as (u & st3 & Hc & H).
  apply checked_inv in Hc as [_ ->].
  apply mret_inv in H as [-> ->].
  split; [lia|]. auto.
Qed.

Lemma createDescriptorSet_run pool layout infos st :
  reliable drv → (Z.of_nat (length infos) < 2 ^ 32)%Z →
  ∃ ds st', createDescriptorSet drv pool layout (length infos) infos st = (Return ds, st').
Proof.
  intros Hok Hsmall. unfold createDescriptorSet.
  erewrite bind_Return_run by (apply create_run; exact Hok).
  erewrite bind_Return_run by (apply writeLoop_run; exact Hsmall).
  erewrite bind_Return_run by (apply checked_run; apply Hok).
  eauto.
Qed.

Lemma unchecked_inv c st u st' :
  unchecked c st = (Return u, st') → st' = logCall c st.
Proof. unfold unchecked. intros H. inversion H. reflexivity. Qed.

Lemma recordCommands_inv ctx spec pl ds cp st pool cb st' :
  recordCommands drv ctx spec pl ds cp st = (Return (pool, cb), st') →
  pool = nextHandle st ∧ cb = S (nextHandle st) ∧
  nextHandle st' = S (S (nextHandle st)) ∧
  hostMem st' = hostMem st ∧
  trace st' = trace st ++
    [CreateCommandPool {| cpi_queueFamilyIndex := getUniversalQueueFamilyIndex ctx; cpi_flags := 0 |} pool;
     CreateCommandBuffer {| cbci_cmdPool := pool; cbci_level := VK_CMD_BUFFER_LEVEL_PRIMARY;
                            cbci_flags := 0 |} cb;
     BeginCommandBuffer cb
       {| cbbi_flags := VK_CMD_BUFFER_OPTIMIZE_ONE_TIME_SUBMIT_BIT; cbbi_renderPass := 0;
          cbbi_subpass := 0; cbbi_framebuffer := 0 |};
     CmdBindPipeline cb VK_PIPELINE_BIND_POINT_COMPUTE cp;
     CmdBindDescriptorSets cb VK_PIPELINE_BIND_POINT_COMPUTE pl 0 [ds] [];
     CmdDispatch cb (toUint32 (vx (numWorkGroups spec))) (toUint32 (vy (numWorkGroups spec)))
       (toUint32 (vz (numWorkGroups spec)));
     EndCommandBuffer cb].
Proof.
  unfold recordCommands, createCommandPool. intros H.
  apply bind_Return_inv in H as (p & st1 & Hp & H).
  apply create_inv in Hp as [-> ->].
  apply bind_Return_inv in H as (c & st2 & Hc & H).
  apply create_inv in Hc as [-> ->].
  apply bind_Return_inv in H as (u1 & st3 & H1 & H). apply checked_inv in H1 as [_ ->].
  apply bind_Return_inv in H as (u2 & st4 & H2 & H). apply unchecked_inv in H2 as ->.
  apply bind_Return_inv in H as (u3 & st5 & H3 & H). apply unchecked_inv in H3 as ->.
  apply bind_Return_inv in H as (u4 & st6 & H4 & H). apply unchecked_inv in H4 as ->.
  apply bind_Return_inv in H as (u5 & st7 & H5 & H). apply checked_inv in H5 as [_ ->].
  apply mret_inv in H as [H ->]. inversion H; subst; clear H.
  cbn [nextHandle hostMem trace logCall takeHandle].
  repeat split; try reflexivity.
  rewrite <- !app_assoc. reflexivity.
Qed.

Lemma recordCommands_run ctx spec pl ds cp st :
  reliable drv → ∃ r st', recordCommands drv ctx spec pl ds cp st = (Return r, st').
Proof.
  intros Hok. unfold recordCommands, createCommandPool.
  erewrite bind_Return_run by (apply create_run; exact Hok).
  erewrite bind_Return_run by (apply create_run; exact Hok).
  erewrite bind_Return_run by (apply checked_run; apply Hok).
  erewrite bind_Return_run by reflexivity.
  erewrite bind_Return_run by reflexivity.
  erewrite bind_Return_run by reflexivity.
  erewrite bind_Return_run by (apply checked_run; apply Hok).
  eauto.
Qed.

Lemma getBinary_inv ctx name st binary st' :
  getBinary ctx name st = (Return binary, st') → lookupBinary ctx name = Some binary ∧ st' = st.
Proof.
  unfold getBinary. destruct (lookupBinary ctx name); [|discriminate].
  intros H. apply mret_inv in H as [-> ->]. auto.
Qed.

Lemma length_buffersInfos h bs : length (buffersInfos h bs) = length bs.
Proof. revert h. induction bs; intros h; simpl; auto. Qed.

Lemma length_filledInfos spec h :
  length (descriptorInfos (filledVectors drv spec h)) = length (inputs spec) + length (outputs spec).
Proof. simpl. rewrite length_app, !length_buffersInfos. reflexivity. Qed.

Lemma prepare_inv self st l st' :
  prepare drv DE_DEBUG self st = (Return l, st') →
  ∃ binary,
    lookupBinary (m_context self) "compute" = Some binary ∧
    (DE_DEBUG = true → outputs (m_shaderSpec self) ≠ []) ∧
    (Z.of_nat (length (inputs (m_shaderSpec self)) + length (outputs (m_shaderSpec self))) < 2 ^ 32)%Z ∧
    l = preparedLocals drv (m_shaderSpec self) (nextHandle st) ∧
    nextHandle st' = 9 + afterBuffers (m_shaderSpec self) (nextHandle st) ∧
    hostMem st' = createBuffersMem drv (m_shaderSpec self) (nextHandle st) (hostMem st) ∧
    trace st' = trace st ++
      prepareCalls drv (m_context self) (m_shaderSpec self) (nextHandle st) binary.
Proof.
  unfold prepare. intros H.
  apply bind_Return_inv in H as (u & st0 & Ha & H).
  apply DE_ASSERT_inv in Ha as [Ha ->].
  apply bind_Return_inv in H as (v & st1 & Hb & H).
  apply createBuffers_inv in Hb as (-> & Hh & Hm & Ht).
  apply bind_Return_inv in H as (dsl & st2 & H1 & H).
  apply createDescriptorSetLayout_inv in H1 as [-> ->].
  apply bind_Return_inv in H as (pl & st3 & H2 & H).
  apply create_inv in H2 as [-> ->].
  apply bind_Return_inv in H as (dp & st4 & H3 & H).
  apply create_inv in H3 as [-> ->].
  apply bind_Return_inv in H as (ds & st5 & H4 & H).
  rewrite <- (length_filledInfos (m_shaderSpec self) (nextHandle st)) in H4.
  apply createDescriptorSet_inv in H4 as (Hsmall & -> & ->).
  rewrite length_filledInfos in Hsmall.
  apply bind_Return_inv in H as (binary & st6 & H5 & H).
  apply getBinary_inv in H5 as [Hbin ->].
  apply bind_Return_inv in H as (md & st7 & H6 & H).
  apply create_inv in H6 as [-> ->].
  apply bind_Return_inv in H as (sh & st8 & H7 & H).
  apply create_inv in H7 as [-> ->].
  apply bind_Return_inv in H as (cp & st9 & H8 & H).
  apply create_inv in H8 as [-> ->].
  apply bind_Return_inv in H as ([pool cb] & st10 & H9 & H).
  apply recordCommands_inv in H9 as (-> & -> & Hh' & Hm' & Ht').
  apply mret_inv in H as [-> ->].
  cbn [nextHandle hostMem trace logCall takeHandle setView] in *.
  exists binary. split; [exact Hbin|]. split.
  { intros Hd Hempty. specialize (Ha Hd). rewrite bool_decide_eq_true_2 in Ha by exact Hempty.
    discriminate. }
  split; [exact Hsmall|].
  rewrite Hh in *. repeat split.
  - rewrite Hh'. reflexivity.
  - rewrite Hm', Hm. reflexivity.
  - rewrite Ht', Ht. unfold prepareCalls, layoutCalls, pipelineCalls, commandCalls.
    rewrite length_filledInfos.
    cbn [Nat.add]. rewrite <- !app_assoc. reflexivity.
Qed.

Lemma prepare_run self st binary :
  reliable drv →
  (DE_DEBUG = true → outputs (m_shaderSpec self) ≠ []) →
  lookupBinary (m_context self) "compute" = Some binary →
  (Z.of_nat (length (inputs (m_shaderSpec self)) + length (outputs (m_shaderSpec self))) < 2 ^ 32)%Z →
  ∃ l st', prepare drv DE_DEBUG self st = (Return l, st').
Proof.
  intros Hok Hassert Hbin Hsmall. unfold prepare.
  erewrite bind_Return_run.
  2:{ unfold DE_ASSERT. destruct DE_DEBUG; simpl; [|reflexivity].
      rewrite bool_decide_eq_false_2 by auto. reflexivity. }
  destruct (createBuffers_run (m_shaderSpec self) st Hok) as (v & st1 & Hb).
  erewrite bind_Return_run by exact Hb.
  apply createBuffers_inv in Hb as (-> & _).
  unfold createDescriptorSetLayout.
  erewrite bind_Return_run
    by (erewrite bind_Return_run by apply bindingLoop_run; apply create_run; exact Hok).
  unfold createPipelineLayout, createDescriptorPool.
  erewrite bind_Return_run by (apply create_run; exact Hok).
  erewrite bind_Return_run by (apply create_run; exact Hok).
  rewrite <- (length_filledInfos (m_shaderSpec self) (nextHandle st)).
  edestruct createDescriptorSet_run as (ds & st5 & Hds); [exact Hok| |].
  { rewrite length_filledInfos. exact Hsmall. }
  erewrite bind_Return_run by exact Hds.
  erewrite bind_Return_run by (unfold getBinary; rewrite Hbin; reflexivity).
  erewrite bind_Return_run by (apply create_run; exact Hok).
  unfold createShader, createComputePipeline.
  erewrite bind_Return_run by (apply create_run; exact Hok).
  erewrite bind_Return_run by (apply create_run; exact Hok).
  edestruct recordCommands_run as ([pool cb] & st10 & Hrc); [exact Hok|].
  erewrite bind_Return_run by exact Hrc.
  eauto.
Qed.

(** *** Fence, submission and the checking loop *)

Lemma createFenceAndRun_inv ctx cb st fence st' :
  createFenceAndRun drv ctx cb st = (Return fence, st') →
  fence = nextHandle st ∧
  nextHandle st' = S (nextHandle st) ∧
  hostMem st' =
    applyStores
      (drv_execute drv
         (trace st ++
          [CreateFence {| fci_flags := 0 |} fence; QueueSubmit (getUniversalQueue ctx) [cb] fence])
         (hostMem st))
      (hostMem st) ∧
  trace st' = trace st ++ runCalls ctx cb fence ∧
  drv_result drv
    (trace st ++ [CreateFence {| fci_flags := 0 |} fence; QueueSubmit (getUniversalQueue ctx) [cb] fence])
    (WaitForFences (getDevice ctx) [fence] false infiniteTimeout) = VK_SUCCESS.
Proof.
  unfold createFenceAndRun, queueSubmit. intros H.
  apply bind_Return_inv in H as (f & st1 & Hf & H).
  apply create_inv in Hf as [-> ->].
  apply bind_Return_inv in H as (u & st2 & Hq & H).
  apply bind_Return_inv in Hq as (u' & st3 & Hq & Hm).
  apply checked_inv in Hq as [_ ->].
  unfold modify in Hm. inversion Hm; subst; clear Hm.
  apply bind_Return_inv in H as (u2 & st4 & Hw & H).
  apply checked_inv in Hw as [Hw ->].
  apply mret_inv in H as [-> ->].
  cbn [nextHandle hostMem trace logCall takeHandle] in *.
  unfold runCalls. rewrite <- !app_assoc in *. auto 10.
Qed.

Lemma createFenceAndRun_run ctx cb st :
  reliable drv → ∃ fence st', createFenceAndRun drv ctx cb st = (Return fence, st').
Proof.
  intros Hok. unfold createFenceAndRun, queueSubmit.
  erewrite bind_Return_run by (apply create_run; exact Hok).
  erewrite bind_Return_run
    by (erewrite bind_Return_run by (apply checked_run; apply Hok); reflexivity).
  erewrite bind_Return_run by (apply checked_run; apply Hok).
  eauto.
Qed.

Lemma firstMismatch_logCall c st es allocs :
  firstMismatch (logCall c st) es allocs = firstMismatch st es allocs.
Proof.
  revert allocs. induction es as [|e es IH]; intros [|a allocs]; simpl; try reflexivity.
  rewrite IH. destruct (decide (outputMatches st e a)) as [Hm|Hm];
    [rewrite decide_True by exact Hm | rewrite decide_False by exact Hm]; reflexivity.
Qed.

Lemma checkOutputs_inv spec allocs rest : ∀ done adone arest st status st',
  outputs spec = done ++ rest → allocs = adone ++ arest → length adone = length done →
  checkOutputs spec allocs (length rest) (length done) st = (Return status, st') →
  status = verdictOf (firstMismatch st rest arest) ∧
  nextHandle st' = nextHandle st ∧
  hostMem st' = hostMem st ∧
  trace st' = trace st ++ compareCalls st rest arest.
Proof.
  induction rest as [|e rest IH]; intros done adone arest st status st' Ho Ha Hlen H; simpl in H.
  - apply mret_inv in H as [-> ->]. unfold compareCalls. simpl.
    rewrite app_nil_r. repeat split; auto.
  - apply bind_Return_inv in H as (e' & st1 & He & H).
    apply index_inv in He as [He ->].
    rewrite Ho, list_lookup_middle in He by reflexivity. inversion He; subst e'; clear He.
    apply bind_Return_inv in H as (a & st1 & Hal & H).
    apply index_inv in Hal as [Hal ->].
    rewrite Ha, lookup_app_r, <- Hlen, Nat.sub_diag in Hal by lia.
    destruct arest as [|a' arest]; [discriminate|]. simpl in Hal.
    inversion Hal; subst a'; clear Hal.
    apply bind_Return_inv in H as (r & st1 & Hc & H).
    apply deMemCmp_inv in Hc as (view & Hv & Hn & _ & -> & ->).
    assert (memCmp (take (getNumBytes e) (data e)) (take (getNumBytes e) view) = 0%Z
            ↔ outputMatches st e a) as Hiff.
    { rewrite memCmp_zero_iff
        by (rewrite !length_take; unfold getNumBytes in *; lia).
      unfold outputMatches, viewOf. rewrite Hv. simpl.
      unfold getNumBytes. rewrite firstn_all. split; intros E; congruence. }
    unfold compareCalls. simpl.
    case_decide as Hr.
    + apply mret_inv in H as [-> ->].
      rewrite decide_False by tauto. simpl.
      repeat split; auto.
    + assert (outputMatches st e a) as Hm by (apply Hiff; lia).
      rewrite decide_True by exact Hm.
      replace (S (length done)) with (length (done ++ [e])) in H
        by (rewrite length_app; simpl; lia).
      apply (IH (done ++ [e]) (adone ++ [a]) arest) in H as (-> & Hh & Hmem & Ht).
      * rewrite firstMismatch_logCall in *.
        unfold compareCalls in Ht. rewrite firstMismatch_logCall in Ht.
        destruct (firstMismatch st rest arest) as [k|]; simpl in *;
          (split; [reflexivity|]; split; [exact Hh|]; split; [exact Hmem|]);
          rewrite Ht, <- app_assoc; reflexivity.
      * rewrite <- app_assoc. exact Ho.
      * rewrite <- app_assoc. exact Ha.
      * rewrite !length_app. simpl. lia.
Qed.

Lemma checkOutputs_run spec allocs rest : ∀ done adone arest st,
  outputs spec = done ++ rest → allocs = adone ++ arest → length adone = length done →
  Forall2 (fun e a => ∃ view, hostMem st !! getHostPtr a = Some view ∧ getNumBytes e ≤ length view)
    rest arest →
  ∃ status st', checkOutputs spec allocs (length rest) (length done) st = (Return status, st').
Proof.
  induction rest as [|e rest IH]; intros done adone arest st Ho Ha Hlen Hall; simpl.
  - eauto.
  - inversion Hall as [|e' a rest' arest' (view & Hv & Hn) Hall' E1 E2]; subst.
    erewrite bind_Return_run
      by (apply index_run; rewrite Ho; apply list_lookup_middle; reflexivity).
    erewrite bind_Return_run.
    2:{ apply index_run. rewrite lookup_app_r, <- Hlen, Nat.sub_diag by lia. reflexivity. }
    erewrite bind_Return_run.
    2:{ unfold deMemCmp. rewrite Hv. rewrite decide_True by (unfold getNumBytes in *; lia).
        reflexivity. }
    case_decide as Hr; [eauto|].
    replace (S (length done)) with (length (done ++ [e]))
      by (rewrite length_app; simpl; lia).
    apply (IH (done ++ [e]) (adone ++ [a]) arest').
    + rewrite <- app_assoc. exact Ho.
    + rewrite <- app_assoc. reflexivity.
    + rewrite !length_app. simpl. lia.
    + exact Hall'.
Qed.

(** *** The mappings of the buffers *)

Lemma buffersMem_below role bs : ∀ h mem p,
  p ≤ h → buffersMem drv role h bs mem !! p = mem !! p.
Proof.
  induction bs as [|b bs IH]; intros h mem p Hp; simpl; [reflexivity|].
  rewrite IH by lia. apply lookup_insert_ne. lia.
Qed.

Lemma buffersMem_lookup role bs : ∀ h mem i b,
  bs !! i = Some b →
  buffersMem drv role h bs mem !! S (h + 2 * i) = Some (setupView drv role (h + 2 * i) b).
Proof.
  induction bs as [|b0 bs IH]; intros h mem i b Hi; [discriminate|].
  destruct i as [|i]; simpl in *.
  - inversion Hi; subst. rewrite buffersMem_below by lia.
    rewrite Nat.add_0_r. apply lookup_insert_eq.
  - replace (h + S (i + S (i + 0))) with (S (S h) + 2 * i) by lia.
    apply IH. exact Hi.
Qed.

Lemma buffersAllocs_lookup bs : ∀ h i,
  buffersAllocs drv h bs !! i =
  (fun b => allocationAt drv (h + 2 * i) (getNumBytes b)) <$> bs !! i.
Proof.
  induction bs as [|b bs IH]; intros h i; [reflexivity|].
  destruct i as [|i]; simpl.
  - rewrite Nat.add_0_r. reflexivity.
  - rewrite IH. replace (h + S (i + S (i + 0))) with (S (S h) + 2 * i) by lia. reflexivity.
Qed.

Lemma buffersHandles_lookup bs : ∀ h i,
  buffersHandles h bs !! i = (fun _ => h + 2 * i) <$> bs !! i.
Proof.
  induction bs as [|b bs IH]; intros h i; [reflexivity|].
  destruct i as [|i]; simpl.
  - rewrite Nat.add_0_r. reflexivity.
  - rewrite IH. replace (h + S (i + S (i + 0))) with (S (S h) + 2 * i) by lia. reflexivity.
Qed.

Lemma buffersInfos_lookup bs : ∀ h i,
  buffersInfos h bs !! i =
  (fun b => createDescriptorInfo (h + 2 * i) 0 (getNumBytes b)) <$> bs !! i.
Proof.
  induction bs as [|b bs IH]; intros h i; [reflexivity|].
  destruct i as [|i]; simpl.
  - rewrite Nat.add_0_r. reflexivity.
  - rewrite IH. replace (h + S (i + S (i + 0))) with (S (S h) + 2 * i) by lia. reflexivity.
Qed.

Lemma length_buffersAllocs h bs : length (buffersAllocs drv h bs) = length bs.
Proof. revert h. induction bs; intros h; simpl; auto. Qed.

Lemma length_buffersHandles h bs : length (buffersHandles h bs) = length bs.
Proof. revert h. induction bs; intros h; simpl; auto. Qed.

Lemma take_inserts_0 (k l : list byte) :
  length k ≤ length l → take (length k) (list_inserts 0 k l) = k.
Proof.
  intros Hlen. rewrite <- (take_drop (length k) l) at 1.
  rewrite list_inserts_0_r by (rewrite length_take; lia).
  rewrite take_app_length. reflexivity.
Qed.

Lemma length_setupView role h b :
  length (setupView drv role h b) = getNumBytes b + drv_padding drv (getNumBytes b).
Proof. unfold setupView. rewrite length_inserts. apply length_priorView. Qed.

Lemma take_setupView_Input h b :
  take (getNumBytes b) (setupView drv Input h b) = data b.
Proof.
  unfold setupView, getNumBytes. rewrite firstn_all.
  apply take_inserts_0. rewrite length_priorView. unfold getNumBytes. lia.
Qed.

Lemma take_setupView_Output h b :
  take (getNumBytes b) (setupView drv Output h b) = replicate (getNumBytes b) x00.
Proof.
  unfold setupView.
  rewrite <- (length_replicate (getNumBytes b) x00) at 1.
  apply take_inserts_0. rewrite length_replicate, length_priorView. lia.
Qed.

(** The mapping of the [i]-th input and of the [i]-th output once both
    loops are done. *)
Lemma createBuffersMem_input spec h mem i b :
  inputs spec !! i = Some b →
  createBuffersMem drv spec h mem !! S (h + 2 * i) = Some (setupView drv Input (h + 2 * i) b).
Proof.
  intros Hi. unfold createBuffersMem.
  rewrite buffersMem_below by (apply lookup_lt_Some in Hi; lia).
  apply buffersMem_lookup. exact Hi.
Qed.

Lemma createBuffersMem_output spec h mem i b :
  outputs spec !! i = Some b →
  createBuffersMem drv spec h mem !! S (h + 2 * length (inputs spec) + 2 * i) =
  Some (setupView drv Output (h + 2 * length (inputs spec) + 2 * i) b).
Proof. intros Hi. unfold createBuffersMem. apply buffersMem_lookup. exact Hi. Qed.

(** The stores of the device leave the mappings where they are and as long
    as they were. *)
Lemma applyStores_length stores : ∀ mem p,
  length <$> applyStores stores mem !! p = length <$> mem !! p.
Proof.
  unfold applyStores. induction stores as [|[[q off] b] stores IH]; intros mem p; simpl.
  - reflexivity.
  - rewrite IH. destruct (decide (q = p)) as [->|Hne].
    + rewrite lookup_alter_eq. destruct (mem !! p); simpl; [|reflexivity].
      rewrite length_insert. reflexivity.
    + rewrite lookup_alter_ne by exact Hne. reflexivity.
Qed.

End DeviceFacts.

(** ** The whole of [iterate] *)

Lemma newCalls_app st st' calls :
  trace st' = trace st ++ calls → newCalls st st' = calls.
Proof. unfold newCalls. intros ->. apply drop_app_length. Qed.

Lemma outputMatches_ext st1 st2 e a :
  hostMem st1 = hostMem st2 → outputMatches st1 e a ↔ outputMatches st2 e a.
Proof. unfold outputMatches, viewOf. intros ->. reflexivity. Qed.

Lemma firstMismatch_ext st1 st2 es allocs :
  hostMem st1 = hostMem st2 → firstMismatch st1 es allocs = firstMismatch st2 es allocs.
Proof.
  intros Hmem. revert allocs.
  induction es as [|e es IH]; intros [|a allocs]; simpl; try reflexivity.
  rewrite IH.
  destruct (decide (outputMatches st1 e a)) as [H1|H1],
           (decide (outputMatches st2 e a)) as [H2|H2]; try reflexivity;
    exfalso; apply (outputMatches_ext st1 st2 e a Hmem) in H1 || apply H1;
    try contradiction; apply (outputMatches_ext st1 st2 e a Hmem); assumption.
Qed.

Lemma firstMismatch_None st es : ∀ allocs,
  length es = length allocs →
  (firstMismatch st es allocs = None ↔ Forall2 (outputMatches st) es allocs).
Proof.
  induction es as [|e es IH]; intros [|a allocs] Hlen; simpl in *; try discriminate.
  - split; constructor.
  - destruct (decide (outputMatches st e a)) as [Hm|Hm].
    + rewrite fmap_None, IH by lia. split.
      * intros H. constructor; assumption.
      * intros H. inversion H; assumption.
    + split; [discriminate|]. intros H. inversion H; contradiction.
Qed.

(** [firstMismatch] is the least position at which an output differs. *)
Lemma firstMismatch_Some st es : ∀ allocs k e a,
  es !! k = Some e → allocs !! k = Some a → ¬ outputMatches st e a →
  (∀ j e' a', j < k → es !! j = Some e' → allocs !! j = Some a' → outputMatches st e' a') →
  firstMismatch st es allocs = Some k.
Proof.
  induction es as [|e0 es IH]; intros [|a0 allocs] k e a He Ha Hm Hbefore; try discriminate.
  simpl. destruct k as [|k]; simpl in *.
  - inversion He; inversion Ha; subst. rewrite decide_False by exact Hm. reflexivity.
  - rewrite decide_True by (apply (Hbefore 0 e0 a0); [lia|reflexivity|reflexivity]).
    rewrite (IH allocs k e a He Ha Hm); [reflexivity|].
    intros j e' a' Hj He' Ha'. apply (Hbefore (S j) e' a'); [lia|exact He'|exact Ha'].
Qed.

Section IterateFacts.

Variable drv : Driver.
Variable DE_DEBUG : bool.

Lemma omap_buffersCalls {A} (f : Call → option A) role bs : ∀ h,
  (∀ h b, omap f (setupCalls drv role h b) = []) →
  omap f (buffersCalls drv role h bs) = [].
Proof.
  induction bs as [|b bs IH]; intros h Hf; cbn [buffersCalls]; [reflexivity|].
  rewrite omap_app, Hf, IH by exact Hf. reflexivity.
Qed.

Lemma omap_createBuffersCalls {A} (f : Call → option A) spec h :
  (∀ role h b, omap f (setupCalls drv role h b) = []) →
  omap f (createBuffersCalls drv spec h) = [].
Proof.
  intros Hf. unfold createBuffersCalls.
  rewrite omap_app, !omap_buffersCalls by (intros; apply Hf). reflexivity.
Qed.

Lemma iterate_inv self st status st' :
  iterate drv DE_DEBUG self st = (Return status, st') →
  ∃ l, iterateLocals drv DE_DEBUG self st = (Return (status, l), st').
Proof.
  unfold iterate. intros H.
  apply bind_Return_inv in H as ([status' l] & st1 & Hi & H).
  apply mret_inv in H as [-> ->]. exists l. exact Hi.
Qed.

Lemma iterate_run self st status l st' :
  iterateLocals drv DE_DEBUG self st = (Return (status, l), st') →
  iterate drv DE_DEBUG self st = (Return status, st').
Proof. unfold iterate. intros H. erewrite bind_Return_run by exact H. reflexivity. Qed.

Lemma iterateLocals_inv self st status l st' :
  iterateLocals drv DE_DEBUG self st = (Return (status, l), st') →
  ∃ st_d st_r fence,
    prepare drv DE_DEBUG self st = (Return l, st_d) ∧
    createFenceAndRun drv (m_context self) (cmdBuffer l) st_d = (Return fence, st_r) ∧
    checkOutputs (m_shaderSpec self) (outputAllocs (vectors l))
      (length (outputs (m_shaderSpec self))) 0 st_r = (Return status, st').
Proof.
  unfold iterateLocals, runAndCheck. intros H.
  apply bind_Return_inv in H as (l' & st_d & Hp & H).
  apply bind_Return_inv in H as (status' & st1 & Hr & H).
  apply mret_inv in H as [H ->]. inversion H; subst; clear H.
  apply bind_Return_inv in Hr as (fence & st_r & Hf & Hc).
  eauto 10.
Qed.

(** Every call of a run that returns, in order. *)
Lemma iterateLocals_calls self st status l st' :
  iterateLocals drv DE_DEBUG self st = (Return (status, l), st') →
  ∃ binary,
    lookupBinary (m_context self) "compute" = Some binary ∧
    l = preparedLocals drv (m_shaderSpec self) (nextHandle st) ∧
    status = verdictOf (firstMismatch st' (outputs (m_shaderSpec self)) (outputAllocs (vectors l))) ∧
    newCalls st st' =
      prepareCalls drv (m_context self) (m_shaderSpec self) (nextHandle st) binary ++
      runCalls (m_context self) (cmdBuffer l) (9 + afterBuffers (m_shaderSpec self) (nextHandle st)) ++
      compareCalls st' (outputs (m_shaderSpec self)) (outputAllocs (vectors l)).
Proof.
  intros H. apply iterateLocals_inv in H as (st_d & st_r & fence & Hp & Hf & Hc).
  apply prepare_inv in Hp as (binary & Hbin & _ & _ & Hl & Hh & _ & Ht).
  apply createFenceAndRun_inv in Hf as (-> & _ & _ & Ht' & _).
  apply (checkOutputs_inv (m_shaderSpec self) _ _ [] [] (outputAllocs (vectors l)))
    in Hc as (-> & _ & Hm & Ht''); [|reflexivity|reflexivity|reflexivity].
  exists binary. split; [exact Hbin|]. split; [exact Hl|].
  rewrite (firstMismatch_ext st' st_r) by exact Hm. split; [reflexivity|].
  apply newCalls_app. rewrite Ht'', Ht', Ht, Hh, <- !app_assoc.
  unfold compareCalls. rewrite (firstMismatch_ext st' st_r) by exact Hm. reflexivity.
Qed.

Lemma length_outputAllocs spec h :
  length (outputAllocs (filledVectors drv spec h)) = length (outputs spec).
Proof. simpl. apply length_buffersAllocs. Qed.

(** Once the buffers are set up each output has its mapping, long enough. *)
Lemma outputs_mapped spec h mem :
  Forall2
    (fun e a => ∃ view, createBuffersMem drv spec h mem !! getHostPtr a = Some view ∧
                        getNumBytes e ≤ length view)
    (outputs spec) (outputAllocs (filledVectors drv spec h)).
Proof.
  apply Forall2_same_length_lookup_2; [symmetry; apply length_outputAllocs|].
  intros i e a He Ha. cbn [outputAllocs filledVectors] in Ha.
  rewrite buffersAllocs_lookup, He in Ha.
  inversion Ha; subst a; clear Ha. cbn [getHostPtr allocationAt].
  eexists. split; [exact (createBuffersMem_output drv spec h mem i e He)|].
  rewrite length_setupView. lia.
Qed.

(** On a driver that reports no failure [iterate] returns a status. *)
Lemma iterateLocals_run self st binary :
  reliable drv →
  (DE_DEBUG = true → outputs (m_shaderSpec self) ≠ []) →
  lookupBinary (m_context self) "compute" = Some binary →
  (Z.of_nat (length (inputs (m_shaderSpec self)) + length (outputs (m_shaderSpec self))) < 2 ^ 32)%Z →
  ∃ status l st', iterateLocals drv DE_DEBUG self st = (Return (status, l), st').
Proof.
  intros Hok Hassert Hbin Hsmall.
  destruct (prepare_run drv DE_DEBUG self st binary Hok Hassert Hbin Hsmall) as (l & st_d & Hp).
  destruct (createFenceAndRun_run drv (m_context self) (cmdBuffer l) st_d Hok)
    as (fence & st_r & Hf).
  unfold iterateLocals, runAndCheck.
  erewrite bind_Return_run by exact Hp.
  pose proof Hp as Hp'.
  apply prepare_inv in Hp' as (_ & _ & _ & _ & -> & _ & Hm & _).
  pose proof Hf as Hf'.
  apply createFenceAndRun_inv in Hf' as (_ & _ & Hm' & _).
  edestruct (checkOutputs_run (m_shaderSpec self)
               (outputAllocs (filledVectors drv (m_shaderSpec self) (nextHandle st)))
               (outputs (m_shaderSpec self)) [] []
               (outputAllocs (filledVectors drv (m_shaderSpec self) (nextHandle st))) st_r)
    as (status & st' & Hc); try reflexivity.
  { eapply Forall2_impl; [apply (outputs_mapped (m_shaderSpec self) (nextHandle st) (hostMem st))|].
    intros e a (view & Hv & Hn).
    pose proof (applyStores_length
      (drv_execute drv
         (trace st_d ++
          [CreateFence {| fci_flags := 0 |} fence;
           QueueSubmit (getUniversalQueue (m_context self))
             [cmdBuffer (preparedLocals drv (m_shaderSpec self) (nextHandle st))] fence])
         (hostMem st_d)) (hostMem st_d) (getHostPtr a)) as Hlen.
    rewrite <- Hm' in Hlen.
    rewrite Hm, Hv in Hlen.
    destruct (hostMem st_r !! getHostPtr a) as [view'|]; [|discriminate].
    simpl in Hlen. inversion Hlen as [Hlen']. exists view'. split; [reflexivity|]. lia. }
  erewrite bind_Return_run.
  2:{ erewrite bind_Return_run by exact Hf. exact Hc. }
  eauto.
Qed.

End IterateFacts.

(** ** The buffers and their descriptors *)

Lemma buffersHandles_app xs ys : ∀ h,
  buffersHandles h (xs ++ ys) = buffersHandles h xs ++ buffersHandles (h + 2 * length xs) ys.
Proof.
  induction xs as [|x xs IH]; intros h; simpl.
  - rewrite Nat.add_0_r. reflexivity.
  - rewrite IH. do 3 f_equal. lia.
Qed.

Lemma buffersInfos_app xs ys : ∀ h,
  buffersInfos h (xs ++ ys) = buffersInfos h xs ++ buffersInfos (h + 2 * length xs) ys.
Proof.
  induction xs as [|x xs IH]; intros h; simpl.
  - rewrite Nat.add_0_r. reflexivity.
  - rewrite IH. do 3 f_equal. lia.
Qed.

Lemma buffersHandles_ge bs : ∀ h x, x ∈ buffersHandles h bs → h ≤ x.
Proof.
  induction bs as [|b bs IH]; intros h x Hx; simpl in Hx.
  - inversion Hx.
  - apply elem_of_cons in Hx as [->|Hx]; [lia|]. apply IH in Hx. lia.
Qed.

Lemma buffersHandles_NoDup bs : ∀ h, NoDup (buffersHandles h bs).
Proof.
  induction bs as [|b bs IH]; intros h; simpl; constructor.
  - intros Hin. apply buffersHandles_ge in Hin. lia.
  - apply IH.
Qed.

Lemma writesFrom_lookup ds infos : ∀ k i,
  writesFrom ds k infos !! i = storageWrite ds (k + i) <$> infos !! i.
Proof.
  induction infos as [|info infos IH]; intros k i; [reflexivity|].
  destruct i as [|i]; simpl.
  - rewrite Nat.add_0_r. reflexivity.
  - rewrite IH. replace (S k + i) with (k + S i) by lia. reflexivity.
Qed.

Lemma length_writesFrom ds infos : ∀ k, length (writesFrom ds k infos) = length infos.
Proof. induction infos; intros k; simpl; auto. Qed.

Lemma createdBuffer_buffersCalls drv role bs : ∀ h,
  omap createdBuffer (buffersCalls drv role h bs) =
  zip (map (fun b => storageBufferInfo (getNumBytes b)) bs) (buffersHandles h bs).
Proof.
  induction bs as [|b bs IH]; intros h; cbn [buffersCalls]; [reflexivity|].
  rewrite omap_app, IH. destruct role; reflexivity.
Qed.

(** Where the calls that set up the [i]-th buffer of a loop sit among the
    calls of the loop. *)
Lemma buffersCalls_lookup drv role bs : ∀ h i b,
  bs !! i = Some b →
  ∃ pre post, buffersCalls drv role h bs = pre ++ setupCalls drv role (h + 2 * i) b ++ post.
Proof.
  induction bs as [|b0 bs IH]; intros h i b Hi; [discriminate|].
  destruct i as [|i]; cbn [buffersCalls].
  - inversion Hi; subst. exists [], (buffersCalls drv role (S (S h)) bs).
    rewrite Nat.mul_0_r, Nat.add_0_r. reflexivity.
  - destruct (IH (S (S h)) i b Hi) as (pre & post & E).
    exists (setupCalls drv role h b0 ++ pre), post.
    rewrite E, <- app_assoc. replace (h + 2 * S i) with (S (S h) + 2 * i) by lia. reflexivity.
Qed.

Lemma toUint32_nonNegativeInt x : nonNegativeInt x → toUint32 x = x.
Proof. unfold nonNegativeInt, toUint32. intros H. apply Z.mod_small. lia. Qed.

Lemma infiniteTimeout_value : infiniteTimeout = (2 ^ 64 - 1)%Z.
Proof. reflexivity. Qed.

(** * The claims *)

(** ** Writing and zeroing a mapping *)

Lemma unchangedBeyond_same p n st st' :
  hostMem st' = hostMem st → unchangedBeyond p n st st'.
Proof. intros H q i _. unfold viewOf. rewrite H. reflexivity. Qed.

Lemma unchangedBeyond_inserts p n st st' view k :
  hostMem st !! p = Some view →
  hostMem st' = <[p := list_inserts 0 k view]> (hostMem st) →
  length k ≤ n →
  unchangedBeyond p n st st'.
Proof.
  intros Hv Hm Hk q i Hqi. unfold viewOf. rewrite Hm.
  destruct (decide (q = p)) as [->|Hne].
  - rewrite lookup_insert_eq, Hv. simpl. destruct Hqi as [Hq|Hi]; [contradiction|].
    apply list_lookup_inserts_ge. lia.
  - rewrite lookup_insert_ne by auto. reflexivity.
Qed.

(** C10: setMemory and clearMemory change nothing but the first numBytes
    bytes of the mapping they are given: whatever the buffer, the payload and
    numBytes, and however the call ends, every byte of that mapping at an
    offset at or beyond numBytes, and every byte of any other mapping, is the
    byte that was there before. *)
Theorem setMemory_clearMemory_frame (drv : Driver) (alloc : Allocation) (numBytes : nat)
    (payload : list byte) (st : DeviceState) :
  unchangedBeyond (getHostPtr alloc) numBytes st (setMemory drv alloc numBytes payload st).2 ∧
  unchangedBeyond (getHostPtr alloc) numBytes st (clearMemory drv alloc numBytes st).2.
Proof.
  split.
  - unfold setMemory, flushMappedMemoryRange, mbind, M_bind, deMemcpy.
    destruct (hostMem st !! getHostPtr alloc) as [view|] eqn:Hv;
      [|apply unchangedBeyond_same; reflexivity].
    case_decide as Hn; [|apply unchangedBeyond_same; reflexivity].
    unfold checked. cbn [trace logCall setView].
    match goal with |- context [drv_result drv ?t ?c] => destruct (drv_result drv t c) end;
      (eapply unchangedBeyond_inserts; [exact Hv|reflexivity|rewrite length_take; lia]).
  - unfold clearMemory, flushMappedMemoryRange, mbind, M_bind, deMemset.
    destruct (hostMem st !! getHostPtr alloc) as [view|] eqn:Hv;
      [|apply unchangedBeyond_same; reflexivity].
    case_decide as Hn; [|apply unchangedBeyond_same; reflexivity].
    unfold checked. cbn [trace logCall setView].
    match goal with |- context [drv_result drv ?t ?c] => destruct (drv_result drv t c) end;
      (eapply unchangedBeyond_inserts; [exact Hv|reflexivity|rewrite length_replicate; lia]).
Qed.

(** C5: whatever bytes B are written with setMemory into a mapping that is
    at least as long as B, the first length-of-B bytes of the mapping read
    back afterwards are exactly B; the write itself returns whenever the
    driver accepts the flush. *)
Theorem setMemory_roundtrip (drv : Driver) (alloc : Allocation) (B : list byte)
    (st : DeviceState) (view : list byte) :
  hostMem st !! getHostPtr alloc = Some view →
  length B ≤ length view →
  take (length B) (viewOf (setMemory drv alloc (length B) B st).2 (getHostPtr alloc)) = B ∧
  (reliable drv → (setMemory drv alloc (length B) B st).1 = Return tt).
Proof.
  intros Hv Hlen.
  assert (∀ (o : Outcome unit) st',
            hostMem st' =
              <[getHostPtr alloc := list_inserts 0 (take (length B) B) view]> (hostMem st) →
            take (length B) (viewOf (o, st').2 (getHostPtr alloc)) = B) as Hread.
  { intros o st' Hm. unfold viewOf. simpl. rewrite Hm, lookup_insert_eq. simpl.
    rewrite firstn_all. apply take_inserts_0. exact Hlen. }
  unfold setMemory, flushMappedMemoryRange, mbind, M_bind, deMemcpy.
  rewrite Hv. rewrite decide_True by lia.
  unfold checked. cbn [trace logCall setView]. split.
  - match goal with |- context [drv_result drv ?t ?c] => destruct (drv_result drv t c) end;
      apply Hread; reflexivity.
  - intros Hok. rewrite Hok. reflexivity.
Qed.

(** C6 (as the code has it): createBufferAndBindMemory creates a storage
    buffer whose size is exactly the requested numBytes, asks the driver for
    its memory requirements, allocates them from the host-visible class, and
    binds the buffer to the memory of the allocation at the offset of the
    allocation (getOffset), wherever the allocator placed it; the mapping of
    the allocation covers the buffer. It makes these four calls and no other,
    and returns whenever the driver reports no failure. *)
Theorem createBufferAndBindMemory_binds_at_allocation_offset (drv : Driver) (numBytes : nat)
    (st : DeviceState) :
  (reliable drv →
   ∃ buffer alloc st', createBufferAndBindMemory drv numBytes st = (Return (buffer, alloc), st')) ∧
  (∀ buffer alloc st',
     createBufferAndBindMemory drv numBytes st = (Return (buffer, alloc), st') →
     ∃ requirements,
       newCalls st st' =
         [CreateBuffer (storageBufferInfo numBytes) buffer;
          GetBufferMemoryRequirements buffer requirements;
          Allocate requirements MR_HostVisible alloc;
          BindBufferMemory buffer (getMemory alloc) (getOffset alloc)] ∧
       bci_size (storageBufferInfo numBytes) = numBytes ∧
       numBytes ≤ req_size requirements ∧
       length (viewOf st' (getHostPtr alloc)) = req_size requirements).
Proof.
  split.
  - intros Hok. destruct (createBufferAndBindMemory_run drv numBytes st Hok) as [st' H]. eauto.
  - intros buffer alloc st' H.
    apply createBufferAndBindMemory_inv in H as (-> & -> & _ & Hm & Ht).
    exists (requirementsFor drv numBytes). split; [apply newCalls_app; exact Ht|].
    split; [reflexivity|]. split; [simpl; lia|].
    unfold viewOf. rewrite Hm. cbn [getHostPtr allocationAt]. rewrite lookup_insert_eq. simpl.
    rewrite length_priorView. reflexivity.
Qed.

(** ** The state in which the work is submitted *)

Lemma viewOf_lookup st p view : hostMem st !! p = Some view → viewOf st p = view.
Proof. unfold viewOf. intros ->. reflexivity. Qed.

Lemma no_setup_submit drv role h b : omap submitOf (setupCalls drv role h b) = [].
Proof. destruct role; reflexivity. Qed.

Lemma no_setup_command drv role h b : omap commandOf (setupCalls drv role h b) = [].
Proof. destruct role; reflexivity. Qed.

Lemma no_setup_wait drv role h b : omap waitOf (setupCalls drv role h b) = [].
Proof. destruct role; reflexivity. Qed.

Lemma no_setup_comparison drv role h b : omap comparisonOf (setupCalls drv role h b) = [].
Proof. destruct role; reflexivity. Qed.

Lemma no_setup_layout drv role h b : omap createdLayout (setupCalls drv role h b) = [].
Proof. destruct role; reflexivity. Qed.

Lemma no_setup_update drv role h b : omap updatesOf (setupCalls drv role h b) = [].
Proof. destruct role; reflexivity. Qed.

Lemma no_compare_submit st es allocs : omap submitOf (compareCalls st es allocs) = [].
Proof.
  unfold compareCalls.
  assert (∀ l, omap submitOf (map compareCall l) = []) as H
    by (induction l; simpl; auto).
  destruct (firstMismatch st es allocs); apply H.
Qed.

Lemma no_compare_command st es allocs : omap commandOf (compareCalls st es allocs) = [].
Proof.
  unfold compareCalls.
  assert (∀ l, omap commandOf (map compareCall l) = []) as H
    by (induction l; simpl; auto).
  destruct (firstMismatch st es allocs); apply H.
Qed.

Lemma no_compare_wait st es allocs : omap waitOf (compareCalls st es allocs) = [].
Proof.
  unfold compareCalls.
  assert (∀ l, omap waitOf (map compareCall l) = []) as H
    by (induction l; simpl; auto).
  destruct (firstMismatch st es allocs); apply H.
Qed.

Lemma comparisons_compare st es allocs :
  omap comparisonOf (compareCalls st es allocs) = compareCalls st es allocs.
Proof.
  unfold compareCalls.
  assert (∀ l, omap comparisonOf (map compareCall l) = map compareCall l) as H
    by (induction l as [|x l IH]; [reflexivity|]; cbn; f_equal; exact IH).
  destruct (firstMismatch st es allocs); apply H.
Qed.

(** In the same state every input's mapping starts with the input's bytes:
    no store of the device has happened yet. *)
Lemma inputs_hold_their_data (drv : Driver) (DE_DEBUG : bool)
    (self : SpvAsmComputeShaderInstance) (st : DeviceState) (l : Locals) (st_d : DeviceState) :
  prepare drv DE_DEBUG self st = (Return l, st_d) →
  ∀ i input alloc,
    inputs (m_shaderSpec self) !! i = Some input →
    inputAllocs (vectors l) !! i = Some alloc →
    take (getNumBytes input) (viewOf st_d (getHostPtr alloc)) = data input.
Proof.
  intros H. apply prepare_inv in H as (binary & _ & _ & _ & -> & _ & Hm & _).
  intros i input alloc Hi Ha.
  cbn [vectors preparedLocals inputAllocs filledVectors] in Ha.
  rewrite buffersAllocs_lookup, Hi in Ha.
  assert (alloc = allocationAt drv (nextHandle st + 2 * i) (getNumBytes input))
    as -> by (cbn [fmap option_fmap option_map] in Ha; congruence).
  cbn [getHostPtr allocationAt].
  rewrite (viewOf_lookup st_d _ _
    (eq_trans (f_equal (fun m => m !! _) Hm)
       (createBuffersMem_input drv (m_shaderSpec self) (nextHandle st) (hostMem st) i input Hi))).
  apply take_setupView_Input.
Qed.

(** C4: for every output buffer, of any size S and whatever the fresh
    mapping held, once iterate has set the buffers up and recorded its
    commands (the state in which it goes on to create the fence and submit)
    the first S bytes of the mapping of the output's allocation are zero, the
    mapping is at least S bytes long, the zeroing was followed at once by a
    flush of exactly S bytes at the allocation's memory and offset, and
    nothing has been submitted yet. *)
Theorem outputs_zeroed_and_flushed_before_submission (drv : Driver) (DE_DEBUG : bool)
    (self : SpvAsmComputeShaderInstance) (st : DeviceState) (l : Locals) (st_d : DeviceState) :
  prepare drv DE_DEBUG self st = (Return l, st_d) →
  length (outputAllocs (vectors l)) = length (outputs (m_shaderSpec self)) ∧
  omap submitOf (newCalls st st_d) = [] ∧
  ∀ i output alloc,
    outputs (m_shaderSpec self) !! i = Some output →
    outputAllocs (vectors l) !! i = Some alloc →
    take (getNumBytes output) (viewOf st_d (getHostPtr alloc)) = replicate (getNumBytes output) x00 ∧
    getNumBytes output ≤ length (viewOf st_d (getHostPtr alloc)) ∧
    ∃ pre post,
      newCalls st st_d =
        pre ++
        [DeMemset (getHostPtr alloc) x00 (getNumBytes output);
         FlushMappedMemoryRange (getMemory alloc) (getOffset alloc) (getNumBytes output)] ++
        post.
Proof.
  intros H. apply prepare_inv in H as (binary & _ & _ & _ & -> & _ & Hm & Ht).
  apply newCalls_app in Ht. rewrite Ht. clear Ht.
  split; [apply length_outputAllocs|]. split.
  { unfold prepareCalls. rewrite omap_app, omap_createBuffersCalls by apply no_setup_submit.
    reflexivity. }
  intros i output alloc Ho Ha.
  cbn [vectors preparedLocals outputAllocs filledVectors] in Ha.
  rewrite buffersAllocs_lookup, Ho in Ha.
  assert (alloc = allocationAt drv
            (nextHandle st + 2 * length (inputs (m_shaderSpec self)) + 2 * i) (getNumBytes output))
    as -> by (cbn [fmap option_fmap option_map] in Ha; congruence).
  clear Ha. cbn [getHostPtr getMemory allocationAt].
  rewrite (viewOf_lookup st_d _ _
    (eq_trans (f_equal (fun m => m !! _) Hm)
       (createBuffersMem_output drv (m_shaderSpec self) (nextHandle st) (hostMem st) i output Ho))).
  split; [apply take_setupView_Output|].
  split; [rewrite length_setupView; lia|].
  destruct (buffersCalls_lookup drv Output (outputs (m_shaderSpec self))
              (nextHandle st + 2 * length (inputs (m_shaderSpec self))) i output Ho)
    as (pre & post & E).
  unfold prepareCalls, createBuffersCalls. rewrite E. unfold setupCalls at 1.
  set (tail := layoutCalls _ _ _ ++ _).
  set (h' := nextHandle st + 2 * length (inputs (m_shaderSpec self)) + 2 * i).
  exists (buffersCalls drv Input (nextHandle st) (inputs (m_shaderSpec self)) ++
          pre ++ bindCalls drv h' (getNumBytes output)), (post ++ tail).
  cbn [fillCall]. rewrite <- !app_assoc. reflexivity.
Qed.

Lemma buffersAllocs_app drv xs ys : ∀ h,
  buffersAllocs drv h (xs ++ ys) =
  buffersAllocs drv h xs ++ buffersAllocs drv (h + 2 * length xs) ys.
Proof.
  induction xs as [|x xs IH]; intros h; simpl.
  - rewrite Nat.add_0_r. reflexivity.
  - rewrite IH. do 3 f_equal. lia.
Qed.

Lemma boundMemory_buffersCalls drv role bs : ∀ h,
  omap boundMemory (buffersCalls drv role h bs) =
  (fun ba => (ba.1, getMemory ba.2, getOffset ba.2)) <$>
    zip (buffersHandles h bs) (buffersAllocs drv h bs).
Proof.
  induction bs as [|b bs IH]; intros h; cbn [buffersCalls]; [reflexivity|].
  rewrite omap_app, IH. destruct role; reflexivity.
Qed.

(** The mapping behind the [i]-th declared buffer once both loops are done:
    the bytes of an input, zeros for an output. *)
Lemma declared_view drv spec h mem st_d i b :
  hostMem st_d = createBuffersMem drv spec h mem →
  (inputs spec ++ outputs spec) !! i = Some b →
  (i < length (inputs spec) →
   take (getNumBytes b) (viewOf st_d (S (h + 2 * i))) = data b) ∧
  (length (inputs spec) ≤ i →
   take (getNumBytes b) (viewOf st_d (S (h + 2 * i))) = replicate (getNumBytes b) x00).
Proof.
  intros Hm Hb. split; intros Hi.
  - rewrite lookup_app_l in Hb by exact Hi.
    rewrite (viewOf_lookup st_d _ _
      (eq_trans (f_equal (fun m => m !! _) Hm) (createBuffersMem_input drv spec h mem i b Hb))).
    apply take_setupView_Input.
  - rewrite lookup_app_r in Hb by exact Hi.
    replace (h + 2 * i) with (h + 2 * length (inputs spec) + 2 * (i - length (inputs spec)))
      by lia.
    rewrite (viewOf_lookup st_d _ _
      (eq_trans (f_equal (fun m => m !! _) Hm)
         (createBuffersMem_output drv spec h mem (i - length (inputs spec)) b Hb))).
    apply take_setupView_Output.
Qed.

(** C2: the descriptor set layout has as many bindings as there are inputs
    and outputs, and the single descriptor update has as many writes. The
    write at position i goes to binding slot i of the descriptor set, and the
    descriptor info it points to names the buffer that was created i-th, at
    offset 0 and with the size of the i-th entry of the inputs followed by the
    outputs as its range. That buffer was created with that size, it is bound
    to the memory of the i-th allocation at the allocation's offset, and the
    mapping of that allocation starts with the bytes of the entry when it is
    an input and with zeros when it is an output: the inputs take the first
    slots in their order and the outputs follow in theirs. The buffers are
    pairwise distinct. *)
Theorem bindings_are_positional (drv : Driver) (DE_DEBUG : bool)
    (self : SpvAsmComputeShaderInstance) (st : DeviceState) (l : Locals) (st_d : DeviceState) :
  prepare drv DE_DEBUG self st = (Return l, st_d) →
  let spec := m_shaderSpec self in
  let numBuffers := length (inputs spec) + length (outputs spec) in
  let declared := inputs spec ++ outputs spec in
  let buffers := inputBuffers (vectors l) ++ outputBuffers (vectors l) in
  let allocs := inputAllocs (vectors l) ++ outputAllocs (vectors l) in
  length (inputBuffers (vectors l)) = length (inputs spec) ∧
  length (outputBuffers (vectors l)) = length (outputs spec) ∧
  NoDup buffers ∧
  (∃ bindings, omap createdLayout (newCalls st st_d) = [(bindings, descriptorSetLayout l)] ∧
               length bindings = numBuffers) ∧
  ∃ writes,
    omap updatesOf (newCalls st st_d) = [writes] ∧
    length writes = numBuffers ∧
    ∀ i b, declared !! i = Some b →
      ∃ buffer alloc w info,
        buffers !! i = Some buffer ∧
        allocs !! i = Some alloc ∧
        omap createdBuffer (newCalls st st_d) !! i =
          Some (storageBufferInfo (getNumBytes b), buffer) ∧
        omap boundMemory (newCalls st st_d) !! i =
          Some (buffer, getMemory alloc, getOffset alloc) ∧
        writes !! i = Some w ∧
        wds_destSet w = descriptorSet l ∧
        wds_destBinding w = Z.of_nat i ∧
        wds_destArrayElement w = 0%Z ∧
        wds_count w = 1%Z ∧
        wds_pDescriptors w = Some info ∧
        dbi_buffer (di_bufferInfo info) = buffer ∧
        dbi_offset (di_bufferInfo info) = 0 ∧
        dbi_range (di_bufferInfo info) = getNumBytes b ∧
        (i < length (inputs spec) →
         take (getNumBytes b) (viewOf st_d (getHostPtr alloc)) = data b) ∧
        (length (inputs spec) ≤ i →
         take (getNumBytes b) (viewOf st_d (getHostPtr alloc)) = replicate (getNumBytes b) x00).
Proof.
  intros H spec numBuffers declared buffers allocs.
  apply prepare_inv in H as (binary & _ & _ & _ & -> & _ & Hm & Ht).
  apply newCalls_app in Ht. rewrite Ht. clear Ht.
  subst buffers allocs.
  cbn [vectors preparedLocals inputBuffers outputBuffers inputAllocs outputAllocs filledVectors
       descriptorSetLayout descriptorSet].
  fold spec.
  rewrite <- (buffersHandles_app (inputs spec) (outputs spec)).
  rewrite <- (buffersAllocs_app drv (inputs spec) (outputs spec)). fold declared.
  split; [apply length_buffersHandles|]. split; [apply length_buffersHandles|].
  split; [apply buffersHandles_NoDup|].
  unfold prepareCalls. fold spec. rewrite !omap_app.
  rewrite !omap_createBuffersCalls by (apply no_setup_layout || apply no_setup_update).
  split.
  { eexists. split; [reflexivity|]. apply length_replicate. }
  eexists. split; [reflexivity|].
  cbn [descriptorInfos filledVectors].
  rewrite <- (buffersInfos_app (inputs spec) (outputs spec)). fold declared.
  split.
  { rewrite length_writesFrom, length_buffersInfos. unfold declared. apply length_app. }
  intros i b Hb.
  pose proof (lookup_lt_Some _ _ _ Hb) as Hi.
  exists (nextHandle st + 2 * i), (allocationAt drv (nextHandle st + 2 * i) (getNumBytes b)),
         (storageWrite (3 + afterBuffers spec (nextHandle st)) i
            (createDescriptorInfo (nextHandle st + 2 * i) 0 (getNumBytes b))),
         (createDescriptorInfo (nextHandle st + 2 * i) 0 (getNumBytes b)).
  split; [rewrite buffersHandles_lookup, Hb; reflexivity|].
  split; [rewrite buffersAllocs_lookup, Hb; reflexivity|].
  split.
  { unfold createBuffersCalls. rewrite omap_app, !createdBuffer_buffersCalls.
    assert (zip (map (fun b0 => storageBufferInfo (getNumBytes b0)) (inputs spec))
                (buffersHandles (nextHandle st) (inputs spec)) ++
            zip (map (fun b0 => storageBufferInfo (getNumBytes b0)) (outputs spec))
                (buffersHandles (nextHandle st + 2 * length (inputs spec)) (outputs spec)) =
            zip (map (fun b0 => storageBufferInfo (getNumBytes b0)) declared)
                (buffersHandles (nextHandle st) declared)) as ->.
    { unfold declared. rewrite map_app, buffersHandles_app.
      symmetry. apply zip_with_app. rewrite length_map, length_buffersHandles. reflexivity. }
    rewrite lookup_app_l.
    + rewrite lookup_zip_with, list_lookup_fmap, Hb, buffersHandles_lookup, Hb. reflexivity.
    + rewrite length_zip_with, length_map, length_buffersHandles. lia. }
  split.
  { unfold createBuffersCalls. rewrite omap_app, !boundMemory_buffersCalls.
    rewrite <- fmap_app.
    assert (zip (buffersHandles (nextHandle st) (inputs spec))
                (buffersAllocs drv (nextHandle st) (inputs spec)) ++
            zip (buffersHandles (nextHandle st + 2 * length (inputs spec)) (outputs spec))
                (buffersAllocs drv (nextHandle st + 2 * length (inputs spec)) (outputs spec)) =
            zip (buffersHandles (nextHandle st) declared)
                (buffersAllocs drv (nextHandle st) declared)) as ->.
    { unfold declared. rewrite buffersHandles_app, buffersAllocs_app.
      symmetry. apply zip_with_app. rewrite length_buffersHandles, length_buffersAllocs.
      reflexivity. }
    rewrite lookup_app_l.
    + rewrite list_lookup_fmap, lookup_zip_with, buffersHandles_lookup, buffersAllocs_lookup, Hb.
      reflexivity.
    + rewrite length_fmap, length_zip_with, length_buffersHandles, length_buffersAllocs. lia. }
  split; [rewrite writesFrom_lookup, buffersInfos_lookup, Hb; reflexivity|].
  do 8 (split; [reflexivity|]).
  cbn [getHostPtr allocationAt].
  exact (declared_view drv spec (nextHandle st) (hostMem st) st_d i b Hm Hb).
Qed.

(** ** The recorded commands, the submission and the wait *)

(** C7: in a run of iterate that returns, the commands recorded are exactly
    three, in this order: the bind of the compute pipeline, the bind of the
    descriptor set at set index 0, and one dispatch whose three counts are the
    dispatch dimensions of the specification handed to the deUint32
    parameters of the call, which for dimensions that are non-negative ints
    are the dimensions themselves. They are recorded into the one command
    buffer, between its begin and its end, and that command buffer is what is
    submitted, once. *)
Theorem recorded_commands_are_bind_bind_dispatch (drv : Driver) (DE_DEBUG : bool)
    (self : SpvAsmComputeShaderInstance) (st : DeviceState) (status : TestStatus) (l : Locals)
    (st' : DeviceState) :
  iterateLocals drv DE_DEBUG self st = (Return (status, l), st') →
  let dims := numWorkGroups (m_shaderSpec self) in
  let commands x y z :=
    [CmdBindPipeline (cmdBuffer l) VK_PIPELINE_BIND_POINT_COMPUTE (computePipeline l);
     CmdBindDescriptorSets (cmdBuffer l) VK_PIPELINE_BIND_POINT_COMPUTE (pipelineLayout l) 0
       [descriptorSet l] [];
     CmdDispatch (cmdBuffer l) x y z] in
  recordedCommands (newCalls st st') =
    commands (toUint32 (vx dims)) (toUint32 (vy dims)) (toUint32 (vz dims)) ∧
  (nonNegativeInt (vx dims) → nonNegativeInt (vy dims) → nonNegativeInt (vz dims) →
   recordedCommands (newCalls st st') = commands (vx dims) (vy dims) (vz dims)) ∧
  (∃ pre info post,
     newCalls st st' =
       pre ++ [BeginCommandBuffer (cmdBuffer l) info] ++
       commands (toUint32 (vx dims)) (toUint32 (vy dims)) (toUint32 (vz dims)) ++
       [EndCommandBuffer (cmdBuffer l)] ++ post) ∧
  ∃ fence, omap submitOf (newCalls st st') = [([cmdBuffer l], fence)].
Proof.
  intros H dims commands. subst commands dims.
  apply iterateLocals_calls in H as (binary & _ & -> & _ & ->).
  cbn [cmdBuffer computePipeline pipelineLayout descriptorSet preparedLocals].
  unfold recordedCommands, prepareCalls. rewrite !omap_app.
  rewrite !omap_createBuffersCalls by (apply no_setup_command || apply no_setup_submit).
  rewrite no_compare_command, no_compare_submit.
  unfold commandCalls.
  split; [reflexivity|]. split.
  { intros Hx Hy Hz.
    rewrite (toUint32_nonNegativeInt _ Hx), (toUint32_nonNegativeInt _ Hy),
      (toUint32_nonNegativeInt _ Hz).
    reflexivity. }
  split; [|eexists; reflexivity].
  eexists (createBuffersCalls drv _ _ ++ layoutCalls _ _ _ ++ pipelineCalls _ _ ++ [_; _]), _, _.
  rewrite <- !app_assoc. reflexivity.
Qed.

(** ** The verdict *)

(** C9: in a run of iterate that returns, if the output at position k
    differs from its mapping and every output before it matches (whatever
    the outputs after it do), the status is the fail with the fixed message,
    and the comparisons made are those of the outputs at positions 0 to k, in
    order: no output after position k is compared. *)
Theorem verification_stops_at_first_mismatch (drv : Driver) (DE_DEBUG : bool)
    (self : SpvAsmComputeShaderInstance) (st : DeviceState) (status : TestStatus) (l : Locals)
    (st' : DeviceState) (k : nat) (expected : Buffer) (alloc : Allocation) :
  iterateLocals drv DE_DEBUG self st = (Return (status, l), st') →
  outputs (m_shaderSpec self) !! k = Some expected →
  outputAllocs (vectors l) !! k = Some alloc →
  ¬ outputMatches st' expected alloc →
  (∀ j e a, j < k → outputs (m_shaderSpec self) !! j = Some e →
            outputAllocs (vectors l) !! j = Some a → outputMatches st' e a) →
  status = fail "Output doesn't match with expected" ∧
  omap comparisonOf (newCalls st st') =
    map compareCall (take (S k) (zip (outputs (m_shaderSpec self)) (outputAllocs (vectors l)))).
Proof.
  intros H He Ha Hk Hbefore.
  apply iterateLocals_calls in H as (binary & _ & Hl & -> & ->).
  pose proof (firstMismatch_Some st' _ _ k expected alloc He Ha Hk Hbefore) as Hfirst.
  rewrite Hfirst. split; [reflexivity|].
  unfold prepareCalls. rewrite !omap_app.
  rewrite omap_createBuffersCalls by apply no_setup_comparison.
  rewrite comparisons_compare. unfold compareCalls. rewrite Hfirst. reflexivity.
Qed.

(** C1: for a specification with at least one output, iterate returns a
    status whenever the driver reports no failure (the program is there and
    the buffers are fewer than 2^32); and whenever it returns a status, there
    is one allocation per declared output, the status is the pass exactly when
    every output's expected bytes equal the first bytes, as many as expected,
    of the mapping of its allocation as it is after execution, and it is the
    fail with the fixed message as soon as one output differs. *)
Theorem iterate_passes_iff_all_outputs_match (drv : Driver) (DE_DEBUG : bool)
    (self : SpvAsmComputeShaderInstance) (st : DeviceState) :
  outputs (m_shaderSpec self) ≠ [] →
  (∀ binary,
     reliable drv →
     lookupBinary (m_context self) "compute" = Some binary →
     (Z.of_nat (length (inputs (m_shaderSpec self)) + length (outputs (m_shaderSpec self))) < 2 ^ 32)%Z →
     ∃ status st', iterate drv DE_DEBUG self st = (Return status, st')) ∧
  (∀ status st',
     iterate drv DE_DEBUG self st = (Return status, st') →
     ∃ l,
       iterateLocals drv DE_DEBUG self st = (Return (status, l), st') ∧
       length (outputAllocs (vectors l)) = length (outputs (m_shaderSpec self)) ∧
       (status = pass "Ouput match with expected" ↔
        Forall2 (outputMatches st') (outputs (m_shaderSpec self)) (outputAllocs (vectors l))) ∧
       (¬ Forall2 (outputMatches st') (outputs (m_shaderSpec self)) (outputAllocs (vectors l)) →
        status = fail "Output doesn't match with expected")).
Proof.
  intros Hne. split.
  - intros binary Hok Hbin Hsmall.
    destruct (iterateLocals_run drv DE_DEBUG self st binary Hok (fun _ => Hne) Hbin Hsmall)
      as (status & l & st' & H).
    exists status, st'. eapply iterate_run. exact H.
  - intros status st' H. apply iterate_inv in H as (l & H). exists l.
    split; [exact H|].
    apply iterateLocals_calls in H as (binary & _ & Hl & -> & _).
    assert (length (outputs (m_shaderSpec self)) = length (outputAllocs (vectors l))) as Hlen
      by (rewrite Hl; symmetry; apply length_outputAllocs).
    split; [symmetry; exact Hlen|].
    rewrite <- (firstMismatch_None st' _ _ Hlen).
    destruct (firstMismatch st' _ _) as [k|]; simpl.
    + split; [split; discriminate|reflexivity].
    + split; [tauto|]. intros Hc. contradiction.
Qed.

(** C3 (as the code has it): the constructors of the test case and of the
    test instance accept every specification, one without outputs included:
    they only store it. The outputs are required to be non-empty by the
    assertion at the start of iterate: in a build that checks assertions,
    iterate on a specification without outputs stops on it before any call is
    made and yields no status, so that every run that gets as far as the
    recorded commands, and with it every run that checks outputs or returns a
    status, has at least one output. *)
Theorem empty_outputs_stop_at_the_assertion (drv : Driver) (ctx : Context)
    (name description : string) (spec : ComputeShaderSpec) (st : DeviceState) :
  let self := {| m_context := ctx; m_shaderSpec := spec |} in
  (∃ c, newSpvAsmComputeShaderCase name description spec = Return c ∧
        createInstance c ctx = Return self) ∧
  (outputs spec = [] → iterate drv true self st = (Crash AssertionFailed, st)) ∧
  (∀ l st_d, prepare drv true self st = (Return l, st_d) → outputs spec ≠ []) ∧
  (∀ status st', iterate drv true self st = (Return status, st') → outputs spec ≠ []).
Proof.
  intros self. split; [eexists; split; reflexivity|]. split.
  { intros Hempty. unfold iterate, iterateLocals, prepare, DE_ASSERT. cbn [m_shaderSpec self].
    rewrite Hempty. reflexivity. }
  assert (∀ l st_d, prepare drv true self st = (Return l, st_d) → outputs spec ≠ []) as Hprep.
  { intros l st_d H. apply prepare_inv in H as (_ & _ & Hassert & _). apply Hassert. reflexivity. }
  split; [exact Hprep|].
  intros status st' H. apply iterate_inv in H as (l & H).
  apply iterateLocals_inv in H as (st_d & _ & _ & Hp & _). eapply Hprep. exact Hp.
Qed.

(** ** The claims on the examples *)

Lemma copyDevice_reliable : reliable copyDevice.
Proof. intros tr c. reflexivity. Qed.

(** One input of four bytes, a kernel that copies it, the same four bytes
    expected, one work group: the test passes. *)
Example copy_scenario_passes :
  (iterate copyDevice true passingInstance freshDevice).1 =
  Return (pass "Ouput match with expected").
Proof. vm_compute. reflexivity. Qed.

(** The same with other bytes expected: the test fails. *)
Example copy_scenario_mismatch_fails :
  (iterate copyDevice true (copyInstance [x09; x09; x09; x09]) freshDevice).1 =
  Return (fail "Output doesn't match with expected").
Proof. vm_compute. reflexivity. Qed.

(** "timeout is failure": a wait reported as timed out ends iterate with
    the error of the wait, and no status. *)
Example timed_out_wait_is_thrown :
  (iterate timeoutDriver true passingInstance freshDevice).1 =
  Throw (VkError (WaitForFences 0 [14] false 18446744073709551615%Z) VK_TIMEOUT).
Proof. vm_compute. reflexivity. Qed.

Lemma iterate_passes_iff_all_outputs_match_witness :
  outputs (m_shaderSpec passingInstance) ≠ [] ∧
  (∃ status st', iterate copyDevice true passingInstance freshDevice = (Return status, st')) ∧
  ∃ l,
    iterateLocals copyDevice true passingInstance freshDevice =
      (Return (pass "Ouput match with expected", l),
       (iterate copyDevice true passingInstance freshDevice).2) ∧
    Forall2 (outputMatches (iterate copyDevice true passingInstance freshDevice).2)
      (outputs (m_shaderSpec passingInstance)) (outputAllocs (vectors l)).
Proof.
  assert (outputs (m_shaderSpec passingInstance) ≠ []) as Hne by discriminate.
  destruct (iterate_passes_iff_all_outputs_match copyDevice true passingInstance freshDevice Hne)
    as [Hrun Hiff].
  split; [exact Hne|]. split.
  - apply (Hrun [x07; x23; x02; x03]).
    + exact copyDevice_reliable.
    + reflexivity.
    + vm_compute. reflexivity.
  - destruct (Hiff (pass "Ouput match with expected")
                (iterate copyDevice true passingInstance freshDevice).2)
      as (l & Hl & _ & Hpass & _).
    + vm_compute. reflexivity.
    + exists l. split; [exact Hl|]. apply Hpass. reflexivity.
Defined.

Lemma bindings_are_positional_witness :
  prepare copyDevice true passingInstance freshDevice =
    (Return (preparedLocals copyDevice (m_shaderSpec passingInstance) 1),
     (prepare copyDevice true passingInstance freshDevice).2) ∧
  ∃ writes w info,
    omap updatesOf (newCalls freshDevice (prepare copyDevice true passingInstance freshDevice).2) =
      [writes] ∧
    length writes = 2 ∧
    writes !! 1 = Some w ∧
    wds_destBinding w = 1%Z ∧
    wds_pDescriptors w = Some info ∧
    dbi_buffer (di_bufferInfo info) = 3 ∧
    dbi_offset (di_bufferInfo info) = 0 ∧
    dbi_range (di_bufferInfo info) = 4 ∧
    omap boundMemory (newCalls freshDevice (prepare copyDevice true passingInstance freshDevice).2)
      !! 1 = Some (3, 4, 0).
Proof.
  assert (prepare copyDevice true passingInstance freshDevice =
            (Return (preparedLocals copyDevice (m_shaderSpec passingInstance) 1),
             (prepare copyDevice true passingInstance freshDevice).2)) as H
    by (vm_compute; reflexivity).
  split; [exact H|].
  destruct (bindings_are_positional copyDevice true passingInstance freshDevice _ _ H)
    as (_ & _ & _ & _ & writes & Hw & Hlen & Hall).
  destruct (Hall 1 {| data := [x01; x02; x03; x04] |} eq_refl)
    as (buffer & alloc & w & info & Hbuffer & Halloc & _ & Hbound & Hwrite & _ & Hslot & _ & _ &
        Hinfo & Hbuf & Hoff & Hrange & _).
  assert (buffer = 3) as -> by (vm_compute in Hbuffer; congruence).
  assert (alloc = {| getMemory := 4; getOffset := 0; getHostPtr := 4 |}) as ->
    by (vm_compute in Halloc; congruence).
  exists writes, w, info.
  repeat split; assumption.
Defined.

Lemma empty_outputs_stop_at_the_assertion_witness :
  outputs noOutputSpec = [] ∧
  iterate copyDevice true noOutputInstance freshDevice = (Crash AssertionFailed, freshDevice).
Proof.
  split; [reflexivity|].
  destruct (empty_outputs_stop_at_the_assertion copyDevice testContext "empty" "no outputs"
              noOutputSpec freshDevice) as (_ & Hstop & _).
  apply Hstop. reflexivity.
Defined.

(** The claim of C3 fails on the code: a specification without outputs is
    constructed like any other, and in a build without assertions iterate
    passes it. *)
Lemma empty_outputs_are_constructed_and_pass :
  outputs noOutputSpec = [] ∧
  newSpvAsmComputeShaderCase "empty" "no outputs" noOutputSpec =
    Return {| case_name := "empty"; case_description := "no outputs";
              case_shaderSpec := noOutputSpec |} ∧
  createInstance
    {| case_name := "empty"; case_description := "no outputs"; case_shaderSpec := noOutputSpec |}
    testContext = Return noOutputInstance ∧
  (iterate copyDevice false noOutputInstance freshDevice).1 =
    Return (pass "Ouput match with expected").
Proof.
  split; [reflexivity|]. split; [reflexivity|]. split; [reflexivity|].
  vm_compute. reflexivity.
Qed.

Lemma outputs_zeroed_and_flushed_before_submission_witness :
  prepare copyDevice true passingInstance freshDevice =
    (Return (preparedLocals copyDevice (m_shaderSpec passingInstance) 1),
     (prepare copyDevice true passingInstance freshDevice).2) ∧
  take 4 (viewOf (prepare copyDevice true passingInstance freshDevice).2 4) = [x00; x00; x00; x00].
Proof.
  assert (prepare copyDevice true passingInstance freshDevice =
            (Return (preparedLocals copyDevice (m_shaderSpec passingInstance) 1),
             (prepare copyDevice true passingInstance freshDevice).2)) as H
    by (vm_compute; reflexivity).
  split; [exact H|].
  destruct (outputs_zeroed_and_flushed_before_submission copyDevice true passingInstance
              freshDevice _ _ H) as (_ & _ & Hall).
  destruct (Hall 0 {| data := [x01; x02; x03; x04] |}
              {| getMemory := 4; getOffset := 0; getHostPtr := 4 |} eq_refl eq_refl)
    as (Hzero & _).
  exact Hzero.
Defined.

Lemma setMemory_roundtrip_witness :
  hostMem mappedDevice !! getHostPtr mappedAllocation = Some (replicate 6 xaa) ∧
  length [x01; x02; x03] ≤ length (replicate 6 xaa) ∧
  take 3 (viewOf (setMemory copyDevice mappedAllocation 3 [x01; x02; x03] mappedDevice).2 7) =
    [x01; x02; x03].
Proof.
  assert (hostMem mappedDevice !! getHostPtr mappedAllocation = Some (replicate 6 xaa)) as Hv
    by reflexivity.
  assert (length [x01; x02; x03] ≤ length (replicate 6 xaa)) as Hlen by (simpl; lia).
  split; [exact Hv|]. split; [exact Hlen|].
  exact (proj1 (setMemory_roundtrip copyDevice mappedAllocation [x01; x02; x03] mappedDevice
                  (replicate 6 xaa) Hv Hlen)).
Defined.

Lemma createBufferAndBindMemory_binds_at_allocation_offset_witness :
  reliable copyDevice ∧
  ∃ buffer alloc st',
    createBufferAndBindMemory copyDevice 16 freshDevice = (Return (buffer, alloc), st').
Proof.
  split; [exact copyDevice_reliable|].
  exact (proj1 (createBufferAndBindMemory_binds_at_allocation_offset copyDevice 16 freshDevice)
           copyDevice_reliable).
Defined.

(** The claim of C6 fails on the code where the allocator places the
    allocation away from the start of its memory object: the buffer is bound
    there, not at offset 0. *)
Lemma buffer_bound_at_nonzero_offset :
  (createBufferAndBindMemory offsetDriver 16 freshDevice).1 =
    Return (1, {| getMemory := 2; getOffset := 256; getHostPtr := 2 |}) ∧
  omap boundMemory (trace (createBufferAndBindMemory offsetDriver 16 freshDevice).2) =
    [(1, 2, 256)].
Proof. split; vm_compute; reflexivity. Qed.

Lemma recorded_commands_are_bind_bind_dispatch_witness :
  iterateLocals copyDevice true passingInstance freshDevice =
    (Return (pass "Ouput match with expected",
             preparedLocals copyDevice (m_shaderSpec passingInstance) 1),
     (iterateLocals copyDevice true passingInstance freshDevice).2) ∧
  nonNegativeInt 1 ∧
  recordedCommands (newCalls freshDevice (iterateLocals copyDevice true passingInstance freshDevice).2) =
    [CmdBindPipeline 13 VK_PIPELINE_BIND_POINT_COMPUTE 11;
     CmdBindDescriptorSets 13 VK_PIPELINE_BIND_POINT_COMPUTE 6 0 [8] [];
     CmdDispatch 13 1 1 1].
Proof.
  assert (iterateLocals copyDevice true passingInstance freshDevice =
            (Return (pass "Ouput match with expected",
                     preparedLocals copyDevice (m_shaderSpec passingInstance) 1),
             (iterateLocals copyDevice true passingInstance freshDevice).2)) as H
    by (vm_compute; reflexivity).
  assert (nonNegativeInt 1) as H1 by (unfold nonNegativeInt; lia).
  split; [exact H|]. split; [exact H1|].
  destruct (recorded_commands_are_bind_bind_dispatch copyDevice true passingInstance
              freshDevice _ _ _ H) as (_ & Hverbatim & _).
  exact (Hverbatim H1 H1 H1).
Defined.

Lemma verification_stops_at_first_mismatch_witness :
  iterateLocals copyDevice true threeOutputInstance freshDevice =
    (Return (fail "Output doesn't match with expected",
             preparedLocals copyDevice threeOutputSpec 1),
     (iterateLocals copyDevice true threeOutputInstance freshDevice).2) ∧
  ¬ outputMatches (iterateLocals copyDevice true threeOutputInstance freshDevice).2
      {| data := [x08; x08] |} {| getMemory := 6; getOffset := 0; getHostPtr := 6 |} ∧
  omap comparisonOf
    (newCalls freshDevice (iterateLocals copyDevice true threeOutputInstance freshDevice).2) =
    [DeMemCmp [x01; x02; x03; x04] 4 4; DeMemCmp [x08; x08] 6 2].
Proof.
  assert (iterateLocals copyDevice true threeOutputInstance freshDevice =
            (Return (fail "Output doesn't match with expected",
                     preparedLocals copyDevice threeOutputSpec 1),
             (iterateLocals copyDevice true threeOutputInstance freshDevice).2)) as H
    by (vm_compute; reflexivity).
  assert (¬ outputMatches (iterateLocals copyDevice true threeOutputInstance freshDevice).2
            {| data := [x08; x08] |} {| getMemory := 6; getOffset := 0; getHostPtr := 6 |}) as Hk
    by (intros Hm; vm_compute in Hm; discriminate).
  split; [exact H|]. split; [exact Hk|].
  refine (proj2 (verification_stops_at_first_mismatch copyDevice true threeOutputInstance
                   freshDevice _ _ _ 1 _ _ H eq_refl eq_refl Hk _)).
  intros j e a Hj He Ha.
  assert (j = 0) as -> by lia.
  vm_compute in He, Ha. inversion He; inversion Ha; subst.
  vm_compute. reflexivity.
Defined.

(** * Further properties *)

(** ** The calls of a run, however it ends *)

Lemma logs_bind {A B} (P : Call → Prop) (m : M A) (f : A → M B) st :
  logs P m st → (∀ a st1, logs P (f a) st1) → logs P (m ≫= f) st.
Proof.
  intros (calls & Ht & HP) Hf. unfold logs, mbind, M_bind in *.
  destruct (m st) as [[a|e|k|] st1]; cbn [snd] in *;
    [|exists calls; split; assumption..].
  destruct (Hf a st1) as (calls' & Ht' & HP').
  exists (calls ++ calls'). split.
  - rewrite Ht', Ht, <- app_assoc. reflexivity.
  - apply Forall_app. auto.
Qed.

Lemma logs_silent {A} (P : Call → Prop) (m : M A) st :
  trace (m st).2 = trace st → logs P m st.
Proof. intros Ht. exists []. rewrite app_nil_r. auto. Qed.

Lemma logs_one {A} (P : Call → Prop) (m : M A) st c :
  P c → trace (m st).2 = trace st ∨ trace (m st).2 = trace st ++ [c] → logs P m st.
Proof.
  intros Hc [Ht|Ht]; [apply logs_silent; exact Ht|].
  exists [c]. auto.
Qed.

Lemma logs_mret {A} (P : Call → Prop) (a : A) st : logs P (mret a) st.
Proof. apply logs_silent. reflexivity. Qed.

Lemma logs_index {A} (P : Call → Prop) (v : list A) i st : logs P (index v i) st.
Proof. apply logs_silent. unfold index. destruct (v !! i); reflexivity. Qed.

Lemma logs_checked drv (P : Call → Prop) c st : P c → logs P (checked drv c) st.
Proof.
  intros Hc. apply (logs_one P _ st c Hc). unfold checked.
  destruct (drv_result drv (trace st) c); cbn; auto.
Qed.

Lemma logs_unchecked (P : Call → Prop) c st : P c → logs P (unchecked c) st.
Proof. intros Hc. apply (logs_one P _ st c Hc). right. reflexivity. Qed.

Lemma logs_create drv (P : Call → Prop) mk st : (∀ h, P (mk h)) → logs P (create drv mk) st.
Proof.
  intros Hmk. unfold create.
  apply logs_bind; [apply logs_silent; reflexivity|]. intros h st1.
  apply logs_bind; [apply logs_checked; apply Hmk|]. intros u st2. apply logs_mret.
Qed.

Lemma logs_modify (P : Call → Prop) f st :
  trace (f st) = trace st → logs P (modify f) st.
Proof. intros Hf. apply logs_silent. exact Hf. Qed.

Lemma logs_forLoop {L} (P : Call → Prop) (body : nat → L → M L) :
  (∀ ndx l st, logs P (body ndx l) st) →
  ∀ n ndx l st, logs P (forLoop n ndx body l) st.
Proof.
  intros Hbody. induction n as [|n IH]; intros ndx l st; cbn [forLoop].
  - apply logs_mret.
  - apply logs_bind; [apply Hbody|]. intros l' st1. apply IH.
Qed.

Lemma logs_forLoopUint32 {L} (P : Call → Prop) bound (body : Z → L → M L) :
  (∀ ndx l st, logs P (body ndx l) st) →
  ∀ fuel ndx l st, logs P (forLoopUint32 bound fuel ndx body l) st.
Proof.
  intros Hbody. induction fuel as [|fuel IH]; intros ndx l st;
    rewrite forLoopUint32_unfold; case_decide as Hd; try apply logs_mret.
  - apply logs_silent. reflexivity.
  - apply logs_bind; [apply Hbody|]. intros l' st1. apply IH.
Qed.

Section Logs.

Variable drv : Driver.
Variable DE_DEBUG : bool.
Variable P : Call → Prop.

Section SetupLogs.

Hypothesis HSetup : ∀ c, phaseOf c = Setup → P c.

Lemma createBufferAndBindMemory_logs numBytes st :
  logs P (createBufferAndBindMemory drv numBytes) st.
Proof.
  unfold createBufferAndBindMemory.
  apply logs_bind; [apply logs_create; intros h; apply HSetup; reflexivity|].
  intros buffer st1.
  apply logs_bind.
  { unfold getBufferMemoryRequirements.
    apply logs_bind; [apply logs_checked; apply HSetup; reflexivity|].
    intros u st2. apply logs_mret. }
  intros requirements st2.
  apply logs_bind.
  { unfold allocate.
    apply logs_bind; [apply logs_silent; reflexivity|]. intros mem st3.
    apply logs_bind; [apply logs_checked; apply HSetup; reflexivity|]. intros u st4.
    apply logs_bind; [apply logs_modify; reflexivity|]. intros u' st5. apply logs_mret. }
  intros bufferMemory st3.
  apply logs_bind; [apply logs_checked; apply HSetup; reflexivity|].
  intros u st4. apply logs_mret.
Qed.

Lemma setMemory_logs alloc n src st : logs P (setMemory drv alloc n src) st.
Proof.
  unfold setMemory, flushMappedMemoryRange.
  apply logs_bind; [|intros u st1; apply logs_checked; apply HSetup; reflexivity].
  apply (logs_one P _ st (DeMemcpy (getHostPtr alloc) src n)); [apply HSetup; reflexivity|].
  unfold deMemcpy. destruct (hostMem st !! getHostPtr alloc); [|auto].
  case_decide; cbn; auto.
Qed.

Lemma clearMemory_logs alloc n st : logs P (clearMemory drv alloc n) st.
Proof.
  unfold clearMemory, flushMappedMemoryRange.
  apply logs_bind; [|intros u st1; apply logs_checked; apply HSetup; reflexivity].
  apply (logs_one P _ st (DeMemset (getHostPtr alloc) x00 n)); [apply HSetup; reflexivity|].
  unfold deMemset. destruct (hostMem st !! getHostPtr alloc); [|auto].
  case_decide; cbn; auto.
Qed.

Lemma createBuffers_logs spec st : logs P (createBuffers drv spec) st.
Proof.
  unfold createBuffers.
  apply logs_bind; [|intros v st1]; apply logs_forLoop; intros ndx l st0.
  - unfold inputBody.
    apply logs_bind; [apply logs_index|]. intros input st2.
    apply logs_bind; [apply createBufferAndBindMemory_logs|]. intros [buffer alloc] st3.
    apply logs_bind; [apply setMemory_logs|]. intros u st4. apply logs_mret.
  - unfold outputBody.
    apply logs_bind; [apply logs_index|]. intros output st2.
    apply logs_bind; [apply createBufferAndBindMemory_logs|]. intros [buffer alloc] st3.
    apply logs_bind; [apply clearMemory_logs|]. intros u st4. apply logs_mret.
Qed.

End SetupLogs.

(** Up to the recorded commands nothing is run and nothing is compared. *)
Lemma prepare_logs self st :
  (∀ c, phaseOf c ≠ Run → phaseOf c ≠ Compare → P c) →
  logs P (prepare drv DE_DEBUG self) st.
Proof.
  intros HP.
  assert (∀ c p, phaseOf c = p → p ≠ Run → p ≠ Compare → P c) as Hp
    by (intros c p <-; apply HP).
  unfold prepare.
  apply logs_bind.
  { apply logs_silent. unfold DE_ASSERT. destruct (_ && _); reflexivity. }
  intros u st0.
  apply logs_bind.
  { apply createBuffers_logs. intros c Hc. apply (Hp c Setup Hc); discriminate. }
  intros v st1.
  apply logs_bind.
  { unfold createDescriptorSetLayout.
    apply logs_bind; [apply logs_forLoop; intros; apply logs_mret|]. intros builder st2.
    apply logs_create. intros h. apply HP; cbn; discriminate. }
  intros dsl st2.
  apply logs_bind.
  { apply logs_create. intros h. apply HP; cbn; discriminate. }
  intros pl st3.
  apply logs_bind.
  { apply logs_create. intros h. apply HP; cbn; discriminate. }
  intros pool st4.
  apply logs_bind.
  { unfold createDescriptorSet.
    apply logs_bind; [apply logs_create; intros h; apply HP; cbn; discriminate|].
    intros ds st5.
    apply logs_bind; [apply logs_forLoopUint32; intros; apply logs_mret|]. intros builder st6.
    apply logs_bind; [apply logs_checked; apply HP; cbn; discriminate|].
    intros u' st7. apply logs_mret. }
  intros ds st5.
  apply logs_bind.
  { apply logs_silent. unfold getBinary. destruct (lookupBinary _ _); reflexivity. }
  intros binary st6.
  apply logs_bind.
  { apply logs_create. intros h. apply HP; cbn; discriminate. }
  intros module st7.
  apply logs_bind.
  { apply logs_create. intros h. apply HP; cbn; discriminate. }
  intros shader st8.
  apply logs_bind.
  { apply logs_create. intros h. apply HP; cbn; discriminate. }
  intros pipeline st9.
  apply logs_bind; [|intros [cmdPool cmdBuffer] st10; apply logs_mret].
  unfold recordCommands.
  apply logs_bind.
  { apply logs_create. intros h. apply HP; cbn; discriminate. }
  intros cp st10.
  apply logs_bind.
  { apply logs_create. intros h. apply HP; cbn; discriminate. }
  intros cb st11.
  apply logs_bind; [apply logs_checked; apply HP; cbn; discriminate|].
  intros u1 st12.
  apply logs_bind; [apply logs_unchecked; apply HP; cbn; discriminate|].
  intros u2 st13.
  apply logs_bind; [apply logs_unchecked; apply HP; cbn; discriminate|].
  intros u3 st14.
  apply logs_bind; [apply logs_unchecked; apply HP; cbn; discriminate|].
  intros u4 st15.
  apply logs_bind; [apply logs_checked; apply HP; cbn; discriminate|].
  intros u5 st16. apply logs_mret.
Qed.

End Logs.

(** The loop that checks the outputs only compares. *)
Lemma checkOutputs_logs spec allocs : ∀ count outputNdx st,
  logs (fun c => phaseOf c = Compare) (checkOutputs spec allocs count outputNdx) st.
Proof.
  induction count as [|count IH]; intros outputNdx st; cbn [checkOutputs].
  - apply logs_mret.
  - apply logs_bind; [apply logs_index|]. intros expectedOutput st1.
    apply logs_bind; [apply logs_index|]. intros alloc st2.
    apply logs_bind.
    { apply (logs_one _ _ st2
               (DeMemCmp (data expectedOutput) (getHostPtr alloc) (getNumBytes expectedOutput)));
        [reflexivity|].
      unfold deMemCmp. destruct (hostMem st2 !! getHostPtr alloc); [|auto].
      case_decide; cbn; auto. }
    intros r st3. case_decide; [apply logs_mret|apply IH].
Qed.

(** ** The fence, the submission and the wait, however they end *)

Lemma omap_none {A} (f : Call → option A) calls :
  Forall (fun c => f c = None) calls → omap f calls = [].
Proof.
  induction 1 as [|c calls Hc _ IH]; [reflexivity|]. simpl. rewrite Hc. exact IH.
Qed.

Lemma bind_Throw_run {A B} (f : A → M B) (m : M A) st e st1 :
  m st = (Throw e, st1) → (m ≫= f) st = (Throw e, st1).
Proof. unfold mbind, M_bind. intros ->. reflexivity. Qed.

(** Once everything before the fence has succeeded, [iterate] ends as the
    rest of it does. *)
Lemma iterate_after_prepare drv DE_DEBUG self st l st_d :
  prepare drv DE_DEBUG self st = (Return l, st_d) →
  iterate drv DE_DEBUG self st = runAndCheck drv self l st_d.
Proof.
  intros Hp. unfold iterate, iterateLocals, mbind, M_bind. rewrite Hp.
  destruct (runAndCheck drv self l st_d) as [[status|e|k|] st']; reflexivity.
Qed.

(** When something before the fence fails, [iterate] stops there. *)
Lemma iterate_without_prepare drv DE_DEBUG self st :
  (∀ l, (prepare drv DE_DEBUG self st).1 ≠ Return l) →
  (iterate drv DE_DEBUG self st).2 = (prepare drv DE_DEBUG self st).2 ∧
  ∀ status, (iterate drv DE_DEBUG self st).1 ≠ Return status.
Proof.
  intros Hp. unfold iterate, iterateLocals, mbind, M_bind.
  destruct (prepare drv DE_DEBUG self st) as [[l|e|k|] st_d]; cbn [fst snd] in *;
    [exfalso; exact (Hp l eq_refl)|split; [reflexivity|discriminate]..].
Qed.

Lemma outputs_mapped_after_run drv DE_DEBUG self st l st_d fence st_r :
  prepare drv DE_DEBUG self st = (Return l, st_d) →
  createFenceAndRun drv (m_context self) (cmdBuffer l) st_d = (Return fence, st_r) →
  Forall2
    (fun e a => ∃ view, hostMem st_r !! getHostPtr a = Some view ∧ getNumBytes e ≤ length view)
    (outputs (m_shaderSpec self)) (outputAllocs (vectors l)).
Proof.
  intros Hp Hf.
  apply prepare_inv in Hp as (_ & _ & _ & _ & -> & _ & Hm & _).
  apply createFenceAndRun_inv in Hf as (_ & _ & Hm' & _).
  eapply Forall2_impl;
    [apply (outputs_mapped drv (m_shaderSpec self) (nextHandle st) (hostMem st))|].
  intros e a (view & Hv & Hn).
  match type of Hm' with _ = applyStores ?s ?m =>
    pose proof (applyStores_length s m (getHostPtr a)) as Hlen end.
  rewrite <- Hm' in Hlen. rewrite Hm, Hv in Hlen.
  destruct (hostMem st_r !! getHostPtr a) as [view'|]; [|discriminate].
  simpl in Hlen. inversion Hlen as [Hlen']. exists view'. split; [reflexivity|]. lia.
Qed.

Lemma checked_ok drv c st :
  drv_result drv (trace st) c = VK_SUCCESS → checked drv c st = (Return tt, logCall c st).
Proof. unfold checked. intros ->. reflexivity. Qed.

Lemma checked_fails drv c st r :
  drv_result drv (trace st) c = r → r ≠ VK_SUCCESS →
  checked drv c st = (Throw (VkError c r), st).
Proof. unfold checked. intros -> Hr. destruct r; [contradiction|reflexivity..]. Qed.

Lemma create_ok drv mk st :
  drv_result drv (trace st) (mk (nextHandle st)) = VK_SUCCESS →
  create drv mk st = (Return (nextHandle st), logCall (mk (nextHandle st)) (takeHandle st)).
Proof.
  intros Hr. unfold create. erewrite bind_Return_run by (unfold fresh; reflexivity).
  erewrite bind_Return_run by (apply checked_ok; exact Hr). reflexivity.
Qed.

Lemma create_fails drv mk st r :
  drv_result drv (trace st) (mk (nextHandle st)) = r → r ≠ VK_SUCCESS →
  create drv mk st = (Throw (VkError (mk (nextHandle st)) r), takeHandle st).
Proof.
  intros Hr Hne. unfold create. erewrite bind_Return_run by (unfold fresh; reflexivity).
  erewrite bind_Throw_run by (apply checked_fails; [exact Hr|exact Hne]). reflexivity.
Qed.

(** How "Create fence and run" ends, by the results the driver gives to
    its three calls, each after the calls made before it. *)
Lemma createFenceAndRun_outcome drv ctx cb st :
  let fence := nextHandle st in
  let created := CreateFence {| fci_flags := 0 |} fence in
  let submit := QueueSubmit (getUniversalQueue ctx) [cb] fence in
  let wait := WaitForFences (getDevice ctx) [fence] false infiniteTimeout in
  let run := createFenceAndRun drv ctx cb st in
  match drv_result drv (trace st) created with
  | VK_SUCCESS =>
      match drv_result drv (trace st ++ [created]) submit with
      | VK_SUCCESS =>
          match drv_result drv (trace st ++ [created; submit]) wait with
          | VK_SUCCESS => run.1 = Return fence ∧ trace run.2 = trace st ++ [created; submit; wait]
          | r => run.1 = Throw (VkError wait r) ∧ trace run.2 = trace st ++ [created; submit]
          end
      | r => run.1 = Throw (VkError submit r) ∧ trace run.2 = trace st ++ [created]
      end
  | r => run.1 = Throw (VkError created r) ∧ trace run.2 = trace st
  end.
Proof.
  intros fence created submit wait run. subst run.
  unfold createFenceAndRun, queueSubmit.
  destruct (drv_result drv (trace st) created) eqn:E1;
    try (erewrite bind_Throw_run
           by (apply (create_fails drv (CreateFence {| fci_flags := 0 |}));
               [exact E1|discriminate]);
         split; reflexivity).
  erewrite bind_Return_run by (apply (create_ok drv (CreateFence {| fci_flags := 0 |})); exact E1).
  fold fence. fold created.
  set (st1 := logCall created (takeHandle st)).
  change (trace st ++ [created]) with (trace st1).
  destruct (drv_result drv (trace st1) submit) eqn:E2;
    try (erewrite bind_Throw_run
           by (erewrite bind_Throw_run by (apply checked_fails; [exact E2|discriminate]);
               reflexivity);
         split; reflexivity).
  erewrite bind_Return_run
    by (erewrite bind_Return_run by (apply checked_ok; exact E2); unfold modify; reflexivity).
  match goal with |- context [mbind _ (checked drv ?w) ?s] => change w with wait; set (st2 := s) end.
  replace (trace st ++ [created; submit]) with (trace st2)
    by (subst st2 st1; cbn [trace logCall takeHandle]; rewrite <- app_assoc; reflexivity).
  destruct (drv_result drv (trace st2) wait) eqn:E3;
    try (erewrite bind_Throw_run by (apply checked_fails; [exact E3|discriminate]);
         split; reflexivity).
  erewrite bind_Return_run by (apply checked_ok; exact E3).
  split; [reflexivity|].
  subst st2 st1. unfold mret, M_ret. cbn [snd trace logCall takeHandle].
  rewrite <- !app_assoc. reflexivity.
Qed.

(** A status that [iterate] returns is the pass or the fail. *)
Lemma checkOutputs_status spec allocs : ∀ count outputNdx st status st',
  checkOutputs spec allocs count outputNdx st = (Return status, st') →
  status = pass "Ouput match with expected" ∨ status = fail "Output doesn't match with expected".
Proof.
  induction count as [|count IH]; intros outputNdx st status st' H; cbn [checkOutputs] in H.
  - apply mret_inv in H as [-> _]. auto.
  - apply bind_Return_inv in H as (e & st1 & _ & H).
    apply bind_Return_inv in H as (a & st2 & _ & H).
    apply bind_Return_inv in H as (r & st3 & _ & H).
    case_decide as Hd.
    + apply mret_inv in H as [-> _]. auto.
    + eapply IH. exact H.
Qed.

(** C8 (as the code has it): the timeout of the wait is ~(deUint64)0, the
    all-ones 64-bit value, no smaller than any 64-bit timeout, and a status
    that iterate returns is never the timed-out result. In every run, whatever
    the driver does, a wait that the driver reports successful was made at
    once after the submission, on the fence handed to the submission, and only
    comparisons follow it. Once the
    fence is created and the submission accepted, the run ends in one of two
    ways, by the result the driver gives the wait after the submission: on
    success iterate goes on to compare and returns the pass or the fail; on
    any other result, a timeout included, iterate throws that result as the
    error of the wait, with no status and nothing called after the
    submission. *)
Theorem wait_is_unbounded_and_never_times_out (drv : Driver) (DE_DEBUG : bool)
    (self : SpvAsmComputeShaderInstance) (st : DeviceState) :
  let ctx := m_context self in
  let run := iterate drv DE_DEBUG self st in
  infiniteTimeout = Z.ones 64 ∧
  (∀ timeout, (0 ≤ timeout < 2 ^ 64)%Z → (timeout ≤ infiniteTimeout)%Z) ∧
  (∀ status, run.1 = Return status → getCode status ≠ QP_TEST_RESULT_TIMEOUT) ∧
  (omap waitOf (newCalls st run.2) = [] ∨
   ∃ pre cb fence post,
     newCalls st run.2 =
       pre ++
       [QueueSubmit (getUniversalQueue ctx) [cb] fence;
        WaitForFences (getDevice ctx) [fence] false infiniteTimeout] ++
       post ∧
     omap waitOf pre = [] ∧
     omap submitOf pre = [] ∧
     Forall (fun c => phaseOf c = Compare) post) ∧
  ∀ l st_d,
    prepare drv DE_DEBUG self st = (Return l, st_d) →
    let fence := nextHandle st_d in
    let created := CreateFence {| fci_flags := 0 |} fence in
    let submit := QueueSubmit (getUniversalQueue ctx) [cmdBuffer l] fence in
    let wait := WaitForFences (getDevice ctx) [fence] false infiniteTimeout in
    drv_result drv (trace st_d) created = VK_SUCCESS →
    drv_result drv (trace st_d ++ [created]) submit = VK_SUCCESS →
    (drv_result drv (trace st_d ++ [created; submit]) wait = VK_SUCCESS →
     ∃ status compare,
       run.1 = Return status ∧
       (status = pass "Ouput match with expected" ∨
        status = fail "Output doesn't match with expected") ∧
       trace run.2 = trace st_d ++ [created; submit; wait] ++ compare ∧
       Forall (fun c => phaseOf c = Compare) compare) ∧
    (∀ r, drv_result drv (trace st_d ++ [created; submit]) wait = r → r ≠ VK_SUCCESS →
          run.1 = Throw (VkError wait r) ∧
          trace run.2 = trace st_d ++ [created; submit]).
Proof.
  intros ctx run.
  split; [reflexivity|].
  split; [intros timeout Ht; rewrite infiniteTimeout_value; lia|].
  assert (∀ l st_d fence st_r,
            prepare drv DE_DEBUG self st = (Return l, st_d) →
            createFenceAndRun drv ctx (cmdBuffer l) st_d = (Return fence, st_r) →
            ∃ status st' compare,
              run = (Return status, st') ∧
              (status = pass "Ouput match with expected" ∨
               status = fail "Output doesn't match with expected") ∧
              trace st' = trace st_r ++ compare ∧
              Forall (fun c => phaseOf c = Compare) compare) as Hreturns.
  { intros l st_d fence st_r Hp Hf.
    destruct (checkOutputs_run (m_shaderSpec self) (outputAllocs (vectors l))
                (outputs (m_shaderSpec self)) [] [] (outputAllocs (vectors l)) st_r
                eq_refl eq_refl eq_refl
                (outputs_mapped_after_run drv DE_DEBUG self st l st_d fence st_r Hp Hf))
      as (status & st' & Hc).
    destruct (checkOutputs_logs (m_shaderSpec self) (outputAllocs (vectors l))
                (length (outputs (m_shaderSpec self))) 0 st_r) as (compare & Ht & Hcompare).
    cbn [length] in Hc. rewrite Hc in Ht. cbn [snd] in Ht.
    exists status, st', compare.
    split; [|split; [eapply checkOutputs_status; exact Hc|split; assumption]].
    subst run. rewrite (iterate_after_prepare drv DE_DEBUG self st l st_d Hp).
    unfold runAndCheck. erewrite bind_Return_run by exact Hf. exact Hc. }
  assert (∀ l st_d e st_r,
            prepare drv DE_DEBUG self st = (Return l, st_d) →
            createFenceAndRun drv ctx (cmdBuffer l) st_d = (Throw e, st_r) →
            run = (Throw e, st_r)) as Hthrows.
  { intros l st_d e st_r Hp Hf.
    subst run. rewrite (iterate_after_prepare drv DE_DEBUG self st l st_d Hp).
    unfold runAndCheck. apply bind_Throw_run. exact Hf. }
  split.
  { intros status Hr.
    destruct run as [o st'] eqn:E. cbn [fst] in Hr. subst o. subst run.
    apply iterate_inv in E as (l & E).
    apply iterateLocals_calls in E as (_ & _ & _ & -> & _).
    destruct (firstMismatch _ _ _); discriminate. }
  split.
  { destruct (prepare_logs drv DE_DEBUG (fun c => waitOf c = None ∧ submitOf c = None) self st)
      as (calls0 & Ht0 & HP0).
    { intros c. destruct c; cbn; intros; auto; congruence. }
    assert (omap waitOf calls0 = [] ∧ omap submitOf calls0 = []) as [Hw0 Hs0].
    { split; apply omap_none; eapply Forall_impl; try exact HP0; intros c [H1 H2]; assumption. }
    destruct (prepare drv DE_DEBUG self st) as [o st_d] eqn:Hp. cbn [snd] in Ht0.
    assert (∀ l, o = Return l → omap waitOf (newCalls st run.2) = [] ∨
              ∃ pre cb fence post,
                newCalls st run.2 =
                  pre ++
                  [QueueSubmit (getUniversalQueue ctx) [cb] fence;
                   WaitForFences (getDevice ctx) [fence] false infiniteTimeout] ++
                  post ∧
                omap waitOf pre = [] ∧
                omap submitOf pre = [] ∧
                Forall (fun c => phaseOf c = Compare) post) as Hprepared.
    { intros l ->.
      pose proof (createFenceAndRun_outcome drv ctx (cmdBuffer l) st_d) as Hout.
      cbv zeta in Hout.
      destruct (createFenceAndRun drv ctx (cmdBuffer l) st_d) as [out st_r] eqn:Hf.
      cbn [fst snd] in Hout.
      assert (∀ e calls, out = Throw e → trace st_r = trace st_d ++ calls →
                         omap waitOf calls = [] →
                         omap waitOf (newCalls st run.2) = []) as Hfailed.
      { intros e calls -> Ht Hnone.
        rewrite (Hthrows l st_d e st_r eq_refl Hf). cbn [snd].
        rewrite (newCalls_app st st_r (calls0 ++ calls))
          by (rewrite Ht, Ht0, <- app_assoc; reflexivity).
        rewrite omap_app, Hw0, Hnone. reflexivity. }
      destruct (drv_result drv (trace st_d) _);
        try (left; destruct Hout as [Ho Ht]; eapply (Hfailed _ []);
             [exact Ho|rewrite app_nil_r; exact Ht|reflexivity]).
      destruct (drv_result drv (trace st_d ++ [_]) _);
        try (left; destruct Hout as [Ho Ht]; eapply (Hfailed _ [_]);
             [exact Ho|exact Ht|reflexivity]).
      destruct (drv_result drv (trace st_d ++ [_; _]) _);
        try (left; destruct Hout as [Ho Ht]; eapply (Hfailed _ [_; _]);
             [exact Ho|exact Ht|reflexivity]).
      destruct Hout as [-> Ht].
      destruct (Hreturns l st_d _ st_r eq_refl Hf)
        as (status & st' & compare & Hrun & _ & Ht' & Hcompare).
      right.
      exists (calls0 ++ [CreateFence {| fci_flags := 0 |} (nextHandle st_d)]),
             (cmdBuffer l), (nextHandle st_d), compare.
      split; [|split; [|split]].
      - rewrite Hrun. cbn [snd]. apply newCalls_app.
        rewrite Ht', Ht, Ht0, <- !app_assoc. reflexivity.
      - rewrite omap_app, Hw0. reflexivity.
      - rewrite omap_app, Hs0. reflexivity.
      - exact Hcompare. }
    destruct o as [l|e|k|]; [exact (Hprepared l eq_refl)|left..];
      (destruct (iterate_without_prepare drv DE_DEBUG self st) as [Hstate _];
       [rewrite Hp; discriminate|]);
      subst run; rewrite Hstate, Hp; cbn [snd];
      rewrite (newCalls_app _ _ _ Ht0); exact Hw0. }
  intros l st_d Hp fence created submit wait Hc Hs.
  pose proof (createFenceAndRun_outcome drv ctx (cmdBuffer l) st_d) as Hout.
  cbv zeta in Hout. fold fence created submit wait in Hout.
  rewrite Hc, Hs in Hout.
  destruct (createFenceAndRun drv ctx (cmdBuffer l) st_d) as [out st_r] eqn:Hf.
  cbn [fst snd] in Hout.
  split.
  - intros Hw. rewrite Hw in Hout. destruct Hout as [-> Ht].
    destruct (Hreturns l st_d _ st_r Hp Hf)
      as (status & st' & compare & Hrun & Hstatus & Ht' & Hcompare).
    exists status, compare. rewrite Hrun. cbn [fst snd].
    split; [reflexivity|]. split; [exact Hstatus|]. split; [|exact Hcompare].
    rewrite Ht', Ht, <- !app_assoc. reflexivity.
  - intros r Hw Hr. rewrite Hw in Hout.
    assert (out = Throw (VkError wait r) ∧ trace st_r = trace st_d ++ [created; submit])
      as [-> Ht] by (destruct r; [contradiction|exact Hout..]).
    rewrite (Hthrows l st_d _ st_r Hp Hf). cbn [fst snd]. auto.
Qed.

(** ** Every run, by how far it gets *)


(** The calls of a run of [iterate], whatever the driver does: those made
    up to the recorded commands, then as much of the fence, the submission
    and the wait as the driver accepts, then, after an accepted wait only,
    the comparisons. A status is returned in the last case only. *)
Lemma iterate_calls_cases drv DE_DEBUG self st :
  ∃ calls0,
    Forall (fun c => phaseOf c ≠ Run ∧ phaseOf c ≠ Compare) calls0 ∧
    ((newCalls st (iterate drv DE_DEBUG self st).2 = calls0 ∧
      ∀ status, (iterate drv DE_DEBUG self st).1 ≠ Return status) ∨
     ∃ l st_d,
       prepare drv DE_DEBUG self st = (Return l, st_d) ∧
       trace st_d = trace st ++ calls0 ∧
       ((newCalls st (iterate drv DE_DEBUG self st).2 =
           calls0 ++ [CreateFence {| fci_flags := 0 |} (nextHandle st_d)] ∧
         ∀ status, (iterate drv DE_DEBUG self st).1 ≠ Return status) ∨
        (newCalls st (iterate drv DE_DEBUG self st).2 =
           calls0 ++
           [CreateFence {| fci_flags := 0 |} (nextHandle st_d);
            QueueSubmit (getUniversalQueue (m_context self)) [cmdBuffer l] (nextHandle st_d)] ∧
         ∀ status, (iterate drv DE_DEBUG self st).1 ≠ Return status) ∨
        ∃ status compare,
          (iterate drv DE_DEBUG self st).1 = Return status ∧
          newCalls st (iterate drv DE_DEBUG self st).2 =
            calls0 ++ runCalls (m_context self) (cmdBuffer l) (nextHandle st_d) ++ compare ∧
          Forall (fun c => phaseOf c = Compare) compare)).
Proof.
  destruct (prepare_logs drv DE_DEBUG (fun c => phaseOf c ≠ Run ∧ phaseOf c ≠ Compare) self st)
    as (calls0 & Ht0 & HP0); [auto|].
  exists calls0. split; [exact HP0|].
  destruct (prepare drv DE_DEBUG self st) as [o st_d] eqn:Hp. cbn [snd] in Ht0.
  destruct o as [l|e|k|].
  2-4: left;
    destruct (iterate_without_prepare drv DE_DEBUG self st) as [Hstate Hnone];
    [rewrite Hp; discriminate|];
    split; [rewrite Hstate, Hp; apply newCalls_app; exact Ht0|exact Hnone].
  rewrite (iterate_after_prepare drv DE_DEBUG self st l st_d Hp).
  pose proof (createFenceAndRun_outcome drv (m_context self) (cmdBuffer l) st_d) as Hout.
  cbv zeta in Hout. unfold runAndCheck.
  destruct (createFenceAndRun drv (m_context self) (cmdBuffer l) st_d) as [out st_r] eqn:Hf.
  cbn [fst snd] in Hout.
  assert (∀ e, out = Throw e →
            (createFenceAndRun drv (m_context self) (cmdBuffer l) ≫=
               λ _, checkOutputs (m_shaderSpec self) (outputAllocs (vectors l))
                      (length (outputs (m_shaderSpec self))) 0) st_d = (Throw e, st_r)) as Hthrows
    by (intros e ->; apply bind_Throw_run; exact Hf).
  destruct (drv_result drv (trace st_d) _).
  2-6: left; destruct Hout as [Ho Ht]; rewrite (Hthrows _ Ho); cbn [fst snd];
    split; [apply newCalls_app; rewrite Ht; exact Ht0|discriminate].
  right. exists l, st_d. split; [reflexivity|]. split; [exact Ht0|].
  destruct (drv_result drv (trace st_d ++ [_]) _).
  2-6: left; destruct Hout as [Ho Ht]; rewrite (Hthrows _ Ho); cbn [fst snd];
    split; [apply newCalls_app; rewrite Ht, Ht0, <- app_assoc; reflexivity|discriminate].
  right.
  destruct (drv_result drv (trace st_d ++ [_; _]) _).
  2-6: left; destruct Hout as [Ho Ht]; rewrite (Hthrows _ Ho); cbn [fst snd];
    split; [apply newCalls_app; rewrite Ht, Ht0, <- app_assoc; reflexivity|discriminate].
  right. destruct Hout as [-> Ht].
  destruct (checkOutputs_run (m_shaderSpec self) (outputAllocs (vectors l))
              (outputs (m_shaderSpec self)) [] [] (outputAllocs (vectors l)) st_r
              eq_refl eq_refl eq_refl
              (outputs_mapped_after_run drv DE_DEBUG self st l st_d _ st_r Hp Hf))
    as (status & st' & Hc).
  destruct (checkOutputs_logs (m_shaderSpec self) (outputAllocs (vectors l))
              (length (outputs (m_shaderSpec self))) 0 st_r) as (compare & Ht' & Hcompare).
  cbn [length] in Hc. rewrite Hc in Ht'. cbn [snd] in Ht'.
  exists status, compare.
  erewrite bind_Return_run by exact Hf. rewrite Hc. cbn [fst snd].
  split; [reflexivity|]. split; [|exact Hcompare].
  apply newCalls_app. rewrite Ht', Ht, Ht0, <- !app_assoc. reflexivity.
Qed.

(** X5: whatever the driver does and however iterate ends, the queue is
    handed work at most once, and only after everything before the fence
    succeeded: either the run submits nothing, or the preparation returned and
    the one submission is that of the command buffer it recorded. *)
Theorem at_most_one_submission (drv : Driver) (DE_DEBUG : bool)
    (self : SpvAsmComputeShaderInstance) (st : DeviceState) :
  omap submitOf (newCalls st (iterate drv DE_DEBUG self st).2) = [] ∨
  ∃ l st_d fence,
    prepare drv DE_DEBUG self st = (Return l, st_d) ∧
    omap submitOf (newCalls st (iterate drv DE_DEBUG self st).2) = [([cmdBuffer l], fence)].
Proof.
  destruct (iterate_calls_cases drv DE_DEBUG self st) as (calls0 & HP0 & Hcases).
  assert (omap submitOf calls0 = []) as Hs0.
  { apply omap_none. eapply Forall_impl; [exact HP0|].
    intros c [Hrun _]. destruct c; cbn in *; congruence. }
  destruct Hcases as [[-> _]|(l & st_d & Hp & _ & [[-> _]|[[-> _]|Hret]])].
  - left. exact Hs0.
  - left. rewrite omap_app, Hs0. reflexivity.
  - right. exists l, st_d, (nextHandle st_d). split; [exact Hp|].
    rewrite omap_app, Hs0. reflexivity.
  - destruct Hret as (status & compare & _ & -> & Hcompare).
    right. exists l, st_d, (nextHandle st_d). split; [exact Hp|].
    rewrite !omap_app, Hs0.
    rewrite (omap_none submitOf compare)
      by (eapply Forall_impl; [exact Hcompare|]; intros c Hc; destruct c; cbn in *; congruence).
    reflexivity.
Qed.

(** X12: iterate returns a status exactly when everything up to the
    recorded commands succeeded and the fence, the submission and the wait
    succeeded after it: the loop that checks the outputs then always reaches a
    verdict. A run that returns no status compared nothing. *)
Theorem verdict_follows_the_wait (drv : Driver) (DE_DEBUG : bool)
    (self : SpvAsmComputeShaderInstance) (st : DeviceState) :
  ((∃ status st', iterate drv DE_DEBUG self st = (Return status, st')) ↔
   ∃ l st_d fence st_r,
     prepare drv DE_DEBUG self st = (Return l, st_d) ∧
     createFenceAndRun drv (m_context self) (cmdBuffer l) st_d = (Return fence, st_r)) ∧
  ((∀ status, (iterate drv DE_DEBUG self st).1 ≠ Return status) →
   omap comparisonOf (newCalls st (iterate drv DE_DEBUG self st).2) = []).
Proof.
  split.
  { split.
    - intros (status & st' & H). apply iterate_inv in H as (l & H).
      apply iterateLocals_inv in H as (st_d & st_r & fence & Hp & Hf & _). eauto 10.
    - intros (l & st_d & fence & st_r & Hp & Hf).
      destruct (checkOutputs_run (m_shaderSpec self) (outputAllocs (vectors l))
                  (outputs (m_shaderSpec self)) [] [] (outputAllocs (vectors l)) st_r
                  eq_refl eq_refl eq_refl
                  (outputs_mapped_after_run drv DE_DEBUG self st l st_d fence st_r Hp Hf))
        as (status & st' & Hc).
      exists status, st'. rewrite (iterate_after_prepare drv DE_DEBUG self st l st_d Hp).
      unfold runAndCheck. erewrite bind_Return_run by exact Hf. exact Hc. }
  intros Hnone.
  destruct (iterate_calls_cases drv DE_DEBUG self st) as (calls0 & HP0 & Hcases).
  assert (omap comparisonOf calls0 = []) as Hc0.
  { apply omap_none. eapply Forall_impl; [exact HP0|].
    intros c [_ Hcmp]. destruct c; cbn in *; congruence. }
  destruct Hcases as [[-> _]|(l & st_d & Hp & _ & [[-> _]|[[-> _]|Hret]])].
  - exact Hc0.
  - rewrite omap_app, Hc0. reflexivity.
  - rewrite omap_app, Hc0. reflexivity.
  - destruct Hret as (status & compare & Hr & _). exfalso. exact (Hnone status Hr).
Qed.

(** ** The sections of a run that returns *)

Lemma setupCalls_phase drv role h b :
  Forall (fun c => phaseOf c = Setup) (setupCalls drv role h b).
Proof. destruct role; repeat constructor. Qed.

Lemma buffersCalls_phase drv role bs : ∀ h,
  Forall (fun c => phaseOf c = Setup) (buffersCalls drv role h bs).
Proof.
  induction bs as [|b bs IH]; intros h; cbn [buffersCalls]; [constructor|].
  apply Forall_app. split; [apply setupCalls_phase|apply IH].
Qed.



(** X1: once iterate has set the buffers up and recorded its commands,
    every input has its allocation, the mapping of that allocation is at
    least as long as the input and starts with the input's bytes, and the copy
    was followed at once by a flush of exactly that many bytes at the
    allocation's memory and offset. All that was called before the copy
    belongs to the set-up of the buffers. *)
Theorem inputs_copied_and_flushed_before_submission (drv : Driver) (DE_DEBUG : bool)
    (self : SpvAsmComputeShaderInstance) (st : DeviceState) (l : Locals) (st_d : DeviceState) :
  prepare drv DE_DEBUG self st = (Return l, st_d) →
  length (inputAllocs (vectors l)) = length (inputs (m_shaderSpec self)) ∧
  ∀ i input alloc,
    inputs (m_shaderSpec self) !! i = Some input →
    inputAllocs (vectors l) !! i = Some alloc →
    take (getNumBytes input) (viewOf st_d (getHostPtr alloc)) = data input ∧
    getNumBytes input ≤ length (viewOf st_d (getHostPtr alloc)) ∧
    ∃ pre post,
      newCalls st st_d =
        pre ++
        [DeMemcpy (getHostPtr alloc) (data input) (getNumBytes input);
         FlushMappedMemoryRange (getMemory alloc) (getOffset alloc) (getNumBytes input)] ++
        post ∧
      Forall (fun c => phaseOf c = Setup) pre.
Proof.
  intros H. apply prepare_inv in H as (binary & _ & _ & _ & -> & _ & Hm & Ht).
  apply newCalls_app in Ht. rewrite Ht. clear Ht.
  split; [apply length_buffersAllocs|].
  intros i input alloc Hi Ha.
  cbn [vectors preparedLocals inputAllocs filledVectors] in Ha.
  rewrite buffersAllocs_lookup, Hi in Ha.
  assert (alloc = allocationAt drv (nextHandle st + 2 * i) (getNumBytes input))
    as -> by (cbn [fmap option_fmap option_map] in Ha; congruence).
  clear Ha. cbn [getHostPtr getMemory allocationAt].
  rewrite (viewOf_lookup st_d _ _
    (eq_trans (f_equal (fun m => m !! _) Hm)
       (createBuffersMem_input drv (m_shaderSpec self) (nextHandle st) (hostMem st) i input Hi))).
  split; [apply take_setupView_Input|].
  split; [rewrite length_setupView; lia|].
  destruct (buffersCalls_lookup drv Input (inputs (m_shaderSpec self)) (nextHandle st) i input Hi)
    as (pre & post & E).
  unfold prepareCalls, createBuffersCalls.
  set (later := buffersCalls drv Output _ _).
  set (tail := layoutCalls _ _ _ ++ _).
  set (h' := nextHandle st + 2 * i).
  exists (pre ++ bindCalls drv h' (getNumBytes input)), (post ++ later ++ tail).
  split.
  - rewrite E. unfold setupCalls. cbn [fillCall]. rewrite <- !app_assoc. reflexivity.
  - pose proof (buffersCalls_phase drv Input (inputs (m_shaderSpec self)) (nextHandle st)) as HP.
    rewrite E in HP. apply Forall_app in HP as [Hpre HP].
    apply Forall_app. split; [exact Hpre|]. repeat constructor.
Qed.


(** ** How the objects of a run are wired together *)

Lemma writesFrom_destSet ds infos : ∀ k,
  Forall (fun w => wds_destSet w = ds ∧ wds_destArrayElement w = 0%Z ∧ wds_count w = 1%Z ∧
                   wds_descriptorType w = VK_DESCRIPTOR_TYPE_STORAGE_BUFFER)
    (writesFrom ds k infos).
Proof.
  induction infos as [|info infos IH]; intros k; cbn [writesFrom]; constructor;
    [cbn; auto|apply IH].
Qed.

(** X8: in a run that gets as far as the recorded commands, the pipeline
    layout is created once, over the one descriptor set layout and without
    push constants; the descriptor pool is created once, one-shot, for one set
    and for exactly as many storage buffer descriptors as there are buffers
    (the count fits the deUint32 it is cast to); the descriptor set is
    allocated once, one-shot, from that pool and with that layout; and the one
    update that follows writes to that set only. *)
Theorem layouts_pool_and_set_are_wired (drv : Driver) (DE_DEBUG : bool)
    (self : SpvAsmComputeShaderInstance) (st : DeviceState) (l : Locals) (st_d : DeviceState) :
  prepare drv DE_DEBUG self st = (Return l, st_d) →
  let numBuffers := length (inputs (m_shaderSpec self)) + length (outputs (m_shaderSpec self)) in
  omap createdPipelineLayout (newCalls st st_d) =
    [({| plci_setLayouts := [descriptorSetLayout l]; plci_pushConstantRangeCount := 0 |},
      pipelineLayout l)] ∧
  omap createdPool (newCalls st st_d) =
    [([(VK_DESCRIPTOR_TYPE_STORAGE_BUFFER, Z.of_nat numBuffers)],
      VK_DESCRIPTOR_POOL_USAGE_ONE_SHOT, 1%Z, descriptorPool l)] ∧
  omap allocatedSet (newCalls st st_d) =
    [(descriptorPool l, VK_DESCRIPTOR_SET_USAGE_ONE_SHOT, descriptorSetLayout l,
      descriptorSet l)] ∧
  ∃ writes,
    omap updatesOf (newCalls st st_d) = [writes] ∧
    Forall (fun w => wds_destSet w = descriptorSet l ∧ wds_destArrayElement w = 0%Z ∧
                     wds_count w = 1%Z ∧
                     wds_descriptorType w = VK_DESCRIPTOR_TYPE_STORAGE_BUFFER) writes.
Proof.
  intros H numBuffers.
  apply prepare_inv in H as (binary & _ & _ & Hsmall & -> & _ & _ & Ht).
  apply newCalls_app in Ht. rewrite Ht. clear Ht.
  unfold prepareCalls. rewrite !omap_app.
  rewrite !(omap_createBuffersCalls drv) by (intros []; reflexivity).
  cbn [preparedLocals descriptorSetLayout pipelineLayout descriptorPool descriptorSet].
  split; [reflexivity|]. split.
  { cbn. unfold toUint32. fold numBuffers. rewrite Z.mod_small by (fold numBuffers in Hsmall; lia).
    reflexivity. }
  split; [reflexivity|].
  eexists. split; [reflexivity|]. apply writesFrom_destSet.
Qed.

(** X9: in a run that gets as far as the recorded commands, the shader
    module is created once, from the binary that the collection holds under
    the name "compute" and with no flags; the shader is created once, from
    that module, for the compute stage and with the entry point "main"; and
    the compute pipeline is created once, without a cache or a base pipeline,
    from that shader and with the pipeline layout that was created over the
    descriptor set layout. *)
Theorem module_shader_and_pipeline_are_wired (drv : Driver) (DE_DEBUG : bool)
    (self : SpvAsmComputeShaderInstance) (st : DeviceState) (l : Locals) (st_d : DeviceState) :
  prepare drv DE_DEBUG self st = (Return l, st_d) →
  ∃ binary,
    lookupBinary (m_context self) "compute" = Some binary ∧
    omap createdModule (newCalls st st_d) = [(binary, 0%Z, module l)] ∧
    omap createdShader (newCalls st st_d) =
      [({| sci_module := module l; sci_name := "main"; sci_flags := 0;
           sci_stage := VK_SHADER_STAGE_COMPUTE |}, shader l)] ∧
    omap createdPipeline (newCalls st st_d) =
      [(0, {| cpci_cs := {| pss_stage := VK_SHADER_STAGE_COMPUTE; pss_shader := shader l |};
              cpci_flags := 0;
              cpci_layout := pipelineLayout l;
              cpci_basePipelineHandle := 0;
              cpci_basePipelineIndex := 0 |}, computePipeline l)].
Proof.
  intros H.
  apply prepare_inv in H as (binary & Hbin & _ & _ & -> & _ & _ & Ht).
  apply newCalls_app in Ht. rewrite Ht. clear Ht.
  exists binary. split; [exact Hbin|].
  unfold prepareCalls. rewrite !omap_app.
  rewrite !(omap_createBuffersCalls drv) by (intros []; reflexivity).
  repeat split.
Qed.

(** X10: in a run that gets as far as the recorded commands, the command
    pool is created once, for the universal queue family of the context and
    with no flags; the command buffer is created once, from that pool, at the
    primary level; and recording is begun once, on that command buffer, as a
    one-time submission outside any render pass. *)
Theorem command_pool_and_buffer_are_wired (drv : Driver) (DE_DEBUG : bool)
    (self : SpvAsmComputeShaderInstance) (st : DeviceState) (l : Locals) (st_d : DeviceState) :
  prepare drv DE_DEBUG self st = (Return l, st_d) →
  omap createdCmdPool (newCalls st st_d) =
    [({| cpi_queueFamilyIndex := getUniversalQueueFamilyIndex (m_context self); cpi_flags := 0 |},
      cmdPool l)] ∧
  omap createdCmdBuffer (newCalls st st_d) =
    [({| cbci_cmdPool := cmdPool l; cbci_level := VK_CMD_BUFFER_LEVEL_PRIMARY; cbci_flags := 0 |},
      cmdBuffer l)] ∧
  omap begun (newCalls st st_d) =
    [(cmdBuffer l,
      {| cbbi_flags := VK_CMD_BUFFER_OPTIMIZE_ONE_TIME_SUBMIT_BIT; cbbi_renderPass := 0;
         cbbi_subpass := 0; cbbi_framebuffer := 0 |})].
Proof.
  intros H.
  apply prepare_inv in H as (binary & _ & _ & _ & -> & _ & _ & Ht).
  apply newCalls_app in Ht. rewrite Ht. clear Ht.
  unfold prepareCalls. rewrite !omap_app.
  rewrite !(omap_createBuffersCalls drv) by (intros []; reflexivity).
  repeat split.
Qed.

(** ** A device that stores nothing *)

(** X6: on a device whose submitted work stores nothing, a run of iterate
    that returns finds in every output mapping the zero bytes it cleared it
    to: the status is the pass exactly when every expected output consists of
    zero bytes only. *)
Theorem idle_device_passes_iff_outputs_are_zero (drv : Driver) (DE_DEBUG : bool)
    (self : SpvAsmComputeShaderInstance) (st : DeviceState) (status : TestStatus)
    (st' : DeviceState) :
  idle drv →
  iterate drv DE_DEBUG self st = (Return status, st') →
  (status = pass "Ouput match with expected" ↔
   Forall (fun e => data e = replicate (getNumBytes e) x00) (outputs (m_shaderSpec self))).
Proof.
  intros Hidle H. apply iterate_inv in H as (l & H).
  pose proof H as Hcalls.
  apply iterateLocals_calls in Hcalls as (_ & _ & Hl & -> & _).
  apply iterateLocals_inv in H as (st_d & st_r & fence & Hp & Hf & Hc).
  apply prepare_inv in Hp as (_ & _ & _ & _ & _ & _ & Hm & _).
  apply createFenceAndRun_inv in Hf as (_ & _ & Hm' & _).
  rewrite Hidle in Hm'. cbn [applyStores foldl] in Hm'.
  apply (checkOutputs_inv (m_shaderSpec self) _ _ [] [] (outputAllocs (vectors l)))
    in Hc as (_ & _ & Hm'' & _); [|reflexivity|reflexivity|reflexivity].
  assert (hostMem st' = createBuffersMem drv (m_shaderSpec self) (nextHandle st) (hostMem st))
    as Hmem by congruence.
  assert (length (outputs (m_shaderSpec self)) = length (outputAllocs (vectors l))) as Hlen
    by (rewrite Hl; symmetry; apply length_outputAllocs).
  assert (∀ i e a, outputs (m_shaderSpec self) !! i = Some e →
                   outputAllocs (vectors l) !! i = Some a →
                   (outputMatches st' e a ↔ data e = replicate (getNumBytes e) x00)) as Hone.
  { intros i e a He Ha. rewrite Hl in Ha.
    cbn [vectors preparedLocals outputAllocs filledVectors] in Ha.
    rewrite buffersAllocs_lookup, He in Ha.
    assert (a = allocationAt drv
              (nextHandle st + 2 * length (inputs (m_shaderSpec self)) + 2 * i) (getNumBytes e))
      as -> by (cbn [fmap option_fmap option_map] in Ha; congruence).
    unfold outputMatches. cbn [getHostPtr allocationAt].
    rewrite (viewOf_lookup st' _ _
      (eq_trans (f_equal (fun m => m !! _) Hmem)
         (createBuffersMem_output drv (m_shaderSpec self) (nextHandle st) (hostMem st) i e He))).
    rewrite take_setupView_Output. split; congruence. }
  assert (verdictOf (firstMismatch st' (outputs (m_shaderSpec self)) (outputAllocs (vectors l))) =
          pass "Ouput match with expected" ↔
          firstMismatch st' (outputs (m_shaderSpec self)) (outputAllocs (vectors l)) = None) as ->.
  { destruct (firstMismatch st' _ _); cbn; split; congruence || discriminate. }
  rewrite (firstMismatch_None st' _ _ Hlen), Forall_lookup. split.
  - intros HF i e He.
    destruct (lookup_lt_is_Some_2 (outputAllocs (vectors l)) i) as [a Ha];
      [rewrite <- Hlen; eapply lookup_lt_Some; exact He|].
    apply (Hone i e a He Ha). eapply Forall2_lookup_lr; eauto.
  - intros HF. apply Forall2_same_length_lookup_2; [exact Hlen|].
    intros i e a He Ha. apply (Hone i e a He Ha). eapply HF. exact He.
Qed.

(** ** The descriptor set layout, whatever the number of bindings *)

(** X14: createDescriptorSetLayout, for any number of bindings, makes one
    call, which declares that many bindings, each of them one storage buffer
    for the compute stage: it returns the new layout when the driver accepts
    the call, and throws the error of that call, with the result the driver
    gave, when it does not. Its loop is left whatever the number. *)
Theorem createDescriptorSetLayout_declares_storage_buffers (drv : Driver) (numBindings : nat)
    (st : DeviceState) :
  let layout := nextHandle st in
  let call :=
    CreateDescriptorSetLayout
      (replicate numBindings
         {| lb_descriptorType := VK_DESCRIPTOR_TYPE_STORAGE_BUFFER; lb_arraySize := 1;
            lb_stageFlags := VK_SHADER_STAGE_COMPUTE |}) layout in
  match drv_result drv (trace st) call with
  | VK_SUCCESS =>
      createDescriptorSetLayout drv numBindings st = (Return layout, logCall call (takeHandle st))
  | r => createDescriptorSetLayout drv numBindings st = (Throw (VkError call r), takeHandle st)
  end.
Proof.
  intros layout call. unfold createDescriptorSetLayout.
  erewrite bind_Return_run by apply bindingLoop_run.
  cbn [app]. unfold create.
  erewrite bind_Return_run by (unfold fresh; reflexivity).
  unfold mbind, M_bind, checked. cbn [trace takeHandle].
  fold layout. unfold storageBinding. fold call.
  destruct (drv_result drv (trace st) call); reflexivity.
Qed.

(** ** The descriptor set, whatever the number of views *)

Lemma writesOf_lookup ds infos k n i :
  i < n → writesOf ds infos k n !! i = Some (pointerWrite ds (k + i) (infos !! (k + i))).
Proof.
  intros Hi. unfold writesOf.
  rewrite list_lookup_fmap, lookup_seq_lt by exact Hi. reflexivity.
Qed.

(** X11: createDescriptorSet with fewer than 2^32 views, once the driver has
    allocated the set, hands the driver one update of as many writes as there
    are views, whatever the number of descriptor infos: the i-th write goes to
    binding i of the allocated set and holds the address of the i-th info,
    which lies past the end of the vector when there are fewer infos than
    views. It returns the set when the driver accepts the update and throws
    the error of the update, with the driver's result, when it does not. *)
Theorem createDescriptorSet_writes_the_first_views (drv : Driver) (pool : VkDescriptorPool)
    (layout : VkDescriptorSetLayout) (numViews : nat) (infos : list VkDescriptorInfo)
    (st : DeviceState) :
  let ds := nextHandle st in
  let allocation := AllocDescriptorSet pool VK_DESCRIPTOR_SET_USAGE_ONE_SHOT layout ds in
  let allocated := logCall allocation (takeHandle st) in
  (Z.of_nat numViews < 2 ^ 32)%Z →
  drv_result drv (trace st) allocation = VK_SUCCESS →
  ∃ writes,
    length writes = numViews ∧
    (∀ i, i < numViews →
       writes !! i =
         Some {| wds_destSet := ds;
                 wds_destBinding := Z.of_nat i;
                 wds_destArrayElement := 0;
                 wds_count := 1;
                 wds_descriptorType := VK_DESCRIPTOR_TYPE_STORAGE_BUFFER;
                 wds_pDescriptors := infos !! i |}) ∧
    match drv_result drv (trace allocated) (UpdateDescriptorSets writes) with
    | VK_SUCCESS =>
        createDescriptorSet drv pool layout numViews infos st =
          (Return ds, logCall (UpdateDescriptorSets writes) allocated)
    | r =>
        createDescriptorSet drv pool layout numViews infos st =
          (Throw (VkError (UpdateDescriptorSets writes) r), allocated)
    end.
Proof.
  intros ds allocation allocated Hsmall Halloc.
  exists (writesOf ds infos 0 numViews).
  split; [unfold writesOf; rewrite length_map, length_seq; reflexivity|].
  split; [intros i Hi; rewrite writesOf_lookup by exact Hi; reflexivity|].
  unfold createDescriptorSet.
  erewrite bind_Return_run
    by (apply (create_ok drv (AllocDescriptorSet pool VK_DESCRIPTOR_SET_USAGE_ONE_SHOT layout));
        exact Halloc).
  fold ds. fold allocation. fold allocated.
  erewrite bind_Return_run
    by (apply (forLoopUint32_left ds infos numViews Hsmall numViews 0 numViews [] allocated);
        lia).
  cbn [app].
  destruct (drv_result drv (trace allocated) (UpdateDescriptorSets (writesOf ds infos 0 numViews)))
    eqn:E.
  1: erewrite bind_Return_run by (apply checked_ok; exact E); reflexivity.
  all: erewrite bind_Throw_run by (apply checked_fails; [exact E|discriminate]); reflexivity.
Qed.

(** X13: the counter of the loop that writes the descriptors is a deUint32
    compared with a size_t. With 2^32 views or more the counter, whatever it
    wraps to, stays below the bound: the loop is not left, however many rounds
    it is given, and iterate with 2^32 buffers or more returns no status,
    whatever the driver does. With fewer views the loop is left after one
    round for each view. *)
Theorem too_many_buffers_yield_no_status (drv : Driver) (DE_DEBUG : bool)
    (self : SpvAsmComputeShaderInstance) (st : DeviceState) :
  let numBuffers := length (inputs (m_shaderSpec self)) + length (outputs (m_shaderSpec self)) in
  ((2 ^ 32 ≤ Z.of_nat numBuffers)%Z →
   (∀ ds infos fuel st0,
      (forLoopUint32 numBuffers fuel 0 (descriptorBody ds infos) [] st0).1 = Diverge) ∧
   ∀ status, (iterate drv DE_DEBUG self st).1 ≠ Return status) ∧
  ((Z.of_nat numBuffers < 2 ^ 32)%Z →
   ∀ ds infos fuel st0,
     numBuffers ≤ fuel →
     ∃ writes,
       forLoopUint32 numBuffers fuel 0 (descriptorBody ds infos) [] st0 = (Return writes, st0) ∧
       length writes = numBuffers).
Proof.
  intros numBuffers. split.
  - intros Hbig. split.
    + intros ds infos fuel st0.
      rewrite (forLoopUint32_never_left ds infos numBuffers Hbig fuel 0 [] st0) by lia.
      reflexivity.
    + intros status Hr.
      destruct (iterate drv DE_DEBUG self st) as [o st'] eqn:E. cbn [fst] in Hr. subst o.
      apply iterate_inv in E as (l & E).
      apply iterateLocals_inv in E as (st_d & _ & _ & Hp & _).
      apply prepare_inv in Hp as (_ & _ & _ & Hsmall & _). fold numBuffers in Hsmall. lia.
  - intros Hsmall ds infos fuel st0 Hfuel.
    exists (writesOf ds infos 0 numBuffers). split.
    + change 0%Z with (Z.of_nat 0).
      rewrite (forLoopUint32_left ds infos numBuffers Hsmall numBuffers 0 fuel [] st0) by lia.
      reflexivity.
    + unfold writesOf. rewrite length_map, length_seq. reflexivity.
Qed.

(** ** The further properties on the examples *)

Lemma idleDevice_idle : idle idleDevice.
Proof. intros tr mem. reflexivity. Qed.

Lemma inputs_copied_and_flushed_before_submission_witness :
  prepare copyDevice true passingInstance freshDevice =
    (Return (preparedLocals copyDevice (m_shaderSpec passingInstance) 1),
     (prepare copyDevice true passingInstance freshDevice).2) ∧
  take 4 (viewOf (prepare copyDevice true passingInstance freshDevice).2 2) = [x01; x02; x03; x04].
Proof.
  assert (prepare copyDevice true passingInstance freshDevice =
            (Return (preparedLocals copyDevice (m_shaderSpec passingInstance) 1),
             (prepare copyDevice true passingInstance freshDevice).2)) as H
    by (vm_compute; reflexivity).
  split; [exact H|].
  destruct (inputs_copied_and_flushed_before_submission copyDevice true passingInstance
              freshDevice _ _ H) as (_ & Hall).
  destruct (Hall 0 {| data := [x01; x02; x03; x04] |}
              {| getMemory := 2; getOffset := 0; getHostPtr := 2 |} eq_refl eq_refl)
    as (Hdata & _).
  exact Hdata.
Defined.

Lemma idle_device_passes_iff_outputs_are_zero_witness :
  idle idleDevice ∧
  iterate idleDevice true zeroInstance freshDevice =
    (Return (pass "Ouput match with expected"),
     (iterate idleDevice true zeroInstance freshDevice).2) ∧
  Forall (fun e => data e = replicate (getNumBytes e) x00) (outputs (m_shaderSpec zeroInstance)).
Proof.
  assert (iterate idleDevice true zeroInstance freshDevice =
            (Return (pass "Ouput match with expected"),
             (iterate idleDevice true zeroInstance freshDevice).2)) as H
    by (vm_compute; reflexivity).
  split; [exact idleDevice_idle|]. split; [exact H|].
  apply (idle_device_passes_iff_outputs_are_zero idleDevice true zeroInstance freshDevice _ _
           idleDevice_idle H).
  reflexivity.
Defined.


Lemma layouts_pool_and_set_are_wired_witness :
  prepare copyDevice true passingInstance freshDevice =
    (Return (preparedLocals copyDevice (m_shaderSpec passingInstance) 1),
     (prepare copyDevice true passingInstance freshDevice).2) ∧
  omap createdPool (newCalls freshDevice (prepare copyDevice true passingInstance freshDevice).2) =
    [([(VK_DESCRIPTOR_TYPE_STORAGE_BUFFER, 2%Z)], VK_DESCRIPTOR_POOL_USAGE_ONE_SHOT, 1%Z, 7)].
Proof.
  assert (prepare copyDevice true passingInstance freshDevice =
            (Return (preparedLocals copyDevice (m_shaderSpec passingInstance) 1),
             (prepare copyDevice true passingInstance freshDevice).2)) as H
    by (vm_compute; reflexivity).
  split; [exact H|].
  destruct (layouts_pool_and_set_are_wired copyDevice true passingInstance freshDevice _ _ H)
    as (_ & Hpool & _).
  exact Hpool.
Defined.

Lemma module_shader_and_pipeline_are_wired_witness :
  prepare copyDevice true passingInstance freshDevice =
    (Return (preparedLocals copyDevice (m_shaderSpec passingInstance) 1),
     (prepare copyDevice true passingInstance freshDevice).2) ∧
  ∃ binary,
    lookupBinary (m_context passingInstance) "compute" = Some binary ∧
    omap createdModule (newCalls freshDevice (prepare copyDevice true passingInstance freshDevice).2) =
      [(binary, 0%Z, 9)].
Proof.
  assert (prepare copyDevice true passingInstance freshDevice =
            (Return (preparedLocals copyDevice (m_shaderSpec passingInstance) 1),
             (prepare copyDevice true passingInstance freshDevice).2)) as H
    by (vm_compute; reflexivity).
  split; [exact H|].
  destruct (module_shader_and_pipeline_are_wired copyDevice true passingInstance freshDevice _ _ H)
    as (binary & Hbin & Hmodule & _).
  exists binary. split; [exact Hbin|exact Hmodule].
Defined.

Lemma command_pool_and_buffer_are_wired_witness :
  prepare copyDevice true passingInstance freshDevice =
    (Return (preparedLocals copyDevice (m_shaderSpec passingInstance) 1),
     (prepare copyDevice true passingInstance freshDevice).2) ∧
  omap createdCmdBuffer
    (newCalls freshDevice (prepare copyDevice true passingInstance freshDevice).2) =
    [({| cbci_cmdPool := 12; cbci_level := VK_CMD_BUFFER_LEVEL_PRIMARY; cbci_flags := 0 |}, 13)].
Proof.
  assert (prepare copyDevice true passingInstance freshDevice =
            (Return (preparedLocals copyDevice (m_shaderSpec passingInstance) 1),
             (prepare copyDevice true passingInstance freshDevice).2)) as H
    by (vm_compute; reflexivity).
  split; [exact H|].
  destruct (command_pool_and_buffer_are_wired copyDevice true passingInstance freshDevice _ _ H)
    as (_ & Hbuffer & _).
  exact Hbuffer.
Defined.

Lemma createDescriptorSet_writes_the_first_views_witness :
  (Z.of_nat 3 < 2 ^ 32)%Z ∧
  drv_result copyDevice (trace freshDevice)
    (AllocDescriptorSet 5 VK_DESCRIPTOR_SET_USAGE_ONE_SHOT 4 1) = VK_SUCCESS ∧
  ∃ writes,
    length writes = 3 ∧
    wds_pDescriptors <$> writes !! 1 = Some (Some (createDescriptorInfo 3 0 4)) ∧
    wds_pDescriptors <$> writes !! 2 = Some None ∧
    createDescriptorSet copyDevice 5 4 3 twoInfos freshDevice =
      (Return 1,
       logCall (UpdateDescriptorSets writes)
         (logCall (AllocDescriptorSet 5 VK_DESCRIPTOR_SET_USAGE_ONE_SHOT 4 1)
            (takeHandle freshDevice))).
Proof.
  assert ((Z.of_nat 3 < 2 ^ 32)%Z) as Hsmall by (vm_compute; reflexivity).
  split; [exact Hsmall|]. split; [reflexivity|].
  destruct (createDescriptorSet_writes_the_first_views copyDevice 5 4 3 twoInfos freshDevice
              Hsmall eq_refl) as (writes & Hlen & Hall & Hrun).
  exists writes. split; [exact Hlen|].
  split; [rewrite (Hall 1) by lia; reflexivity|].
  split; [rewrite (Hall 2) by lia; reflexivity|].
  exact Hrun.
Defined.

Lemma too_many_buffers_yield_no_status_witness :
  (2 ^ 32 ≤ Z.of_nat (length (inputs (m_shaderSpec hugeInstance)) +
                      length (outputs (m_shaderSpec hugeInstance))))%Z ∧
  (iterate copyDevice false hugeInstance freshDevice).1 ≠
    Return (pass "Ouput match with expected").
Proof.
  assert (2 ^ 32 ≤ Z.of_nat (length (inputs (m_shaderSpec hugeInstance)) +
                             length (outputs (m_shaderSpec hugeInstance))))%Z as H.
  { unfold hugeInstance, hugeSpec. cbn [m_shaderSpec inputs outputs].
    rewrite length_replicate. cbn [length]. lia. }
  split; [exact H|].
  destruct (too_many_buffers_yield_no_status copyDevice false hugeInstance freshDevice)
    as [Hbig _].
  destruct (Hbig H) as [_ Hnone].
  exact (Hnone (pass "Ouput match with expected")).
Defined.

Lemma wait_is_unbounded_and_never_times_out_witness :
  prepare copyDevice true passingInstance freshDevice =
    (Return (preparedLocals copyDevice (m_shaderSpec passingInstance) 1),
     (prepare copyDevice true passingInstance freshDevice).2) ∧
  ∃ status compare,
    (iterate copyDevice true passingInstance freshDevice).1 = Return status ∧
    trace (iterate copyDevice true passingInstance freshDevice).2 =
      trace (prepare copyDevice true passingInstance freshDevice).2 ++
      [CreateFence {| fci_flags := 0 |}
         (nextHandle (prepare copyDevice true passingInstance freshDevice).2);
       QueueSubmit 0 [13] (nextHandle (prepare copyDevice true passingInstance freshDevice).2);
       WaitForFences 0 [nextHandle (prepare copyDevice true passingInstance freshDevice).2] false
         infiniteTimeout] ++
      compare ∧
    Forall (fun c => phaseOf c = Compare) compare.
Proof.
  assert (prepare copyDevice true passingInstance freshDevice =
            (Return (preparedLocals copyDevice (m_shaderSpec passingInstance) 1),
             (prepare copyDevice true passingInstance freshDevice).2)) as H
    by (vm_compute; reflexivity).
  split; [exact H|].
  destruct (wait_is_unbounded_and_never_times_out copyDevice true passingInstance freshDevice)
    as (_ & _ & _ & _ & Hafter).
  destruct (Hafter _ _ H eq_refl eq_refl) as [Hok _].
  destruct (Hok eq_refl) as (status & compare & Hr & _ & Ht & Hcompare).
  exists status, compare. split; [exact Hr|]. split; [exact Ht|exact Hcompare].
Defined.

(** The claim of C8 fails on the code: with a driver that reports the wait
    as timed out, the run that has made its submission neither returns a
    status nor stays in the wait: it ends with the error of the wait
    thrown. *)
Lemma submitted_run_ends_in_a_thrown_timeout :
  omap submitOf
    (newCalls freshDevice (iterate timeoutDriver true passingInstance freshDevice).2) =
    [([13], 14)] ∧
  (iterate timeoutDriver true passingInstance freshDevice).1 =
    Throw (VkError (WaitForFences 0 [14] false 18446744073709551615%Z) VK_TIMEOUT).
Proof. repeat split; vm_compute; reflexivity. Qed.
